(** * tc-context: a shallow embedding of the binding, type and transport layers

    The development follows the TypeScript sources file by file:
    - [tc-com.ts]              -> [Module TcCom]
    - [tc-type.ts]             -> [Module TcType]
    - [tc-binding.ts]          -> [Module TcBinding]
    - [tc-symbol.ts]           -> [Module TcSymbol]
    - [tc-symbol-registry.ts]  -> [Module TcSymbolRegistry]
    - [tc-context.ts]          -> [Module TcContext]

    Modelling conventions.
    - A JavaScript [number] is a rational ([Q]), a [bigint] is an integer
      ([Z]). Comparisons are exact, and a sum of numbers is rounded to the
      nearest double ([binary64]); NaN and the infinities are outside the
      model.
    - A [Buffer] is a list of bytes.
    - A plain object is the list of its own properties; the members that it
      inherits from [Object.prototype] are taken into account where the code
      reads a property under a name that comes from the caller.
    - A promise is run to completion at the point where it is created: an
      [async] method is a computation in the monad [M], a rejected promise
      is [Throw].  [Promise.all] reports the first failure in list order.
    - The ads-client object ([interface ADS] of tc-com.ts) is the type class
      [ADS]; the JavaScript builtins used on attribute strings are the type
      class [JsRuntime].
    - An object with its children is a tree: a [TcSymbol] node carries the
      fields of its [TcBinding] and the list of its child symbols. *)

From Stdlib Require Import ZArith QArith Qround List String Ascii Lia Bool.
From Stdlib.Strings Require Import Byte.
From stdpp Require Import gmap strings pretty.
From Equations Require Import Equations.
Import ListNotations.

Set Warnings "-register-all".
Local Open Scope string_scope.
Local Open Scope list_scope.
Local Open Scope Z_scope.

(** ** JavaScript values *)

Definition Buffer := list byte.

(** The names of the members that every plain object inherits from
    [Object.prototype]. A lookup [obj[name]] under one of these names, on an
    object without an own property of the name, yields the inherited member
    (a function, or the prototype itself), which is truthy. *)
Definition Object_prototype : list string :=
  ["constructor"; "__defineGetter__"; "__defineSetter__"; "hasOwnProperty";
   "__lookupGetter__"; "__lookupSetter__"; "isPrototypeOf";
   "propertyIsEnumerable"; "toString"; "valueOf"; "__proto__";
   "toLocaleString"].

Definition inherited (name : string) : bool :=
  existsb (String.eqb name) Object_prototype.

(** The [data] of a package. It is a [Buffer] wherever the code takes it
    from the transport, from the encoder or from an own property of the
    encoding map of an enumeration; a lookup in that map under an inherited
    name puts the inherited member in its place. *)
Inductive Data :=
| Bytes (buffer : Buffer)
| Member (name : string).

Coercion Bytes : Buffer >-> Data.

(** [number | bigint] *)
Inductive Numeric :=
| Num (q : Q)
| Big (z : Z).

Inductive Value :=
| VUndefined
| VBoolean (b : bool)
| VNumber (q : Q)
| VBigInt (z : Z)
| VString (s : string)
| VObject (fields : list (string * Value))
| VArray (items : list Value).

Definition Value_of_Numeric (n : Numeric) : Value :=
  match n with Num q => VNumber q | Big z => VBigInt z end.

Definition Numeric_of_Value (v : Value) : option Numeric :=
  match v with
  | VNumber q => Some (Num q)
  | VBigInt z => Some (Big z)
  | _ => None
  end.

Definition toQ (n : Numeric) : Q :=
  match n with Num q => q | Big z => inject_Z z end.




Definition Qltb (a b : Q) : bool := negb (Qle_bool b a).

(** [a > b] and [a < b] on numeric operands (mixed number/bigint comparisons
    are mathematical in JavaScript). *)
Definition gt (a b : Numeric) : bool := Qltb (toQ b) (toQ a).
Definition lt (a b : Numeric) : bool := Qltb (toQ a) (toQ b).
Definition le (a b : Numeric) : Prop := (toQ a <= toQ b)%Q.

(** [value > border] where [value] has not been narrowed yet. The operands
    that reach the comparison in the sources are numeric; any other operand
    compares as [false] (as NaN would). *)
Definition js_gt (v : Value) (b : Numeric) : bool :=
  match Numeric_of_Value v with Some n => gt n b | None => false end.
Definition js_lt (v : Value) (b : Numeric) : bool :=
  match Numeric_of_Value v with Some n => lt n b | None => false end.

(** Strict equality [===] on the values that are compared in the sources
    (default values of leaf types). Objects and arrays are compared by
    reference in JavaScript; two distinct literals are never equal. *)
Definition strict_eq (a b : Value) : bool :=
  match a, b with
  | VUndefined, VUndefined => true
  | VBoolean x, VBoolean y => Bool.eqb x y
  | VNumber x, VNumber y => Qeq_bool x y
  | VBigInt x, VBigInt y => Z.eqb x y
  | VString x, VString y => String.eqb x y
  | _, _ => false
  end.

(** Truthiness, as used by [if (!x)] and [a || b]. *)
Definition truthy (v : Value) : bool :=
  match v with
  | VUndefined => false
  | VBoolean b => b
  | VNumber q => negb (Qeq_bool q 0)
  | VBigInt z => negb (Z.eqb z 0)
  | VString s => negb (String.eqb s "")
  | VObject _ | VArray _ => true
  end.

(** The predicates of the [check-types] package that tc-binding.ts uses. *)
Module Check.
Definition primitive (v : Value) : bool :=
  match v with
  | VUndefined | VBoolean _ | VNumber _ | VString _ => true
  | _ => false
  end.
Definition instance_BigInt (v : Value) : bool :=
  match v with VBigInt _ => true | _ => false end.
Definition number (v : Value) : bool :=
  match v with VNumber _ => true | _ => false end.
Definition boolean (v : Value) : bool :=
  match v with VBoolean _ => true | _ => false end.
Definition string (v : Value) : bool :=
  match v with VString _ => true | _ => false end.
Definition object (v : Value) : bool :=
  match v with VObject _ => true | _ => false end.
End Check.

(** ** String helpers: [String.prototype.trim] and [toLowerCase] (ASCII) *)

Definition is_space (c : ascii) : bool :=
  let n := nat_of_ascii c in
  ((n =? 32) || (n =? 9) || (n =? 10) || (n =? 11) || (n =? 12) || (n =? 13))%nat.

Fixpoint trimStart (s : string) : string :=
  match s with
  | String c rest => if is_space c then trimStart rest else s
  | EmptyString => EmptyString
  end.

Fixpoint trimEnd (s : string) : string :=
  match s with
  | String c rest =>
      match trimEnd rest with
      | EmptyString => if is_space c then EmptyString else String c EmptyString
      | r => String c r
      end
  | EmptyString => EmptyString
  end.

Definition trim (s : string) : string := trimEnd (trimStart s).

Definition lower_ascii (c : ascii) : ascii :=
  let n := nat_of_ascii c in
  if ((65 <=? n) && (n <=? 90))%nat then ascii_of_nat (n + 32) else c.

Fixpoint toLowerCase (s : string) : string :=
  match s with
  | String c rest => String (lower_ascii c) (toLowerCase rest)
  | EmptyString => EmptyString
  end.

(** [alias || name]: [undefined] and the empty string are falsy. *)
Definition or_name (alias : option string) (name : string) : string :=
  match alias with
  | None | Some EmptyString => name
  | Some s => s
  end.

(** The JavaScript builtins applied to attribute strings and to template
    literals. They are total here: an attribute value that does not denote a
    number is outside the model. *)
Class JsRuntime := {
  parseFloat : string -> Q;
  BigInt : string -> Z;
  Number_toString : Numeric -> string
}.

(** [`${v}`] *)
Fixpoint toString `{JsRuntime} (v : Value) : string :=
  match v with
  | VUndefined => "undefined"
  | VBoolean true => "true"
  | VBoolean false => "false"
  | VNumber q => Number_toString (Num q)
  | VBigInt z => Number_toString (Big z)
  | VString s => s
  | VObject _ => "[object Object]"
  | VArray items =>
      (fix join (l : list Value) : string :=
         match l with
         | [] => ""
         | [x] => toString x
         | x :: rest => toString x +:+ "," +:+ join rest
         end) items
  end.

(** [data.slice(s, e)] for [0 <= s] and [0 <= e]. *)
Definition slice {A} (l : list A) (s e : nat) : list A :=
  firstn (e - s) (skipn s l).

(** ** tc-exception.ts *)

Inductive TcException :=
| TcBindingIsInvalidException
| TcBindingInvalidTypeException
| TcBindingOutOfRangeException
| TcBindingReadOnlyException
| TcComIsInvalidException
| TcComUnsubscribeException
| TcComDisconnectException
| TcComToRawException
| TcComFromRawException
| TcComDataWriteException
| TcComDataReadException
| JsError (message : string)   (* [new Error(message)] *)
| JsTypeError.                 (* [TypeError]: a property of [undefined] was
                                  read, a value that is no function was
                                  called, a property was redefined *)

(** ** tc-com.ts: data interfaces *)

(** Field names carry a short prefix, since [size], [length], [name] and
    [type] are taken by the libraries. *)
Record TcSymbolPointer := {
  ptr_indexGroup : Z;
  ptr_indexOffset : Z;
  ptr_size : Z
}.

Record TcDataPackage := {
  pkg_indexGroup : Z;
  pkg_indexOffset : Z;
  pkg_data : Data
}.

Record TcAttribute := { attr_name : string; attr_value : string }.

Record TcArrayDimension := { dim_startIndex : Z; dim_length : Z }.

Record TcEnumField := { enum_name : string; enum_value : Buffer }.

(** [TcTypeBase]: what a mutator carries. [attributes] and [offset] are
    optional. *)
Record TcTypeBase := {
  tb_attributes : option (list TcAttribute);
  tb_adsDataType : Z;
  tb_offset : option Z;
  tb_name : string;
  tb_type : string;
  tb_size : Z
}.

(** [TcTypeInfo extends TcTypeBase] (the [subItems] are resolved by the type
    registry before a type is created and are passed separately). *)
Record TcTypeInfo := {
  ti_base :> TcTypeBase;
  ti_arrayData : list TcArrayDimension;
  ti_enumInfo : option (list TcEnumField);
  ti_rpcMethods : list string
}.

Module ADST.
Definition VOID := 0.
Definition INT8 := 16.
Definition UINT8 := 17.
Definition INT16 := 2.
Definition UINT16 := 18.
Definition INT32 := 3.
Definition UINT32 := 19.
Definition INT64 := 20.
Definition UINT64 := 21.
Definition REAL32 := 4.
Definition REAL64 := 5.
Definition BIGTYPE := 65.
Definition STRING := 30.
Definition WSTRING := 31.
Definition REAL80 := 32.
Definition BIT := 33.
End ADST.

(** ** The ads-client contract ([interface ADS]) *)

(** [None] is a rejected promise. [P] is the state of the controller as the
    client sees it. *)
Class ADS (P : Type) := {
  convertToRaw : Value -> string -> option Buffer;
  convertFromRaw : Data -> string -> option Value;
  readRawMulti : list TcSymbolPointer -> P -> option (list TcDataPackage);
  writeRawMulti : list TcDataPackage -> P -> option P;
  unsubscribeAll : P -> option P;
  disconnect : bool -> P -> option P
}.

(** Calls made on the ads-client object, in the order they are issued. *)
Inductive AdsCall :=
| CallConvertToRaw (v : Value) (typeName : string)
| CallConvertFromRaw (b : Data) (typeName : string)
| CallReadRawMulti (src : list TcSymbolPointer)
| CallWriteRawMulti (dst : list TcDataPackage)
| CallUnsubscribeAll
| CallDisconnect (force : bool).

(** ** Computations that may throw *)

Inductive Result (A : Type) :=
| Ok (a : A)
| Throw (e : TcException).
Arguments Ok {A} a.
Arguments Throw {A} e.

Definition M (S A : Type) : Type := S -> Result A * S.

Definition ret {S A} (a : A) : M S A := fun s => (Ok a, s).
Definition throw {S A} (e : TcException) : M S A := fun s => (Throw e, s).
Definition bind {S A B} (m : M S A) (k : A -> M S B) : M S B :=
  fun s => match m s with
           | (Ok a, s') => k a s'
           | (Throw e, s') => (Throw e, s')
           end.
(** The settled state of a promise, as a value. *)
Definition settle {S A} (m : M S A) : M S (Result A) :=
  fun s => let '(r, s') := m s in (Ok r, s').

Notation "'let*' x ':=' m 'in' k" := (bind m (fun x => k))
  (at level 10, x name, m at level 100, k at level 200).
Notation "m '>>' k" := (bind m (fun _ => k))
  (at level 100, k at level 200, right associativity).

(** [Promise.all(promises).then(parts => concat parts)] *)
Fixpoint Promise_all {A} (settled : list (Result A)) : Result (list A) :=
  match settled with
  | [] => Ok []
  | Ok a :: rest =>
      match Promise_all rest with
      | Ok l => Ok (a :: l)
      | Throw e => Throw e
      end
  | Throw e :: _ => Throw e
  end.

Definition lift {S A} (r : Result A) : M S A := fun s => (r, s).

(** ** tc-event.ts: the events that the modelled methods emit *)

Inductive TcEvent :=
| TcComDisconnectedEvent
| TcTypeRegistryDestroyedEvent
| TcSymbolRegistryDestroyedEvent
| TcContextKilledEvent.

(** What an observer of the library sees, in chronological order: the calls
    on the ads-client object and the events that reach the [TcContext]
    emitter (every emitter of the library has the context as its root). *)
Inductive Obs :=
| Call (c : AdsCall)
| Emitted (eventName : string) (e : TcEvent).

(** ** tc-com.ts: [class TcCom] *)

Definition inspect {A} (a : A) : {b | a = b} := exist _ a eq_refl.

Module TcCom.

(** The loop of [__splitData], one iteration per call. [nextEnd] is
    [endIndex = endIndex + 500;
     endIndex = (endIndex > data.length) ? data.length : endIndex]. *)
Definition nextEnd (len endIndex : nat) : nat :=
  let endIndex := (endIndex + 500)%nat in
  if (len <? endIndex)%nat then len else endIndex.

Equations? splitData_loop {A} (data : list A) (startIndex endIndex : nat)
  (result : list (list A)) : list (list A)
  by wf (List.length data - endIndex)%nat Nat.lt :=
  splitData_loop data startIndex endIndex result
    with inspect (nextEnd (List.length data) endIndex <? List.length data)%nat := {
    | exist _ true Hlt :=
        splitData_loop data
          (nextEnd (List.length data) endIndex)
          (nextEnd (List.length data) endIndex)
          (result ++ [slice data startIndex (nextEnd (List.length data) endIndex)]);
    | exist _ false _ :=
        result ++ [slice data startIndex (nextEnd (List.length data) endIndex)] }.
Proof.
  apply Nat.ltb_lt in Hlt. unfold nextEnd in *.
  destruct (Nat.ltb_spec (List.length data) (endIndex + 500)); lia.
Qed.

Definition __splitData {A} (data : list A) : list (list A) :=
  splitData_loop data 0 0 [].

Section WithAds.
Context {P : Type} `{ADS P}.

(** The fields of a [TcCom] object that the modelled methods use:
    [connected] is [this.__ads !== undefined]. *)
Record t := {
  connected : bool;
  plc : P;
  trace : list Obs
}.

Definition observe (o : Obs) : M t unit :=
  fun s => (Ok tt, {| connected := connected s; plc := plc s;
                      trace := trace s ++ [o] |}).
Definition emit (eventName : string) (e : TcEvent) : M t unit :=
  observe (Emitted eventName e).
Definition get_plc : M t P := fun s => (Ok (plc s), s).
Definition set_plc (p : P) : M t unit :=
  fun s => (Ok tt, {| connected := connected s; plc := p; trace := trace s |}).
Definition isValid : M t bool := fun s => (Ok (connected s), s).
Definition clear_ads : M t unit :=
  fun s => (Ok tt, {| connected := false; plc := plc s; trace := trace s |}).

Definition fromRaw (type : string) (buffer : Data) : M t Value :=
  let* valid := isValid in
  if valid then
    observe (Call (CallConvertFromRaw buffer type)) >>
    match convertFromRaw buffer type with
    | Some data => ret data
    | None => throw TcComFromRawException
    end
  else throw TcComIsInvalidException.

Definition toRaw (type : string) (value : Value) : M t Buffer :=
  let* valid := isValid in
  if valid then
    observe (Call (CallConvertToRaw value type)) >>
    match convertToRaw value type with
    | Some buffer => ret buffer
    | None => throw TcComToRawException
    end
  else throw TcComIsInvalidException.

(** [for (let i = 0; i < split.length; i++) await writeRawMulti(split[i])] *)
Fixpoint write_groups (split : list (list TcDataPackage)) : M t unit :=
  match split with
  | [] => ret tt
  | g :: rest =>
      observe (Call (CallWriteRawMulti g)) >>
      let* p := get_plc in
      match writeRawMulti g p with
      | Some p' => set_plc p' >> write_groups rest
      | None => throw TcComDataWriteException
      end
  end.

Definition write (dataPackages : list TcDataPackage) : M t unit :=
  let* valid := isValid in
  if valid then write_groups (__splitData dataPackages)
  else throw TcComIsInvalidException.

Fixpoint read_groups (split : list (list TcSymbolPointer))
  (result : list TcDataPackage) : M t (list TcDataPackage) :=
  match split with
  | [] => ret result
  | g :: rest =>
      observe (Call (CallReadRawMulti g)) >>
      let* p := get_plc in
      match readRawMulti g p with
      | Some response => read_groups rest (result ++ response)
      | None => throw TcComDataReadException
      end
  end.

Definition read (pointer : list TcSymbolPointer) : M t (list TcDataPackage) :=
  let* valid := isValid in
  if valid then read_groups (__splitData pointer) []
  else throw TcComIsInvalidException.

(** [unsubscribeAll().catch(..).finally(() => disconnect(true).catch(..)
    .finally(..))]: both calls are made; a failed disconnect replaces a
    failed unsubscribe as the reason of the rejection. *)
Definition disconnect : M t unit :=
  let* valid := isValid in
  if valid then
    observe (Call CallUnsubscribeAll) >>
    let* p := get_plc in
    let unsubscribed := unsubscribeAll p in
    (match unsubscribed with Some p' => set_plc p' | None => ret tt end) >>
    observe (Call (CallDisconnect true)) >>
    let* p := get_plc in
    let disconnected := disconnect true p in
    (match disconnected with Some p' => set_plc p' | None => ret tt end) >>
    clear_ads >>
    emit "disconnected" TcComDisconnectedEvent >>
    match disconnected, unsubscribed with
    | None, _ => throw TcComDisconnectException
    | Some _, None => throw TcComUnsubscribeException
    | Some _, Some _ => ret tt
    end
  else emit "disconnected" TcComDisconnectedEvent.

End WithAds.
Arguments t P : clear implicits.
End TcCom.

(** ** tc-type.ts *)

Module TcType.

(** The ten kinds for which the type registry builds a [TcNumericType]
    ([__adsTypeIsNumber]); they are the keys of [TcNumericType.ranges]. *)
Inductive NumericKind :=
| INT8 | UINT8 | INT16 | UINT16 | INT32 | UINT32 | INT64 | UINT64
| REAL32 | REAL64.

Definition adst_of_kind (k : NumericKind) : Z :=
  match k with
  | INT8 => ADST.INT8 | UINT8 => ADST.UINT8
  | INT16 => ADST.INT16 | UINT16 => ADST.UINT16
  | INT32 => ADST.INT32 | UINT32 => ADST.UINT32
  | INT64 => ADST.INT64 | UINT64 => ADST.UINT64
  | REAL32 => ADST.REAL32 | REAL64 => ADST.REAL64
  end.

Definition kind_of_adst (a : Z) : option NumericKind :=
  if a =? ADST.INT8 then Some INT8 else if a =? ADST.UINT8 then Some UINT8
  else if a =? ADST.INT16 then Some INT16 else if a =? ADST.UINT16 then Some UINT16
  else if a =? ADST.INT32 then Some INT32 else if a =? ADST.UINT32 then Some UINT32
  else if a =? ADST.INT64 then Some INT64 else if a =? ADST.UINT64 then Some UINT64
  else if a =? ADST.REAL32 then Some REAL32 else if a =? ADST.REAL64 then Some REAL64
  else None.

(** [static ranges]: [(min, max)]. The 64-bit bounds are [BigInt] applied to
    a number literal, so the literal is first rounded to a double:
    [BigInt(9223372036854775807)] is [2^63] and
    [BigInt(18446744073709551615)] is [2^64]. *)
Definition ranges (k : NumericKind) : Numeric * Numeric :=
  match k with
  | INT8 => (Num (-128), Num 127)
  | UINT8 => (Num 0, Num 255)
  | UINT16 => (Num 0, Num 65535)
  | INT16 => (Num (-32768), Num 32767)
  | INT32 => (Num (-2147483648), Num 2147483647)
  | UINT32 => (Num 0, Num 4294967295)
  | INT64 => (Big (-9223372036854775808), Big 9223372036854775808)
  | UINT64 => (Big 0, Big 18446744073709551616)
  | REAL32 => (Num (inject_Z (-3402823 * 10 ^ 32)), Num (inject_Z (3402823 * 10 ^ 32)))
  | REAL64 => (Num (inject_Z (-17976931348623158 * 10 ^ 292)),
               Num (inject_Z (17976931348623158 * 10 ^ 292)))
  end.

(** The private fields of [abstract class TcType]. *)
Record Common := {
  c_name : string;
  c_adst : Z;
  c_readOnly : bool;
  c_default : option Value;
  c_offset : Z;
  c_size : Z;
  c_defaultBuffer : option Buffer;
  c_ignored : bool;
  c_onSet : option string;
  c_onGet : option string;
  c_onClear : option string;
  c_onChange : option string
}.

Inductive t :=
| TcBooleanType (c : Common)
| TcNumericType (c : Common) (kind : NumericKind)
    (upperBorder lowerBorder : option Numeric)
| TcStringType (c : Common) (length : Z)
| TcEnumType (c : Common) (enumFields : list string)
    (enumBuffers : gmap string Buffer)
| TcStructType (c : Common) (children : list (string * t))
    (rpcMethods : list string)
| TcArrayType (c : Common) (child : t) (dimensions : list TcArrayDimension).

Definition common (ty : t) : Common :=
  match ty with
  | TcBooleanType c | TcNumericType c _ _ _ | TcStringType c _
  | TcEnumType c _ _ | TcStructType c _ _ | TcArrayType c _ _ => c
  end.

Definition with_common (ty : t) (c : Common) : t :=
  match ty with
  | TcBooleanType _ => TcBooleanType c
  | TcNumericType _ k u l => TcNumericType c k u l
  | TcStringType _ n => TcStringType c n
  | TcEnumType _ f b => TcEnumType c f b
  | TcStructType _ ch r => TcStructType c ch r
  | TcArrayType _ ch d => TcArrayType c ch d
  end.

(** Setters. *)
Definition set_readOnly (c : Common) (v : bool) : Common :=
  {| c_name := c_name c; c_adst := c_adst c; c_readOnly := v;
     c_default := c_default c; c_offset := c_offset c; c_size := c_size c;
     c_defaultBuffer := c_defaultBuffer c; c_ignored := c_ignored c;
     c_onSet := c_onSet c; c_onGet := c_onGet c; c_onClear := c_onClear c;
     c_onChange := c_onChange c |}.
Definition set_ignored (c : Common) (v : bool) : Common :=
  {| c_name := c_name c; c_adst := c_adst c; c_readOnly := c_readOnly c;
     c_default := c_default c; c_offset := c_offset c; c_size := c_size c;
     c_defaultBuffer := c_defaultBuffer c; c_ignored := v;
     c_onSet := c_onSet c; c_onGet := c_onGet c; c_onClear := c_onClear c;
     c_onChange := c_onChange c |}.
Definition set_default (c : Common) (v : option Value) : Common :=
  {| c_name := c_name c; c_adst := c_adst c; c_readOnly := c_readOnly c;
     c_default := v; c_offset := c_offset c; c_size := c_size c;
     c_defaultBuffer := c_defaultBuffer c; c_ignored := c_ignored c;
     c_onSet := c_onSet c; c_onGet := c_onGet c; c_onClear := c_onClear c;
     c_onChange := c_onChange c |}.
Definition set_offset (c : Common) (v : Z) : Common :=
  {| c_name := c_name c; c_adst := c_adst c; c_readOnly := c_readOnly c;
     c_default := c_default c; c_offset := v; c_size := c_size c;
     c_defaultBuffer := c_defaultBuffer c; c_ignored := c_ignored c;
     c_onSet := c_onSet c; c_onGet := c_onGet c; c_onClear := c_onClear c;
     c_onChange := c_onChange c |}.
Definition set_defaultBuffer (c : Common) (v : option Buffer) : Common :=
  {| c_name := c_name c; c_adst := c_adst c; c_readOnly := c_readOnly c;
     c_default := c_default c; c_offset := c_offset c; c_size := c_size c;
     c_defaultBuffer := v; c_ignored := c_ignored c;
     c_onSet := c_onSet c; c_onGet := c_onGet c; c_onClear := c_onClear c;
     c_onChange := c_onChange c |}.
Definition set_aliases (c : Common) (onSet onGet onClear onChange : option string)
  : Common :=
  {| c_name := c_name c; c_adst := c_adst c; c_readOnly := c_readOnly c;
     c_default := c_default c; c_offset := c_offset c; c_size := c_size c;
     c_defaultBuffer := c_defaultBuffer c; c_ignored := c_ignored c;
     c_onSet := onSet; c_onGet := onGet; c_onClear := onClear;
     c_onChange := onChange |}.

(** Getters of the base class. *)
Definition name (ty : t) : string := c_name (common ty).
Definition adst (ty : t) : Z := c_adst (common ty).
Definition readOnly (ty : t) : bool := c_readOnly (common ty).
Definition ignored (ty : t) : bool := c_ignored (common ty).
Definition offset (ty : t) : Z := c_offset (common ty).
Definition size (ty : t) : Z := c_size (common ty).
Definition defaultBuffer (ty : t) : option Buffer := c_defaultBuffer (common ty).
Definition onSet (ty : t) : string := or_name (c_onSet (common ty)) "set".
Definition onGet (ty : t) : string := or_name (c_onGet (common ty)) "get".
Definition onClear (ty : t) : string := or_name (c_onClear (common ty)) "cleared".
Definition onChange (ty : t) : string := or_name (c_onChange (common ty)) "changed".

Definition is64 (a : Z) : bool := (a =? ADST.INT64) || (a =? ADST.UINT64).

(** [get defaultValue()], overridden by the boolean, numeric and string
    types; [None] is [undefined]. *)
Definition defaultValue (ty : t) : option Value :=
  match ty, c_default (common ty) with
  | TcBooleanType _, None => Some (VBoolean false)
  | TcNumericType c _ _ _, None =>
      if is64 (c_adst c) then Some (VBigInt 0) else Some (VNumber 0)
  | TcStringType _ _, None => Some (VString "")
  | _, d => d
  end.

(** [get upperBorder()] and [get lowerBorder()] of [TcNumericType]. *)
Definition upperBorder (kind : NumericKind) (u : option Numeric) : Numeric :=
  match u with None => snd (ranges kind) | Some b => b end.
Definition lowerBorder (kind : NumericKind) (l : option Numeric) : Numeric :=
  match l with None => fst (ranges kind) | Some b => b end.

Section WithRuntime.
Context `{JsRuntime}.

(** [TcType.__getParameter] *)
Definition base__getParameter (c : Common) (name value : string) : Common :=
  let nameFormatted := toLowerCase (trim name) in
  if String.eqb nameFormatted "readonly" then set_readOnly c true
  else if String.eqb nameFormatted "ignored" then set_ignored c true
  else if String.eqb nameFormatted "onset" then
    set_aliases c (Some value) (c_onGet c) (c_onClear c) (c_onChange c)
  else if String.eqb nameFormatted "onget" then
    set_aliases c (c_onSet c) (Some value) (c_onClear c) (c_onChange c)
  else if String.eqb nameFormatted "onclear" then
    set_aliases c (c_onSet c) (c_onGet c) (Some value) (c_onChange c)
  else if String.eqb nameFormatted "onchange" then
    set_aliases c (c_onSet c) (c_onGet c) (c_onClear c) (Some value)
  else c.

(** [__getParameter], as overridden by each class. *)
Definition __getParameter (ty : t) (name value : string) : t :=
  let nameFormatted := toLowerCase (trim name) in
  match ty with
  | TcBooleanType c =>
      let c := base__getParameter c name value in
      if String.eqb nameFormatted "default"
         && String.eqb (toLowerCase (trim value)) "true"
      then TcBooleanType (set_default c (Some (VBoolean true)))
      else TcBooleanType c
  | TcNumericType c kind u l =>
      let c := base__getParameter c name value in
      if String.eqb nameFormatted "lowerborder" then
        let l' := if is64 (c_adst c) then Big (BigInt value)
                  else Num (parseFloat value) in
        let c' := match c_default c with
                  | None => set_default c
                              (Some (Value_of_Numeric (lowerBorder kind (Some l'))))
                  | Some _ => c
                  end in
        TcNumericType c' kind u (Some l')
      else if String.eqb nameFormatted "upperborder" then
        let u' := if is64 (c_adst c) then Big (BigInt value)
                  else Num (parseFloat value) in
        TcNumericType c kind (Some u') l
      else if String.eqb nameFormatted "default" then
        let d := if is64 (c_adst c) then VBigInt (BigInt value)
                 else VNumber (parseFloat value) in
        TcNumericType (set_default c (Some d)) kind u l
      else TcNumericType c kind u l
  | TcStringType c n =>
      let c := base__getParameter c name value in
      if String.eqb nameFormatted "default"
      then TcStringType (set_default c (Some (VBoolean true))) n
      else TcStringType c n
  | TcEnumType c f b =>
      let c := base__getParameter c name value in
      if String.eqb nameFormatted "default"
      then TcEnumType (set_default c (Some (VString value))) f b
      else TcEnumType c f b
  | TcStructType c ch r => TcStructType (base__getParameter c name value) ch r
  | TcArrayType c ch d => TcArrayType (base__getParameter c name value) ch d
  end.

(** [a || b] on an optional offset: [undefined] and [0] are falsy. *)
Definition offset_or (o : option Z) (fallback : Z) : Z :=
  match o with
  | Some z => if z =? 0 then fallback else z
  | None => fallback
  end.

(** [mutate(mutator)] *)
Definition mutate (ty : t) (mutator : TcTypeBase) : t :=
  let ty := match tb_attributes mutator with
            | Some attrs =>
                fold_left (fun ty a => __getParameter ty (attr_name a) (attr_value a))
                  attrs ty
            | None => ty
            end in
  with_common ty (set_offset (common ty) (offset_or (tb_offset mutator) (offset ty))).

(** The base constructor on raw type data: the fields are set, then
    [this.mutate(typeData)] runs with the overrides of the class being
    built. [shape] gives the fields of the derived class. *)
Definition raw_common (typeData : TcTypeBase) : Common :=
  {| c_name := tb_name typeData; c_adst := tb_adsDataType typeData;
     c_readOnly := false; c_default := None;
     c_offset := offset_or (tb_offset typeData) 0;
     c_size := tb_size typeData; c_defaultBuffer := None; c_ignored := false;
     c_onSet := None; c_onGet := None; c_onClear := None; c_onChange := None |}.

(** The base constructor on an existing type: every field is read through
    its getter. *)
Definition copy_common (typeData : t) : Common :=
  {| c_name := name typeData; c_adst := adst typeData;
     c_readOnly := readOnly typeData; c_default := defaultValue typeData;
     c_offset := offset typeData; c_size := size typeData;
     c_defaultBuffer := defaultBuffer typeData; c_ignored := ignored typeData;
     c_onSet := Some (onSet typeData); c_onGet := Some (onGet typeData);
     c_onClear := Some (onClear typeData);
     c_onChange := Some (onChange typeData) |}.

Definition new_TcBooleanType (typeData : TcTypeInfo) : t :=
  mutate (TcBooleanType (raw_common typeData)) typeData.

(** [kind] is the key of [ranges] for [typeData.adsDataType]. *)
Definition new_TcNumericType (kind : NumericKind) (typeData : TcTypeInfo) : t :=
  mutate (TcNumericType (raw_common typeData) kind None None) typeData.

(** The string constructor sets [__length] after [super(..)] returns. *)
Definition new_TcStringType (typeData : TcTypeInfo) : t :=
  match mutate (TcStringType (raw_common typeData) 0) typeData with
  | TcStringType c _ => TcStringType c (tb_size typeData - 1)
  | ty => ty
  end.

(** The enum constructor: after [super(..)], one pass over [enumInfo]. *)
Definition enum_addField (typeName : string) (ty : t) (enumField : TcEnumField) : t :=
  match ty with
  | TcEnumType c f b =>
      let fullName := typeName +:+ "." +:+ enum_name enumField in
      let f := f ++ [fullName] in
      let b := <[fullName := enum_value enumField]> b in
      let unset := match defaultValue (TcEnumType c f b) with
                   | Some d => negb (truthy d)
                   | None => true
                   end in
      if unset then
        TcEnumType (set_defaultBuffer
                      (set_default c (Some (VString (enum_name enumField))))
                      (Some (enum_value enumField))) f b
      else TcEnumType c f b
  | _ => ty
  end.

Definition new_TcEnumType (typeData : TcTypeInfo) : t :=
  let ty := mutate (TcEnumType (raw_common typeData) [] ∅) typeData in
  match ti_enumInfo typeData with
  | Some fields => fold_left (enum_addField (tb_name typeData)) fields ty
  | None => ty
  end.

Definition new_TcStructType (typeData : TcTypeInfo)
  (children : list (string * t)) : t :=
  match mutate (TcStructType (raw_common typeData) [] []) typeData with
  | TcStructType c _ _ => TcStructType c children (ti_rpcMethods typeData)
  | ty => ty
  end.

Definition new_TcArrayType (typeData : TcTypeInfo) (child : t) : t :=
  match mutate (TcArrayType (raw_common typeData) child []) typeData with
  | TcArrayType c _ _ => TcArrayType c child (ti_arrayData typeData)
  | ty => ty
  end.

(** The constructors on an existing type ([typeData instanceof TcType]). *)
Definition copy (this : t) : t :=
  match this with
  | TcBooleanType _ => TcBooleanType (copy_common this)
  | TcNumericType _ kind u l =>
      TcNumericType (copy_common this) kind
        (Some (upperBorder kind u)) (Some (lowerBorder kind l))
  | TcStringType _ n => TcStringType (copy_common this) n
  | TcEnumType _ f b => TcEnumType (copy_common this) f b
  | TcStructType _ ch r => TcStructType (copy_common this) ch r
  | TcArrayType _ ch d => TcArrayType (copy_common this) ch d
  end.

End WithRuntime.

Section WithAds.
Context {P : Type} `{ADS P} `{JsRuntime}.

Definition or_undefined (v : option Value) : Value :=
  match v with Some d => d | None => VUndefined end.

(** [type.defaultBuffer = await context.COM.toRaw(type.name,
    type.defaultValue)] *)
Definition encode_default (ty : t) : M (TcCom.t P) t :=
  let* buffer := TcCom.toRaw (name ty) (or_undefined (defaultValue ty)) in
  ret (with_common ty (set_defaultBuffer (common ty) (Some buffer))).

(** [static async create(context, typeData)]: [None] is [undefined]. *)
Definition create_leaf (ty : t) : M (TcCom.t P) (option t) :=
  if negb (ignored ty) then
    let* ty := encode_default ty in ret (Some ty)
  else ret None.

Definition TcBooleanType_create (typeData : TcTypeInfo) :=
  create_leaf (new_TcBooleanType typeData).
Definition TcNumericType_create (kind : NumericKind) (typeData : TcTypeInfo) :=
  create_leaf (new_TcNumericType kind typeData).
Definition TcStringType_create (typeData : TcTypeInfo) :=
  create_leaf (new_TcStringType typeData).

Definition create_composite (ty : t) : M (TcCom.t P) (option t) :=
  if negb (ignored ty) then ret (Some ty) else ret None.

Definition TcEnumType_create (typeData : TcTypeInfo) :=
  create_composite (new_TcEnumType typeData).
Definition TcStructType_create (typeData : TcTypeInfo)
  (children : list (string * t)) :=
  create_composite (new_TcStructType typeData children).

(** [type.defaultValue !== this.defaultValue] *)
Definition defaults_differ (a b : option Value) : bool :=
  negb (strict_eq (or_undefined a) (or_undefined b)).

(** [__clone(type, mutator?)] *)
Definition __clone (this type : t) (mutator : option TcTypeBase)
  : M (TcCom.t P) (option t) :=
  match mutator with
  | Some mutator =>
      let type := mutate type mutator in
      if negb (ignored type) then
        if defaults_differ (defaultValue type) (defaultValue this) then
          let* type := encode_default type in ret (Some type)
        else ret (Some type)
      else ret None
  | None => ret (Some type)
  end.

(** [clone(mutator?)] *)
Definition clone (this : t) (mutator : option TcTypeBase)
  : M (TcCom.t P) (option t) :=
  __clone this (copy this) mutator.

End WithAds.
End TcType.

(** ** tc-binding.ts and tc-symbol.ts: the symbol tree

    Every [TcSymbol] owns exactly one [TcBinding], and the binding of a
    composite symbol refers to the bindings of the child symbols. A node of
    the tree below is a symbol together with its binding; the children of a
    node are the child symbols in the order in which they were added. *)

(** A property key of [__childrenBindings]: a member name or an array
    index. Member names are controller identifiers: they never spell a
    number, and never begin with two underscores, as the private members of
    the symbol objects do. *)
Inductive Key :=
| KString (s : string)
| KIndex (i : Z).

Definition Key_eqb (a b : Key) : bool :=
  match a, b with
  | KString x, KString y => String.eqb x y
  | KIndex x, KIndex y => Z.eqb x y
  | _, _ => false
  end.

(** What the callback registered with [$onInvalidated] does when it is
    called. *)
Inductive Callback :=
| CallbackReturns
| CallbackThrows (e : TcException).

Module TcBinding.

(** The fields of [abstract class TcBinding], with the [path] and the
    [readOnly] flag of the owning symbol and the symbol's invalidation
    callback. *)
Record Fields := {
  isValid : bool;
  path : string;
  readOnly : bool;
  invalidateCallback : option Callback;
  indexGroup : Z;
  indexOffset : Z;
  size : Z;
  readPackages : list TcSymbolPointer;
  clearPackages : list TcDataPackage;
  onSet : string;
  onGet : string;
  onClear : string;
  onChange : string
}.

(** The fields that the concrete binding classes add. For the simple
    bindings, [type] is [__type] and [defaultValue] is [__defaultValue]. *)
Inductive Class :=
| TcBooleanBinding (type : string) (defaultValue : option Buffer)
| TcNumericBinding (type : string) (defaultValue : option Buffer)
    (adst : Z) (upperBorder lowerBorder : Numeric)
| TcStringBinding (type : string) (defaultValue : option Buffer) (length : Z)
| TcEnumBinding (type : string) (defaultValue : option Buffer)
    (fields : list string) (buffers : gmap string Buffer)
| TcStructureBinding (rpcMethods : list string)
| TcArrayBinding (startIndex length : Z)
| TcNamespaceBinding.

Inductive t :=
| Node (f : Fields) (cls : Class) (children : list (Key * t)).

Definition fields (b : t) : Fields := match b with Node f _ _ => f end.
Definition class (b : t) : Class := match b with Node _ c _ => c end.
Definition children (b : t) : list (Key * t) :=
  match b with Node _ _ ch => ch end.

Definition with_isValid (f : Fields) (v : bool) : Fields :=
  {| isValid := v; path := path f; readOnly := readOnly f;
     invalidateCallback := invalidateCallback f;
     indexGroup := indexGroup f; indexOffset := indexOffset f; size := size f;
     readPackages := readPackages f; clearPackages := clearPackages f;
     onSet := onSet f; onGet := onGet f; onClear := onClear f;
     onChange := onChange f |}.

Definition with_packages (f : Fields) (r : list TcSymbolPointer)
  (c : list TcDataPackage) : Fields :=
  {| isValid := isValid f; path := path f; readOnly := readOnly f;
     invalidateCallback := invalidateCallback f;
     indexGroup := indexGroup f; indexOffset := indexOffset f; size := size f;
     readPackages := r; clearPackages := c;
     onSet := onSet f; onGet := onGet f; onClear := onClear f;
     onChange := onChange f |}.

Definition with_pointer (f : Fields) (g o s : Z) : Fields :=
  {| isValid := isValid f; path := path f; readOnly := readOnly f;
     invalidateCallback := invalidateCallback f;
     indexGroup := g; indexOffset := o; size := s;
     readPackages := readPackages f; clearPackages := clearPackages f;
     onSet := onSet f; onGet := onGet f; onClear := onClear f;
     onChange := onChange f |}.

Definition with_callback (f : Fields) (cb : option Callback) : Fields :=
  {| isValid := isValid f; path := path f; readOnly := readOnly f;
     invalidateCallback := cb;
     indexGroup := indexGroup f; indexOffset := indexOffset f; size := size f;
     readPackages := readPackages f; clearPackages := clearPackages f;
     onSet := onSet f; onGet := onGet f; onClear := onClear f;
     onChange := onChange f |}.

(** [new TcBinding(context, symbol, parent, onSet, onGet, onClear,
    onChange)]: no memory location yet. *)
Definition new_TcBinding (symbolPath : string) (symbolReadOnly : bool)
  (onSet onGet onClear onChange : option string) : Fields :=
  {| isValid := true; path := symbolPath; readOnly := symbolReadOnly;
     invalidateCallback := None;
     indexGroup := 0; indexOffset := 0; size := 0;
     readPackages := []; clearPackages := [];
     onSet := or_name onSet "set"; onGet := or_name onGet "get";
     onClear := or_name onClear "cleared";
     onChange := or_name onChange "changed" |}.

(** [new TcSymbolBinding(symbol, pointer, parameters, parent)]. The call
    of [super] passes [parameters.onGet] in the place of [onSet] and
    [parameters.onSet] in the place of [onGet]. *)
Definition new_TcSymbolBinding (symbolPath : string) (symbolReadOnly : bool)
  (pointer : TcSymbolPointer) (parameters : TcType.t) : Fields :=
  with_pointer
    (new_TcBinding symbolPath symbolReadOnly
       (Some (TcType.onGet parameters)) (Some (TcType.onSet parameters))
       (Some (TcType.onClear parameters)) (Some (TcType.onChange parameters)))
    (ptr_indexGroup pointer) (ptr_indexOffset pointer) (ptr_size pointer).

(** [new TcSimpleBinding(symbol, pointer, parameters, parent)]: one read
    pointer, and one clear package when the type has a default buffer. *)
Definition new_TcSimpleBinding (symbolPath : string) (symbolReadOnly : bool)
  (pointer : TcSymbolPointer) (parameters : TcType.t) : Fields :=
  let f := new_TcSymbolBinding symbolPath symbolReadOnly pointer parameters in
  with_packages f
    (readPackages f ++
       [{| ptr_indexGroup := ptr_indexGroup pointer;
           ptr_indexOffset := ptr_indexOffset pointer;
           ptr_size := ptr_size pointer |}])
    (match TcType.defaultBuffer parameters with
     | Some d =>
         clearPackages f ++
           [{| pkg_indexGroup := indexGroup f; pkg_indexOffset := indexOffset f;
               pkg_data := d |}]
     | None => clearPackages f
     end).

(** [TcComplexBinding.__addChild(child)] *)
Definition addChild (binding : t) (key : Key) (child : t) : t :=
  match binding with
  | Node f cls ch =>
      Node (with_packages f
              (readPackages f ++ readPackages (fields child))
              (clearPackages f ++ clearPackages (fields child)))
           cls (ch ++ [(key, child)])
  end.

(** [TcNamespaceBinding.__addChild(child)]: the child and its packages are
    recorded first; the pointer of the namespace is adjusted afterwards,
    and a child of another index group raises an [Error]. *)
Definition namespace_addChild (key : Key) (child : t) : M t unit :=
  fun binding =>
    match addChild binding key child with
    | Node f cls ch =>
        let cg := indexGroup (fields child) in
        let co := indexOffset (fields child) in
        let cs := size (fields child) in
        let after_group :=
          if indexGroup f =? 0 then Ok cg
          else if negb (indexGroup f =? cg)
               then Throw (JsError "IndexGroup of Namespace is invalid. Unsupported situation")
               else Ok (indexGroup f) in
        match after_group with
        | Throw e => (Throw e, Node f cls ch)
        | Ok g =>
            let '(o, s) :=
              if indexOffset f =? 0 then (co, cs)
              else if indexOffset f + size f <? co
                   then (indexOffset f, co - indexOffset f + cs)
                   else if co <? indexOffset f
                        then (co, indexOffset f - co + size f)
                        else (indexOffset f, size f) in
            (Ok tt, Node (with_pointer f g o s) cls ch)
        end
    end.

(** [this.__childrenBindings[key] = binding]: a repeated key keeps its
    place and takes the new binding. *)
Fixpoint js_set {A} (obj : list (Key * A)) (key : Key) (v : A) : list (Key * A) :=
  match obj with
  | [] => [(key, v)]
  | (k, x) :: rest =>
      if Key_eqb k key then (k, v) :: rest else (k, x) :: js_set rest key v
  end.

Definition childrenBindings {A} (ch : list (Key * A)) : list (Key * A) :=
  fold_left (fun obj kv => js_set obj (fst kv) (snd kv)) ch [].

(** In a namespace a repeated key has not reached [__childrenBindings]:
    [Object.defineProperty] in [TcNamespaceSymbol.__addChild] throws before
    the binding is touched, and the child is in the list of the symbol
    only. The binding keeps the first child under the key. *)
Fixpoint js_keep {A} (obj : list (Key * A)) (key : Key) (v : A) : list (Key * A) :=
  match obj with
  | [] => [(key, v)]
  | (k, x) :: rest =>
      if Key_eqb k key then obj else (k, x) :: js_keep rest key v
  end.

Definition namespaceBindings {A} (ch : list (Key * A)) : list (Key * A) :=
  fold_left (fun obj kv => js_keep obj (fst kv) (snd kv)) ch [].

(** [this.__childrenBindings] of a binding of class [cls] whose node has
    the children [ch]. *)
Definition registered {A} (cls : Class) (ch : list (Key * A)) : list (Key * A) :=
  match cls with
  | TcNamespaceBinding => namespaceBindings ch
  | _ => childrenBindings ch
  end.

(** [this.__childrenBindings[key]] for a key that is an own property or
    that no object inherits; [None] is [undefined]. *)
Definition js_get {A} (obj : list (Key * A)) (key : Key) : option A :=
  match find (fun kv => Key_eqb (fst kv) key) obj with
  | Some kv => Some (snd kv)
  | None => None
  end.

Definition lookup_child (b : t) (key : Key) : option t :=
  js_get (registered (class b) (children b)) key.

(** [Object.entries(obj)]: array-index keys first, in ascending order, then
    the other keys in the order of their creation. *)
Definition is_array_index (k : Key) : bool :=
  match k with
  | KIndex i => (0 <=? i) && (i <? 4294967295)
  | KString _ => false
  end.

Definition key_index (k : Key) : Z :=
  match k with KIndex i => i | KString _ => 0 end.

Fixpoint insert_by_index {A} (kv : Key * A) (sorted : list (Key * A))
  : list (Key * A) :=
  match sorted with
  | [] => [kv]
  | x :: rest =>
      if key_index (fst kv) <? key_index (fst x) then kv :: sorted
      else x :: insert_by_index kv rest
  end.

Definition Object_entries {A} (obj : list (Key * A)) : list (Key * A) :=
  fold_right insert_by_index [] (filter (fun kv => is_array_index (fst kv)) obj)
  ++ filter (fun kv => negb (is_array_index (fst kv))) obj.

(** *** [checkInput] *)

Definition TcBinding_checkInput (f : Fields) (value : Value) : Result unit :=
  if negb (isValid f) then Throw TcBindingIsInvalidException
  else if readOnly f then Throw TcBindingReadOnlyException
  else Ok tt.

Definition TcSimpleBinding_checkInput (f : Fields) (value : Value) : Result unit :=
  match TcBinding_checkInput f value with
  | Throw e => Throw e
  | Ok _ =>
      if negb (Check.primitive value) && negb (Check.instance_BigInt value)
      then Throw TcBindingInvalidTypeException
      else Ok tt
  end.

Definition is64 (adst : Z) : bool := (adst =? ADST.UINT64) || (adst =? ADST.INT64).

(** [checkInput(value)], dispatched on the class of the binding. The enum
    binding inherits the method of [TcSimpleBinding]. *)
Definition checkInput (b : t) (value : Value) : Result unit :=
  let f := fields b in
  match class b with
  | TcBooleanBinding _ _ =>
      match TcSimpleBinding_checkInput f value with
      | Throw e => Throw e
      | Ok _ =>
          if negb (Check.boolean value) then Throw TcBindingInvalidTypeException
          else Ok tt
      end
  | TcNumericBinding _ _ adst upperBorder lowerBorder =>
      match TcSimpleBinding_checkInput f value with
      | Throw e => Throw e
      | Ok _ =>
          if is64 adst && negb (Check.instance_BigInt value)
          then Throw TcBindingInvalidTypeException
          else if negb (adst =? ADST.UINT64) && negb (adst =? ADST.INT64)
                  && negb (Check.number value)
          then Throw TcBindingInvalidTypeException
          else if js_gt value upperBorder || js_lt value lowerBorder
          then Throw TcBindingOutOfRangeException
          else Ok tt
      end
  | TcStringBinding _ _ length =>
      match TcSimpleBinding_checkInput f value with
      | Throw e => Throw e
      | Ok _ =>
          match value with
          | VString s =>
              if length <? Z.of_nat (String.length s)
              then Throw TcBindingOutOfRangeException
              else Ok tt
          | _ => Throw TcBindingInvalidTypeException
          end
      end
  | TcEnumBinding _ _ _ _ => TcSimpleBinding_checkInput f value
  | TcStructureBinding _ | TcNamespaceBinding =>
      match TcBinding_checkInput f value with
      | Throw e => Throw e
      | Ok _ =>
          if negb (Check.object value) then Throw TcBindingInvalidTypeException
          else Ok tt
      end
  | TcArrayBinding _ length =>
      match TcBinding_checkInput f value with
      | Throw e => Throw e
      | Ok _ =>
          match value with
          | VArray items =>
              if length <? Z.of_nat (List.length items)
              then Throw TcBindingOutOfRangeException
              else Ok tt
          | _ => Throw TcBindingInvalidTypeException
          end
      end
  end.

Definition package (f : Fields) (data : Data) : TcDataPackage :=
  {| pkg_indexGroup := indexGroup f; pkg_indexOffset := indexOffset f;
     pkg_data := data |}.

(** [result[i] = v] on an array, filling holes with [undefined]. *)
Fixpoint array_set (l : list Value) (i : nat) (v : Value) : list Value :=
  match i, l with
  | O, [] => [v]
  | O, _ :: rest => v :: rest
  | S i', [] => VUndefined :: array_set [] i' v
  | S i', x :: rest => x :: array_set rest i' v
  end.

Definition Key_toString (k : Key) : string :=
  match k with KString s => s | KIndex i => pretty i end.

Section WithAds.
Context {P : Type} `{ADS P} `{JsRuntime}.

(** *** [toRaw] *)

(** [TcSimpleBinding.toRaw]: [this.checkInput(value)] is the method of
    the concrete class. *)
Definition TcSimpleBinding_toRaw (this : t) (type : string) (value : Value)
  : M (TcCom.t P) (list TcDataPackage) :=
  lift (checkInput this value) >>
  let* buffer := TcCom.toRaw type value in
  ret [package (fields this) buffer].

(** [this.__buffers[value]] on the plain object of the encoding map:
    [None] is [undefined]. *)
Definition buffers_get (buffers : gmap string Buffer) (value : string) : option Data :=
  match buffers !! value with
  | Some buffer => Some (Bytes buffer)
  | None => if inherited value then Some (Member value) else None
  end.

(** [TcEnumBinding.toRaw]: the data comes from [__buffers]; the encoder
    of the transport is not called. *)
Definition TcEnumBinding_toRaw (this : t) (buffers : gmap string Buffer)
  (value : Value) : M (TcCom.t P) (list TcDataPackage) :=
  lift (TcSimpleBinding_checkInput (fields this) value) >>
  match value with
  | VString s =>
      match buffers_get buffers s with
      | Some data => ret [package (fields this) data]
      | None => throw TcBindingOutOfRangeException
      end
  | _ => throw TcBindingInvalidTypeException
  end.

(** [toRaw(value)]. In the composite bindings every child conversion is
    started inside the loop (its outcome is a settled promise), an
    undeclared key or index throws inside the loop, and [Promise.all]
    runs after the loop. The loop over the members of an object reads
    [memberValue.key] for its log line before it looks the key up, which is
    a [TypeError] on [undefined]; and under a name that the object of the
    children inherits, the lookup finds the inherited member, on which
    [child.toRaw] is not a function. *)
Fixpoint toRaw (value : Value) (this : t) {struct value}
  : M (TcCom.t P) (list TcDataPackage) :=
  match class this with
  | TcBooleanBinding type _ | TcNumericBinding type _ _ _ _
  | TcStringBinding type _ _ => TcSimpleBinding_toRaw this type value
  | TcEnumBinding _ _ _ buffers => TcEnumBinding_toRaw this buffers value
  | TcStructureBinding _ | TcNamespaceBinding =>
      lift (checkInput this value) >>
      match value with
      | VObject entries =>
          let* promises :=
            (fix loop (entries : list (string * Value))
               (promises : list (Result (list TcDataPackage)))
               : M (TcCom.t P) (list (Result (list TcDataPackage))) :=
               match entries with
               | [] => ret promises
               | (memberName, memberValue) :: rest =>
                   match memberValue with
                   | VUndefined => throw JsTypeError
                   | _ =>
                       match lookup_child this (KString memberName) with
                       | Some child =>
                           let* p := settle (toRaw memberValue child) in
                           loop rest (promises ++ [p])
                       | None =>
                           if inherited memberName then throw JsTypeError
                           else throw TcBindingOutOfRangeException
                       end
                   end
               end) entries [] in
          let* dataPackages := lift (Promise_all promises) in
          ret (concat dataPackages)
      | _ => throw TcBindingInvalidTypeException
      end
  | TcArrayBinding startIndex _ =>
      lift (checkInput this value) >>
      match value with
      | VArray items =>
          let* promises :=
            (fix loop (items : list Value) (index : Z)
               (promises : list (Result (list TcDataPackage)))
               : M (TcCom.t P) (list (Result (list TcDataPackage))) :=
               match items with
               | [] => ret promises
               | indexedValue :: rest =>
                   match lookup_child this (KIndex (index + startIndex)) with
                   | Some child =>
                       let* p := settle (toRaw indexedValue child) in
                       loop rest (index + 1) (promises ++ [p])
                   | None => throw TcBindingOutOfRangeException
                   end
               end) items 0 [] in
          let* dataPackages := lift (Promise_all promises) in
          ret (concat dataPackages)
      | _ => throw TcBindingInvalidTypeException
      end
  end.

(** *** [fromRaw] *)

Definition TcSimpleBinding_fromRaw (f : Fields) (type : string)
  (dataPackages : list TcDataPackage) : M (TcCom.t P) Value :=
  if negb (isValid f) then throw TcBindingIsInvalidException
  else if (1 <? List.length dataPackages)%nat
  then throw TcBindingOutOfRangeException
  else match dataPackages with
       | p :: _ => TcCom.fromRaw type (pkg_data p)
       | [] => throw JsTypeError
       end.

(** [result.name] *)
Definition get_name (result : Value) : Result Value :=
  match result with
  | VUndefined => Throw JsTypeError
  | VObject fs =>
      match find (fun kv => String.eqb (fst kv) "name") fs with
      | Some kv => Ok (snd kv)
      | None => Ok VUndefined
      end
  | _ => Ok VUndefined
  end.

(** The loop of the composite [fromRaw]: the packages are cut by the
    number of read pointers of each child, in the order of
    [Object.entries(this.__childrenBindings)]. *)
Fixpoint convert_members
  (members : list (Key * (nat * (list TcDataPackage -> M (TcCom.t P) Value))))
  (dataPackages : list TcDataPackage) (start : nat)
  : M (TcCom.t P) (list (Result Value)) :=
  match members with
  | [] => ret []
  | (_, (length, child_fromRaw)) :: rest =>
      let* p := settle (child_fromRaw (slice dataPackages start (start + length))) in
      let* ps := convert_members rest dataPackages (start + length)%nat in
      ret (p :: ps)
  end.

Fixpoint fromRaw (this : t) (dataPackages : list TcDataPackage) {struct this}
  : M (TcCom.t P) Value :=
  match this with
  | Node f cls ch =>
      let members :=
        Object_entries (registered cls
          ((fix each (ch : list (Key * t)) :=
              match ch with
              | [] => []
              | (key, child) :: rest =>
                  (key, (List.length (readPackages (fields child)), fromRaw child))
                    :: each rest
              end) ch)) in
      match cls with
      | TcBooleanBinding type _ | TcStringBinding type _ _ =>
          TcSimpleBinding_fromRaw f type dataPackages
      | TcNumericBinding type _ adst _ _ =>
          let* result := TcSimpleBinding_fromRaw f type dataPackages in
          if negb (adst =? ADST.UINT64) then ret result
          else match result with
               | VBigInt z => ret (VBigInt (z mod 2 ^ 64))
               | _ => throw JsTypeError
               end
      | TcEnumBinding type _ _ _ =>
          let* result := TcSimpleBinding_fromRaw f type dataPackages in
          let* name := lift (get_name result) in
          ret (VString (type +:+ "." +:+ toString name))
      | TcStructureBinding _ | TcNamespaceBinding =>
          if negb (isValid f) then throw TcBindingIsInvalidException
          else
            let* promises := convert_members members dataPackages 0 in
            let* values := lift (Promise_all promises) in
            ret (VObject (combine (map (fun m => Key_toString (fst m)) members) values))
      | TcArrayBinding startIndex _ =>
          if negb (isValid f) then throw TcBindingIsInvalidException
          else
            let* promises := convert_members members dataPackages 0 in
            let* values := lift (Promise_all promises) in
            ret (VArray
                   (fold_left
                      (fun result kv =>
                         match fst kv with
                         | KIndex i =>
                             if 0 <=? i - startIndex
                             then array_set result (Z.to_nat (i - startIndex)) (snd kv)
                             else result
                         | KString _ => result
                         end)
                      (combine (map fst members) values) []))
      end
  end.

(** *** [read], [write], [clear] *)

Definition read (this : t) : M (TcCom.t P) Value :=
  if negb (isValid (fields this)) then throw TcBindingIsInvalidException
  else
    let* dataPackages := TcCom.read (readPackages (fields this)) in
    fromRaw this dataPackages.

Definition write (this : t) (value : Value) : M (TcCom.t P) Value :=
  if negb (isValid (fields this)) then throw TcBindingIsInvalidException
  else
    let* dataPackages := toRaw value this in
    TcCom.write dataPackages >>
    ret value.

Definition clear (this : t) : M (TcCom.t P) unit :=
  if negb (isValid (fields this)) then throw TcBindingIsInvalidException
  else if readOnly (fields this) then throw TcBindingReadOnlyException
  else TcCom.write (clearPackages (fields this)).

(** [static invalidate(binding)] *)
Definition invalidate (binding : t) : t :=
  match binding with
  | Node f cls ch => Node (with_isValid f false) cls ch
  end.

End WithAds.
End TcBinding.

(** ** tc-symbol.ts *)

Module TcSymbol.

Import TcBinding.

Definition t := TcBinding.t.

(** [get $readOnly()] and [get $path()] *)
Definition readOnly (symbol : t) : bool := TcBinding.readOnly (fields symbol).
Definition path (symbol : t) : string := TcBinding.path (fields symbol).

(** [$onInvalidated(callback)] *)
Definition onInvalidated (symbol : t) (callback : Callback) : t :=
  match symbol with
  | Node f cls ch => Node (with_callback f (Some callback)) cls ch
  end.

(** [for (index = first; index < first + count; ++index)] *)
Definition indices (first count : Z) : list Z :=
  map (fun i => first + Z.of_nat i) (seq 0 (Z.to_nat count)).

(** [path.substr(0, path.length - 1)] *)
Definition drop_last (path : string) : string :=
  String.substring 0 (String.length path - 1) path.

(** [type.instance(path, parent, pointer)]: the symbol with its binding
    and, for a structure or an array, all the child symbols. Of the
    parent only [$readOnly] is used. The read-only flag of a symbol is
    [parent?.$readOnly || params.readOnly]. An array type has at least one
    dimension. Offsets are integers ([size / segments] is exact for the
    arrays of a controller). *)
Fixpoint instance (params : TcType.t) (path : string) (parentReadOnly : bool)
  (pointer : TcSymbolPointer) {struct params} : t :=
  let readOnly := parentReadOnly || TcType.readOnly params in
  match params with
  | TcType.TcBooleanType _ =>
      Node (new_TcSimpleBinding path readOnly pointer params)
        (TcBooleanBinding (TcType.name params) (TcType.defaultBuffer params)) []
  | TcType.TcNumericType _ kind u l =>
      Node (new_TcSimpleBinding path readOnly pointer params)
        (TcNumericBinding (TcType.name params) (TcType.defaultBuffer params)
           (TcType.adst params) (TcType.upperBorder kind u)
           (TcType.lowerBorder kind l)) []
  | TcType.TcStringType _ length =>
      Node (new_TcSimpleBinding path readOnly pointer params)
        (TcStringBinding (TcType.name params) (TcType.defaultBuffer params) length) []
  | TcType.TcEnumType _ enumFields enumBuffers =>
      Node (new_TcSimpleBinding path readOnly pointer params)
        (TcEnumBinding (TcType.name params) (TcType.defaultBuffer params)
           enumFields enumBuffers) []
  | TcType.TcStructType _ children rpcMethods =>
      (fix forEach (children : list (string * TcType.t)) (this : t) : t :=
         match children with
         | [] => this
         | (key, type) :: rest =>
             let childInfo :=
               {| ptr_indexGroup := ptr_indexGroup pointer;
                  ptr_indexOffset := ptr_indexOffset pointer + TcType.offset type;
                  ptr_size := TcType.size type |} in
             let childSymbol :=
               instance type (path +:+ "." +:+ key) readOnly childInfo in
             forEach rest (addChild this (KString key) childSymbol)
         end)
        children
        (Node (new_TcSymbolBinding path readOnly pointer params)
           (TcStructureBinding rpcMethods) [])
  | TcType.TcArrayType _ child dimensions =>
      (fix TcArraySymbol (remaining : list TcArrayDimension) (top : bool)
         (path : string) (parentReadOnly : bool) (pointer : TcSymbolPointer) : t :=
         let readOnly := parentReadOnly || TcType.readOnly params in
         match remaining with
         | [] =>
             Node (new_TcSymbolBinding path readOnly pointer params)
               (TcArrayBinding 0 0) []
         | dimension :: deeper =>
             let this :=
               Node (new_TcSymbolBinding path readOnly pointer params)
                 (TcArrayBinding (dim_startIndex dimension) (dim_length dimension)) [] in
             let path := if top then path +:+ "[" else drop_last path +:+ "," in
             match deeper with
             | [] =>
                 fold_left
                   (fun this index =>
                      let childPointer :=
                        {| ptr_indexGroup := ptr_indexGroup pointer;
                           ptr_indexOffset :=
                             ptr_indexOffset pointer + TcType.size child * index;
                           ptr_size := TcType.size child |} in
                      let childSymbol :=
                        instance child (path +:+ pretty index +:+ "]") readOnly
                          childPointer in
                      addChild this (KIndex index) childSymbol)
                   (indices (dim_startIndex dimension) (dim_length dimension)) this
             | _ :: _ =>
                 let segments := dim_length dimension in
                 let offset := ptr_size pointer / segments in
                 (fix proxies (todo : list Z) (this : t) : t :=
                    match todo with
                    | [] => this
                    | index :: todo =>
                        let pointer' :=
                          {| ptr_indexGroup := ptr_indexGroup pointer;
                             ptr_indexOffset := ptr_indexOffset pointer + offset * index;
                             ptr_size := offset |} in
                        let childSymbol :=
                          TcArraySymbol deeper false
                            (path +:+ pretty (dim_startIndex dimension + index) +:+ "]")
                            readOnly pointer' in
                        proxies todo
                          (addChild this (KIndex (dim_startIndex dimension + index))
                             childSymbol)
                    end) (indices 0 segments) this
             end
         end) dimensions true path parentReadOnly pointer
  end.

(** [new TcNamespaceSymbol(path, context, parent)]: no parent symbol, not
    read-only, and a binding without a memory location. *)
Definition new_TcNamespaceSymbol (path : string) : t :=
  Node (new_TcBinding path false None None None None) TcNamespaceBinding [].

(** [TcNamespaceSymbol.addChild(namespace, { key, symbol })]: the child is
    pushed to the list of the symbol, then
    [Object.defineProperty(this, key, { get })] defines its getter, then
    the binding of the child is added to the binding of the namespace. The
    getter of a key cannot be defined twice: for a repeated key
    [defineProperty] throws a [TypeError], and the child stays in the list
    of the symbol without reaching the binding. *)
Definition TcNamespaceSymbol_addChild (key : string) (symbol : t) : M t unit :=
  fun namespace =>
    if existsb (fun kc => Key_eqb (fst kc) (KString key)) (children namespace)
    then (Throw JsTypeError,
          Node (fields namespace) (class namespace)
            (children namespace ++ [(KString key, symbol)]))
    else namespace_addChild (KString key) symbol namespace.

(** [TcSymbol.invalidate(symbol)]. The composite symbols invalidate their
    children first ([$each]), then their own binding, then call the
    callback of [$onInvalidated]; a leaf has no children. A callback that
    throws ends the walk at that point. *)
Fixpoint invalidate (symbol : t) : Result unit * t :=
  match symbol with
  | Node f cls ch =>
      let '(each, ch') :=
        (fix forEach (ch : list (Key * t)) : Result unit * list (Key * t) :=
           match ch with
           | [] => (Ok tt, [])
           | (key, child) :: rest =>
               match invalidate child with
               | (Ok _, child') =>
                   let '(r, rest') := forEach rest in (r, (key, child') :: rest')
               | (Throw e, child') => (Throw e, (key, child') :: rest)
               end
           end) ch in
      match each with
      | Throw e => (Throw e, Node f cls ch')
      | Ok _ =>
          let this := TcBinding.invalidate (Node f cls ch') in
          match invalidateCallback f with
          | Some (CallbackThrows e) => (Throw e, this)
          | Some CallbackReturns | None => (Ok tt, this)
          end
      end
  end.

(** The symbol itself and every symbol below it. *)
Fixpoint descendants (symbol : t) : list t :=
  match symbol with
  | Node f cls ch =>
      symbol :: (fix each (ch : list (Key * t)) : list t :=
                   match ch with
                   | [] => []
                   | (_, child) :: rest => descendants child ++ each rest
                   end) ch
  end.

End TcSymbol.

(** ** tc-type-registry.ts, tc-symbol-registry.ts and tc-context.ts *)

Module TcContext.
Section WithAds.
Context {P : Type} `{ADS P}.

(** A [TcContext] with its three components. [namespaces] is the map of
    the symbol registry in the order of creation of its entries.
    [released] holds the namespaces that the registry has dropped from its
    map: the objects live on in the handles given out earlier. *)
Record t := {
  COM : TcCom.t P;
  types : gmap string TcType.t;
  namespaces : list (string * TcSymbol.t);
  released : list (string * TcSymbol.t)
}.

Definition onCOM {A} (m : M (TcCom.t P) A) : M t A :=
  fun ctx =>
    let '(r, com) := m (COM ctx) in
    (r, {| COM := com; types := types ctx; namespaces := namespaces ctx;
           released := released ctx |}).

Definition set_types (m : gmap string TcType.t) : M t unit :=
  fun ctx => (Ok tt, {| COM := COM ctx; types := m; namespaces := namespaces ctx;
                        released := released ctx |}).

Definition set_namespaces (m released' : list (string * TcSymbol.t)) : M t unit :=
  fun ctx => (Ok tt, {| COM := COM ctx; types := types ctx; namespaces := m;
                        released := released' |}).

(** [TcTypeRegistry.destroy()] *)
Definition TcTypeRegistry_destroy : M t unit :=
  set_types ∅ >>
  onCOM (TcCom.emit "destroyed" TcTypeRegistryDestroyedEvent).

(** [for (let [, namespace] of Object.entries(this.__map))
      TcSymbol.invalidate(namespace)] *)
Fixpoint invalidate_all (map : list (string * TcSymbol.t))
  : Result unit * list (string * TcSymbol.t) :=
  match map with
  | [] => (Ok tt, [])
  | (key, namespace) :: rest =>
      match TcSymbol.invalidate namespace with
      | (Ok _, namespace') =>
          let '(r, rest') := invalidate_all rest in (r, (key, namespace') :: rest')
      | (Throw e, namespace') => (Throw e, (key, namespace') :: rest)
      end
  end.

(** [TcSymbolRegistry.destroy()] *)
Definition TcSymbolRegistry_destroy : M t unit :=
  fun ctx =>
    match invalidate_all (namespaces ctx) with
    | (Throw e, map') => (set_namespaces map' (released ctx) >> throw e) ctx
    | (Ok _, map') =>
        (set_namespaces [] (released ctx ++ map') >>
         onCOM (TcCom.emit "destroyed" TcSymbolRegistryDestroyedEvent)) ctx
    end.

(** [async kill()] *)
Definition kill : M t unit :=
  TcTypeRegistry_destroy >>
  TcSymbolRegistry_destroy >>
  onCOM TcCom.disconnect >>
  onCOM (TcCom.emit "killed" TcContextKilledEvent).

End WithAds.
Arguments t P : clear implicits.
End TcContext.

(** ** A concrete runtime and a concrete controller, for the examples *)

Module Sample.

(** Decimal literals: an optional sign, digits, an optional fraction. *)
Definition digit (c : ascii) : option Z :=
  let n := nat_of_ascii c in
  if ((48 <=? n) && (n <=? 57))%nat then Some (Z.of_nat (n - 48)) else None.

Fixpoint digits (s : string) (acc : Z) (count : nat) : Z * nat * string :=
  match s with
  | String c rest =>
      match digit c with
      | Some d => digits rest (acc * 10 + d) (S count)
      | None => (acc, count, s)
      end
  | EmptyString => (acc, count, s)
  end.

Definition signed (s : string) : bool * string :=
  match s with
  | String "-" rest => (true, rest)
  | String "+" rest => (false, rest)
  | _ => (false, s)
  end.

Definition decimal (s : string) : Q :=
  let '(negative, s) := signed (trimStart s) in
  let '(whole, _, rest) := digits s 0 0 in
  let '(fraction, places, _) :=
    match rest with
    | String "." rest => digits rest 0 0
    | _ => (0, 0%nat, rest)
    end in
  let scale := 10 ^ Z.of_nat places in
  let numerator := whole * scale + fraction in
  Qmake (if negative then - numerator else numerator) (Z.to_pos scale).

Definition integer (s : string) : Z :=
  let '(negative, s) := signed (trim s) in
  let '(whole, _, _) := digits s 0 0 in
  if negative then - whole else whole.

#[global] Instance runtime : JsRuntime := {|
  parseFloat := decimal;
  BigInt := integer;
  Number_toString := fun n =>
    match n with
    | Num q => pretty (Qnum q / Z.pos (Qden q))
    | Big z => pretty z
    end
|}.

(** The controller: bytes addressed by [(indexGroup, indexOffset)]. *)
Definition Memory := gmap (Z * Z) byte.

Fixpoint store (m : Memory) (group offset : Z) (bytes : Buffer) : Memory :=
  match bytes with
  | [] => m
  | b :: rest => store (<[(group, offset) := b]> m) group (offset + 1) rest
  end.

Definition load (m : Memory) (group offset : Z) (count : Z) : Buffer :=
  map (fun i => default x00 (m !! (group, offset + Z.of_nat i)))
    (seq 0 (Z.to_nat count)).

Definition bytes_of_string (s : string) : Buffer :=
  map byte_of_ascii (list_ascii_of_string s) ++ [x00].

Fixpoint string_of_bytes (b : Buffer) : string :=
  match b with
  | [] => EmptyString
  | x :: rest =>
      if Byte.eqb x x00 then EmptyString
      else String (ascii_of_byte x) (string_of_bytes rest)
  end.

Definition byte_of_Z (z : Z) : byte :=
  default x00 (Byte.of_nat (Z.to_nat (z mod 256))).

(** The encoder takes the value as it comes: a boolean is one byte, a
    number is its integer part in one byte for [BYTE] and in two bytes
    otherwise, a string is its characters and a terminator. *)
Definition encode (v : Value) (typeName : string) : option Buffer :=
  match v with
  | VBoolean b => Some [if b then x01 else x00]
  | VNumber q =>
      let z := Qnum q / Z.pos (Qden q) in
      if String.eqb typeName "BYTE" then Some [byte_of_Z z]
      else Some [byte_of_Z z; byte_of_Z (z / 256)]
  | VBigInt z => Some (map (fun i => byte_of_Z (z / 256 ^ Z.of_nat i)) (seq 0 8))
  | VString s => Some (bytes_of_string s)
  | _ => None
  end.

Definition decode (b : Buffer) (typeName : string) : option Value :=
  if String.eqb typeName "BOOL" then
    Some (VBoolean (negb (forallb (Byte.eqb x00) b)))
  else if String.eqb typeName "MyEnum" then
    match b with
    | x00 :: _ => Some (VObject [("name", VString "member1")])
    | x01 :: _ => Some (VObject [("name", VString "member2")])
    | x02 :: _ => Some (VObject [("name", VString "member3")])
    | _ => None
    end
  else if String.prefix "STRING" typeName then Some (VString (string_of_bytes b))
  else
    match b with
    | [lo] => Some (VNumber (inject_Z (Z.of_nat (Byte.to_nat lo))))
    | [lo; hi] =>
        Some (VNumber (inject_Z (Z.of_nat (Byte.to_nat lo)
                                 + 256 * Z.of_nat (Byte.to_nat hi))))
    | _ => None
    end.

(** The sample client rejects data that is not a [Buffer]. *)
Definition bytes (data : Data) : option Buffer :=
  match data with Bytes buffer => Some buffer | Member _ => None end.

Definition store_package (m : option Memory) (p : TcDataPackage) : option Memory :=
  match m, bytes (pkg_data p) with
  | Some m, Some buffer => Some (store m (pkg_indexGroup p) (pkg_indexOffset p) buffer)
  | _, _ => None
  end.

#[global] Instance ads : ADS Memory := {|
  convertToRaw := encode;
  convertFromRaw := fun data typeName =>
    match bytes data with Some b => decode b typeName | None => None end;
  readRawMulti := fun src m =>
    Some (map (fun p =>
                 {| pkg_indexGroup := ptr_indexGroup p;
                    pkg_indexOffset := ptr_indexOffset p;
                    pkg_data := load m (ptr_indexGroup p) (ptr_indexOffset p)
                                  (ptr_size p) |}) src);
  writeRawMulti := fun dst m => fold_left store_package dst (Some m);
  unsubscribeAll := fun m => Some m;
  disconnect := fun _ m => Some m
|}.

(** A connected [TcCom] over a controller whose memory is [m]. *)
Definition com (m : Memory) : TcCom.t Memory :=
  {| TcCom.connected := true; TcCom.plc := m; TcCom.trace := [] |}.

Definition raw (name : string) (adsDataType size : Z) (offset : option Z)
  (attributes : list (string * string)) : TcTypeInfo :=
  {| ti_base :=
       {| tb_attributes :=
            Some (map (fun a => {| attr_name := fst a; attr_value := snd a |})
                    attributes);
          tb_adsDataType := adsDataType; tb_offset := offset; tb_name := name;
          tb_type := ""; tb_size := size |};
     ti_arrayData := []; ti_enumInfo := None; ti_rpcMethods := [] |}.

(** The result of a [create] on the sample controller. *)
Definition created (m : M (TcCom.t Memory) (option TcType.t)) (fallback : TcType.t)
  : TcType.t :=
  match fst (m (com ∅)) with
  | Ok (Some ty) => ty
  | _ => fallback
  end.

Definition BOOL : TcType.t :=
  let td := raw "BOOL" ADST.BIT 1 None [] in
  created (TcType.TcBooleanType_create td) (TcType.new_TcBooleanType td).

Definition INT : TcType.t :=
  let td := raw "INT" ADST.INT16 2 None [] in
  created (TcType.TcNumericType_create TcType.INT16 td)
    (TcType.new_TcNumericType TcType.INT16 td).

Definition BYTE : TcType.t :=
  let td := raw "BYTE" ADST.UINT8 1 None [] in
  created (TcType.TcNumericType_create TcType.UINT8 td)
    (TcType.new_TcNumericType TcType.UINT8 td).

Definition STRING80 : TcType.t :=
  let td := raw "STRING(80)" ADST.STRING 81 None [] in
  created (TcType.TcStringType_create td) (TcType.new_TcStringType td).

Definition MyEnum_raw : TcTypeInfo :=
  {| ti_base := ti_base (raw "MyEnum" ADST.INT16 2 None []);
     ti_arrayData := [];
     ti_enumInfo :=
       Some [ {| enum_name := "member1"; enum_value := [x00; x00] |};
              {| enum_name := "member2"; enum_value := [x01; x00] |};
              {| enum_name := "member3"; enum_value := [x02; x00] |} ];
     ti_rpcMethods := [] |}.

Definition MyEnum : TcType.t :=
  created (TcType.TcEnumType_create MyEnum_raw) (TcType.new_TcEnumType MyEnum_raw).

(** A member of a structure: the registered type, cloned with the
    attributes and the offset of the member. *)
Definition member (type : TcType.t) (offset : Z) (attributes : list (string * string))
  : TcType.t :=
  let mutator := ti_base (raw (TcType.name type) (TcType.adst type)
                            (TcType.size type) (Some offset) attributes) in
  created (TcType.clone type (Some mutator)) type.

(** [FUNCTION_BLOCK Foo] of the documentation: a read-only string and a
    byte. *)
Definition Foo : TcType.t :=
  let td := raw "Foo" ADST.BIGTYPE 82 None [] in
  created
    (TcType.TcStructType_create td
       [("stringValue", member STRING80 0 [("ReadOnly", "")]);
        ("numericValue", member BYTE 81 [])])
    (TcType.new_TcStructType td []).

Definition pointer (group offset size : Z) : TcSymbolPointer :=
  {| ptr_indexGroup := group; ptr_indexOffset := offset; ptr_size := size |}.

(** [MAIN.normalFoo : Foo] at offset 200 of index group 16448. *)
Definition normalFoo : TcSymbol.t :=
  TcSymbol.instance Foo "MAIN.normalFoo" false (pointer 16448 200 82).

(** [MAIN.counter : INT] at offset 100. *)
Definition counter : TcSymbol.t :=
  TcSymbol.instance INT "MAIN.counter" false (pointer 16448 100 2).

(** The namespace [MAIN] with both symbols. *)
Definition MAIN : TcSymbol.t :=
  snd ((TcSymbol.TcNamespaceSymbol_addChild "normalFoo" normalFoo >>
        TcSymbol.TcNamespaceSymbol_addChild "counter" counter)
         (TcSymbol.new_TcNamespaceSymbol "MAIN")).

(** [GVL.a : INT] and [GVL.b : INT], one after the other in memory. *)
Definition a : TcSymbol.t :=
  TcSymbol.instance INT "GVL.a" false (pointer 16448 100 2).
Definition b : TcSymbol.t :=
  TcSymbol.instance INT "GVL.b" false (pointer 16448 102 2).
Definition GVL : TcSymbol.t :=
  snd ((TcSymbol.TcNamespaceSymbol_addChild "a" a >>
        TcSymbol.TcNamespaceSymbol_addChild "b" b)
         (TcSymbol.new_TcNamespaceSymbol "GVL")).

(** [{attribute 'Default' := 'hello world'} stringValue : STRING(50)]: the
    registered type [STRING(50)], cloned with the attributes of the symbol. *)
Definition STRING50 : TcType.t :=
  let td := raw "STRING(50)" ADST.STRING 51 None [] in
  created (TcType.TcStringType_create td) (TcType.new_TcStringType td).

Definition stringValue_type : TcType.t :=
  member STRING50 0 [("Default", "hello world")].

Definition stringValue : TcSymbol.t :=
  TcSymbol.instance stringValue_type "MAIN.stringValue" false (pointer 16448 300 51).


Definition readOnlyMode : TcSymbol.t :=
  TcSymbol.instance (member MyEnum 0 [("ReadOnly", "")]) "MAIN.readOnlyMode" false
  (pointer 16448 500 2).

Definition mode : TcSymbol.t :=
  TcSymbol.instance MyEnum "MAIN.mode" false (pointer 16448 502 2).

(** [{attribute 'Default' := '300'}] on a [BYTE], and a lower border above
    the upper border on an [INT]. *)
Definition BYTE300 : TcType.t :=
  TcType.new_TcNumericType TcType.UINT8
  (raw "BYTE" ADST.UINT8 1 None [("Default", "300")]).

Definition INT_10_5 : TcType.t :=
  TcType.new_TcNumericType TcType.INT16
  (raw "INT" ADST.INT16 2 None [("LowerBorder", "10"); ("UpperBorder", "5")]).

End Sample.

(** ** tc-symbol.ts: [$get], [$set] and [$clear] *)

Module TcSymbolMethods.

(** [TcSymbolGetEvent], [TcSymbolSetEvent] and [TcSymbolClearedEvent]; the
    symbol of the event is given by its path. *)
Inductive TcSymbolEvent :=
| TcSymbolGetEvent (symbol : string) (data : Value)
| TcSymbolSetEvent (symbol : string) (data : Value)
| TcSymbolClearedEvent (symbol : string).

Section WithAds.
Context {P : Type} `{ADS P} `{JsRuntime}.

(** The [TcCom] of the context, and the events that the bindings have
    emitted, each with the name under which it was emitted
    ([TcEmitter.emit] hands the event on, under the same name, to the
    emitters above the binding). *)
Record t := {
  COM : TcCom.t P;
  emitted : list (string * TcSymbolEvent)
}.

Definition onCOM {A} (m : M (TcCom.t P) A) : M t A :=
  fun s =>
    let '(r, com) := m (COM s) in
    (r, {| COM := com; emitted := emitted s |}).

(** [TcEmitter.emit(eventName, e)] starts with [EventEmitter.emit], which
    throws when the event name is ['error'] and no listener is registered
    for it, as is the case in the modelled state: the library registers no
    listener. *)
Definition emit (eventName : string) (e : TcSymbolEvent) : M t unit :=
  if String.eqb eventName "error" then throw (JsError "Unhandled error.")
  else fun s => (Ok tt, {| COM := COM s; emitted := emitted s ++ [(eventName, e)] |}).

(** [emitSet(data)], [emitGet(data)] and [emitCleared(data)] of
    [TcBinding] *)
Definition emitSet (binding : TcBinding.t) (data : TcSymbolEvent) : M t unit :=
  emit (TcBinding.onSet (TcBinding.fields binding)) data.
Definition emitGet (binding : TcBinding.t) (data : TcSymbolEvent) : M t unit :=
  emit (TcBinding.onGet (TcBinding.fields binding)) data.
Definition emitCleared (binding : TcBinding.t) (data : TcSymbolEvent) : M t unit :=
  emit (TcBinding.onClear (TcBinding.fields binding)) data.

(** [get $get()] *)
Definition get (symbol : TcSymbol.t) : M t Value :=
  let* result := onCOM (TcBinding.read symbol) in
  emitGet symbol (TcSymbolGetEvent (TcSymbol.path symbol) result) >>
  ret result.

(** [async $set(value)] *)
Definition set (symbol : TcSymbol.t) (value : Value) : M t Value :=
  onCOM (TcBinding.write symbol value) >>
  emitSet symbol (TcSymbolSetEvent (TcSymbol.path symbol) value) >>
  ret value.

(** [async $clear()] *)
Definition clear (symbol : TcSymbol.t) : M t unit :=
  onCOM (TcBinding.clear symbol) >>
  emitCleared symbol (TcSymbolClearedEvent (TcSymbol.path symbol)).

End WithAds.
Arguments t P : clear implicits.
End TcSymbolMethods.

(** ** tc-type-registry.ts: the loop of [__adsTypeProcessChildren] *)

Module TcTypeRegistry.
Section ProcessChildren.

(** The state [St] stands for everything that the registration of a type
    can change: the type map, the map of ADS type data and the [TcCom].
    [resolve child] stands for the two steps of the loop on a sub item: the
    registration of the type of [child], when the map of ADS type data has
    it, and then [clone(child)] on the registered type; [None] is
    [undefined]. The loop is modelled for the descriptors whose
    registration does not come back to themselves (no structure contains
    itself by value, through any number of members): for these, [resolve]
    does not touch the sub items of the descriptor at hand, and only the
    loop itself removes one. [name child] is [child.name]. *)
Context {St A T : Type}.
Variable resolve : A -> M St (option T).
Variable name : A -> string.

(** [subItems.splice(index, 1)] *)
Definition splice (index : nat) (subItems : list A) : list A :=
  firstn index subItems ++ skipn (S index) subItems.

(** [for (let i = 0; i < adsTypeData.subItems?.length; i++)]: one
    iteration per call; the result is the array [subItems] as the loop
    leaves it, and [result]. *)
Equations? processChildren_loop (i : nat) (subItems : list A)
  (result : list (string * T)) (s : St) : Result (list A * list (string * T)) * St
  by wf (List.length subItems - i)%nat Nat.lt :=
  processChildren_loop i subItems result s with inspect (nth_error subItems i) := {
    | exist _ None _ := (Ok (subItems, result), s);
    | exist _ (Some child) Hchild with inspect (resolve child s) := {
        | exist _ (Ok (Some extended), s') _ :=
            processChildren_loop (S i) subItems (result ++ [(name child, extended)]) s';
        | exist _ (Ok None, s') _ :=
            processChildren_loop (S i) (splice i subItems) result s';
        | exist _ (Throw e, s') _ := (Throw e, s') } }.
Proof.
  - assert (Hlt : (i < List.length subItems)%nat).
    { apply nth_error_Some. rewrite Hchild. discriminate. }
    lia.
  - assert (Hlt : (i < List.length subItems)%nat).
    { apply nth_error_Some. rewrite Hchild. discriminate. }
    unfold splice. rewrite length_app, length_firstn, length_skipn. lia.
Qed.

(** [__adsTypeProcessChildren(adsTypeData, adsTypeDataMap)] *)
Definition __adsTypeProcessChildren (subItems : list A)
  : M St (list A * list (string * T)) :=
  processChildren_loop 0 subItems [].

End ProcessChildren.
End TcTypeRegistry.

(** * Vocabulary of the properties *)

(** The number of groups for [m] remaining items: one group of up to 500
    items, and one more for every further 500. *)
Definition groups_for (m : nat) : nat := S ((m - 1) / 500).

Definition write_calls (groups : list (list TcDataPackage)) : list Obs :=
  map (fun g => Call (CallWriteRawMulti g)) groups.

Definition read_calls (groups : list (list TcSymbolPointer)) : list Obs :=
  map (fun g => Call (CallReadRawMulti g)) groups.

(** The number of groups that claim C4 states for [m] items. *)
Definition ceiling (m n : nat) : nat := ((m + (n - 1)) / n)%nat.

Definition three_pointers : list TcSymbolPointer :=
  [Sample.pointer 16448 0 2; Sample.pointer 16448 2 2; Sample.pointer 16448 4 1].

(** Induction on a symbol tree, with the hypothesis for every child. *)
Fixpoint TcSymbol_ind' (Q : TcSymbol.t -> Prop)
  (HNode : forall f cls ch, Forall (fun kc => Q (snd kc)) ch -> Q (TcBinding.Node f cls ch))
  (symbol : TcSymbol.t) : Q symbol :=
  match symbol with
  | TcBinding.Node f cls ch =>
      HNode f cls ch
        ((fix each (ch : list (Key * TcSymbol.t)) : Forall (fun kc => Q (snd kc)) ch :=
            match ch with
            | [] => ListDef.Forall_nil _
            | kc :: rest =>
                ListDef.Forall_cons _ kc rest (TcSymbol_ind' Q HNode (snd kc)) (each rest)
            end) ch)
  end.

Definition all_invalid (symbol : TcSymbol.t) : Prop :=
  Forall (fun s => TcBinding.isValid (TcBinding.fields s) = false)
    (TcSymbol.descendants symbol).

Definition paths (symbol : TcSymbol.t) : list string :=
  map TcSymbol.path (TcSymbol.descendants symbol).

(** The loop over the children inside [TcSymbol.invalidate]. *)
Definition invalidate_children :=
  fix forEach (ch : list (Key * TcSymbol.t)) : Result unit * list (Key * TcSymbol.t) :=
    match ch with
    | [] => (Ok tt, [])
    | (key, child) :: rest =>
        match TcSymbol.invalidate child with
        | (Ok _, child') =>
            let '(r, rest') := forEach rest in (r, (key, child') :: rest')
        | (Throw e, child') => (Throw e, (key, child') :: rest)
        end
    end.

(** Without a throwing callback the walk always completes. *)
Definition callbacks_return (symbol : TcSymbol.t) : Prop :=
  Forall (fun s => match TcBinding.invalidateCallback (TcBinding.fields s) with
                   | Some (CallbackThrows _) => False
                   | _ => True
                   end) (TcSymbol.descendants symbol).

(** The three teardown steps, as an observer sees them complete: each of
    them ends by emitting its own event. *)
Inductive Step :=
| TypesDestroyed
| SymbolsDestroyed
| TransportDisconnected.

Definition step_of (o : Obs) : option Step :=
  match o with
  | Emitted _ TcTypeRegistryDestroyedEvent => Some TypesDestroyed
  | Emitted _ TcSymbolRegistryDestroyedEvent => Some SymbolsDestroyed
  | Emitted _ TcComDisconnectedEvent => Some TransportDisconnected
  | _ => None
  end.

Definition teardown (trace : list Obs) : list Step :=
  flat_map (fun o => match step_of o with Some s => [s] | None => [] end) trace.

(** A context on the sample controller with the namespace [MAIN]. *)
Definition sample_context : TcContext.t Sample.Memory :=
  {| TcContext.COM := Sample.com ∅;
     TcContext.types := {[ "INT" := Sample.INT ]};
     TcContext.namespaces := [("MAIN", Sample.MAIN)];
     TcContext.released := [] |}.

(** The loop of the structure constructor. *)
Definition struct_forEach (path : string) (readOnly : bool) (pointer : TcSymbolPointer) :=
  fix forEach (children : list (string * TcType.t)) (this : TcSymbol.t) : TcSymbol.t :=
    match children with
    | [] => this
    | (key, type) :: rest =>
        let childInfo :=
          {| ptr_indexGroup := ptr_indexGroup pointer;
             ptr_indexOffset := ptr_indexOffset pointer + TcType.offset type;
             ptr_size := TcType.size type |} in
        let childSymbol :=
          TcSymbol.instance type (path +:+ "." +:+ key) readOnly childInfo in
        forEach rest (TcBinding.addChild this (KString key) childSymbol)
    end.

Definition clearPackages_of_children (symbol : TcSymbol.t) : list TcDataPackage :=
  flat_map (fun kc => TcBinding.clearPackages (TcBinding.fields (snd kc)))
    (TcBinding.children symbol).

(** The controller with ['hello world'] in [MAIN.normalFoo.stringValue] and
    100 in [MAIN.normalFoo.numericValue]. *)
Definition memory_before : Sample.Memory :=
  Sample.store (Sample.store ∅ 16448 200 (Sample.bytes_of_string "hello world"))
    16448 281 [x64].

Definition child_offsets (symbol : TcSymbol.t) : list Z :=
  map (fun kc => TcBinding.indexOffset (TcBinding.fields (snd kc)))
    (TcBinding.children symbol).

Definition child_ends (symbol : TcSymbol.t) : list Z :=
  map (fun kc => TcBinding.indexOffset (TcBinding.fields (snd kc))
                 + TcBinding.size (TcBinding.fields (snd kc)))
    (TcBinding.children symbol).

Definition minimum (l : list Z) : Z :=
  match l with [] => 0 | x :: rest => fold_left Z.min rest x end.

Definition maximum (l : list Z) : Z :=
  match l with [] => 0 | x :: rest => fold_left Z.max rest x end.

(** The interval that claim C5 states for a namespace. *)
Definition spans_children (namespace : TcSymbol.t) : Prop :=
  TcBinding.indexOffset (TcBinding.fields namespace) = minimum (child_offsets namespace) /\
  TcBinding.size (TcBinding.fields namespace)
  = maximum (child_ends namespace) - minimum (child_offsets namespace).







(** Induction on a value, with the hypothesis for every member and item. *)
Fixpoint Value_ind' (Q : Value -> Prop)
  (HUndefined : Q VUndefined) (HBoolean : forall b, Q (VBoolean b))
  (HNumber : forall q, Q (VNumber q)) (HBigInt : forall z, Q (VBigInt z))
  (HString : forall s, Q (VString s))
  (HObject : forall fields, Forall (fun kv => Q (snd kv)) fields -> Q (VObject fields))
  (HArray : forall items, Forall Q items -> Q (VArray items))
  (v : Value) : Q v :=
  match v with
  | VUndefined => HUndefined
  | VBoolean b => HBoolean b
  | VNumber q => HNumber q
  | VBigInt z => HBigInt z
  | VString s => HString s
  | VObject fields =>
      HObject fields
        ((fix each (l : list (string * Value)) : Forall (fun kv => Q (snd kv)) l :=
            match l with
            | [] => ListDef.Forall_nil _
            | kv :: rest =>
                ListDef.Forall_cons _ kv rest
                  (Value_ind' Q HUndefined HBoolean HNumber HBigInt HString
                     HObject HArray (snd kv))
                  (each rest)
            end) fields)
  | VArray items =>
      HArray items
        ((fix each (l : list Value) : Forall Q l :=
            match l with
            | [] => ListDef.Forall_nil _
            | x :: rest =>
                ListDef.Forall_cons _ x rest
                  (Value_ind' Q HUndefined HBoolean HNumber HBigInt HString
                     HObject HArray x)
                  (each rest)
            end) items)
  end.

Definition addr (p : TcDataPackage) : Z * Z := (pkg_indexGroup p, pkg_indexOffset p).

(** The addresses of the leaf bindings at or below a binding. *)
Fixpoint leaf_addresses (b : TcBinding.t) : list (Z * Z) :=
  match b with
  | TcBinding.Node f cls ch =>
      match cls with
      | TcBinding.TcStructureBinding _ | TcBinding.TcArrayBinding _ _
      | TcBinding.TcNamespaceBinding =>
          (fix each (ch : list (Key * TcBinding.t)) : list (Z * Z) :=
             match ch with
             | [] => []
             | (_, child) :: rest => leaf_addresses child ++ each rest
             end) ch
      | _ => [(TcBinding.indexGroup f, TcBinding.indexOffset f)]
      end
  end.

Definition is_composite (cls : TcBinding.Class) : bool :=
  match cls with
  | TcBinding.TcStructureBinding _ | TcBinding.TcArrayBinding _ _
  | TcBinding.TcNamespaceBinding => true
  | _ => false
  end.

Definition is_conversion (o : Obs) : Prop :=
  match o with Call (CallConvertToRaw _ _) => True | _ => False end.

(** The packages handed to [writeRawMulti], in the order of the calls. *)
Definition written (trace : list Obs) : list TcDataPackage :=
  flat_map (fun o => match o with Call (CallWriteRawMulti dst) => dst | _ => [] end)
    trace.

(** The loops of the composite [toRaw]. *)
Definition struct_loop {P : Type} `{ADS P} `{JsRuntime} (this : TcBinding.t) :=
  fix loop (entries : list (string * Value))
    (promises : list (Result (list TcDataPackage)))
    : M (TcCom.t P) (list (Result (list TcDataPackage))) :=
    match entries with
    | [] => ret promises
    | (memberName, memberValue) :: rest =>
        match memberValue with
        | VUndefined => throw JsTypeError
        | _ =>
            match TcBinding.lookup_child this (KString memberName) with
            | Some child =>
                let* p := settle (TcBinding.toRaw memberValue child) in
                loop rest (promises ++ [p])
            | None =>
                if inherited memberName then throw JsTypeError
                else throw TcBindingOutOfRangeException
            end
        end
    end.

Definition array_loop {P : Type} `{ADS P} `{JsRuntime} (this : TcBinding.t)
  (startIndex : Z) :=
  fix loop (items : list Value) (index : Z)
    (promises : list (Result (list TcDataPackage)))
    : M (TcCom.t P) (list (Result (list TcDataPackage))) :=
    match items with
    | [] => ret promises
    | indexedValue :: rest =>
        match TcBinding.lookup_child this (KIndex (index + startIndex)) with
        | Some child =>
            let* p := settle (TcBinding.toRaw indexedValue child) in
            loop rest (index + 1) (promises ++ [p])
        | None => throw TcBindingOutOfRangeException
        end
    end.

(** The members of an object, and the items of an array from [index] on,
    under the keys by which the loops of [toRaw] look the children up. *)
Definition members (entries : list (string * Value)) : list (Key * Value) :=
  map (fun kv => (KString (fst kv), snd kv)) entries.

Fixpoint elements (startIndex index : Z) (items : list Value) : list (Key * Value) :=
  match items with
  | [] => []
  | indexedValue :: rest =>
      (KIndex (index + startIndex), indexedValue) :: elements startIndex (index + 1) rest
  end.

(** Every part is handled by the corresponding child: the value under each
    key is converted by the child of [this] under that key, one conversion
    after the other from [com] to [com'], and [packages] holds the packages
    of each conversion, in the order of the parts. *)
Fixpoint handled {P : Type} `{ADS P} `{JsRuntime} (this : TcBinding.t)
  (parts : list (Key * Value)) (com : TcCom.t P)
  (packages : list (list TcDataPackage)) (com' : TcCom.t P) : Prop :=
  match parts, packages with
  | [], [] => com' = com
  | (key, value) :: parts, part :: packages =>
      exists child com1,
        TcBinding.lookup_child this key = Some child /\
        TcBinding.toRaw value child com = (Ok part, com1) /\
        handled this parts com1 packages com'
  | _, _ => False
  end.

(** What the loop over the members of an object makes of an entry that it
    cannot hand to a child: a [TypeError] for a member value that is
    [undefined] and for a key that is no child but an inherited name,
    [TcBindingOutOfRangeException] for any other key that is no child. *)
Definition offence (this : TcBinding.t) (entry : string * Value) : option TcException :=
  match snd entry with
  | VUndefined => Some JsTypeError
  | _ =>
      match TcBinding.lookup_child this (KString (fst entry)) with
      | Some _ => None
      | None =>
          Some (if inherited (fst entry) then JsTypeError
                else TcBindingOutOfRangeException)
      end
  end.


(** Between [com] and [com'] nothing happened but calls of the encoder. *)
Definition quiet {P : Type} (com com' : TcCom.t P) : Prop :=
  TcCom.plc com' = TcCom.plc com /\
  TcCom.connected com' = TcCom.connected com /\
  exists new, TcCom.trace com' = TcCom.trace com ++ new /\ Forall is_conversion new.

(** The package [p] belongs to the child of [this] under a key that is
    present in [entries]. *)
Definition owned_by (this : TcBinding.t) (entries : list (string * Value))
  (p : TcDataPackage) : Prop :=
  exists memberName memberValue child,
    In (memberName, memberValue) entries /\
    TcBinding.lookup_child this (KString memberName) = Some child /\
    In (addr p) (leaf_addresses child).

Definition addressed_below (this : TcBinding.t) (p : TcDataPackage) : Prop :=
  In (addr p) (leaf_addresses this).

Definition toRaw_addressed {P : Type} `{ADS P} `{JsRuntime} (value : Value) : Prop :=
  forall this com dataPackages com',
    TcBinding.toRaw value this com = (Ok dataPackages, com') ->
    Forall (addressed_below this) dataPackages.



Definition buffers_of (b : TcBinding.t) : gmap string Buffer :=
  match TcBinding.class b with
  | TcBinding.TcEnumBinding _ _ _ buffers => buffers
  | _ => ∅
  end.

Definition fields_of (b : TcBinding.t) : list string :=
  match TcBinding.class b with
  | TcBinding.TcEnumBinding _ _ fields _ => fields
  | _ => []
  end.

(** [lower <= defaultValue <= upper] on a numeric type node. *)
Definition numeric_invariant (ty : TcType.t) : Prop :=
  match ty with
  | TcType.TcNumericType c kind u l =>
      match TcType.defaultValue ty with
      | Some d =>
          match Numeric_of_Value d with
          | Some n => le (TcType.lowerBorder kind l) n /\ le n (TcType.upperBorder kind u)
          | None => False
          end
      | None => False
      end
  | _ => True
  end.

Definition numeric_attribute (a : TcAttribute) : bool :=
  let nameFormatted := toLowerCase (trim (attr_name a)) in
  String.eqb nameFormatted "lowerborder" || String.eqb nameFormatted "upperborder"
  || String.eqb nameFormatted "default".

Definition no_numeric_attribute (mutator : TcTypeBase) : bool :=
  match tb_attributes mutator with
  | Some attrs => forallb (fun a => negb (numeric_attribute a)) attrs
  | None => true
  end.

(** ** Vocabulary of the further properties *)

(** The controller after the groups [sent] have been written one after the
    other; [None] when one of them is rejected. *)
Fixpoint write_all {P : Type} `{ADS P} (sent : list (list TcDataPackage)) (p : P)
  : option P :=
  match sent with
  | [] => Some p
  | g :: rest =>
      match writeRawMulti g p with
      | Some p' => write_all rest p'
      | None => None
      end
  end.

(** A client on the sample controller that rejects every request that
    touches index group 0, and whose [unsubscribeAll] is rejected. *)
Definition rejecting : ADS Sample.Memory := {|
  convertToRaw := Sample.encode;
  convertFromRaw := @convertFromRaw _ Sample.ads;
  readRawMulti := fun src m =>
    if forallb (fun p => negb (ptr_indexGroup p =? 0)) src
    then @readRawMulti _ Sample.ads src m else None;
  writeRawMulti := fun dst m =>
    if forallb (fun p => negb (pkg_indexGroup p =? 0)) dst
    then @writeRawMulti _ Sample.ads dst m else None;
  unsubscribeAll := fun m => None;
  disconnect := fun _ m => Some m
|}.

(** 501 packages: the first 500 for index group 16448, the last for index
    group 0. *)
Definition two_groups : list TcDataPackage :=
  repeat {| pkg_indexGroup := 16448; pkg_indexOffset := 0; pkg_data := Bytes [x01] |} 500
  ++ [{| pkg_indexGroup := 0; pkg_indexOffset := 0; pkg_data := Bytes [x02] |}].

(** 501 pointers into index group 16448. *)
Definition many_pointers : list TcSymbolPointer :=
  map (fun i => Sample.pointer 16448 (Z.of_nat i) 1) (seq 0 501).


(** The type name of a boolean, numeric or string binding. *)
Definition simple_type (cls : TcBinding.Class) : option string :=
  match cls with
  | TcBinding.TcBooleanBinding type _ | TcBinding.TcNumericBinding type _ _ _ _
  | TcBinding.TcStringBinding type _ _ => Some type
  | _ => None
  end.

(** [MAIN.flags : ARRAY [0..1] OF BOOL] at offset 600. *)
Definition flags_type : TcType.t :=
  TcType.new_TcArrayType
    {| ti_base := ti_base (Sample.raw "ARRAY [0..1] OF BOOL" ADST.BIT 2 None []);
       ti_arrayData := [{| dim_startIndex := 0; dim_length := 2 |}];
       ti_enumInfo := None; ti_rpcMethods := [] |}
    Sample.BOOL.

Definition flags : TcSymbol.t :=
  TcSymbol.instance flags_type "MAIN.flags" false (Sample.pointer 16448 600 2).

(** [MAIN.label : STRING(80)] at offset 700. *)
Definition label : TcSymbol.t :=
  TcSymbol.instance Sample.STRING80 "MAIN.label" false (Sample.pointer 16448 700 81).

(** A boolean, a string or a numeric binding other than [UINT64]: what
    [fromRaw] decodes is returned as it is. *)
Definition plain_leaf (cls : TcBinding.Class) : option string :=
  match cls with
  | TcBinding.TcBooleanBinding type _ | TcBinding.TcStringBinding type _ _ => Some type
  | TcBinding.TcNumericBinding type _ adst _ _ =>
      if adst =? ADST.UINT64 then None else Some type
  | _ => None
  end.

Definition is_leaf (cls : TcBinding.Class) : bool :=
  match cls with
  | TcBinding.TcBooleanBinding _ _ | TcBinding.TcNumericBinding _ _ _ _ _
  | TcBinding.TcStringBinding _ _ _ | TcBinding.TcEnumBinding _ _ _ _ => true
  | _ => false
  end.

(** [MAIN.ready : BOOL] at offset 800. *)
Definition ready : TcSymbol.t :=
  TcSymbol.instance Sample.BOOL "MAIN.ready" false (Sample.pointer 16448 800 1).

(** A client whose decoder returns [-1n] for every buffer. *)
Definition minus_one : ADS Sample.Memory := {|
  convertToRaw := Sample.encode;
  convertFromRaw := fun _ _ => Some (VBigInt (-1));
  readRawMulti := @readRawMulti _ Sample.ads;
  writeRawMulti := @writeRawMulti _ Sample.ads;
  unsubscribeAll := fun m => Some m;
  disconnect := fun _ m => Some m
|}.

(** [MAIN.total : ULINT] at offset 900. *)
Definition ULINT : TcType.t :=
  TcType.new_TcNumericType TcType.UINT64 (Sample.raw "ULINT" ADST.UINT64 8 None []).

Definition total : TcSymbol.t :=
  TcSymbol.instance ULINT "MAIN.total" false (Sample.pointer 16448 900 8).

(** The successive slices of [data] of the given lengths, from [start]. *)
Fixpoint member_slices {A} (counts : list nat) (data : list A) (start : nat)
  : list (list A) :=
  match counts with
  | [] => []
  | n :: rest => slice data start (start + n) :: member_slices rest data (start + n)
  end.

Definition is_member_name (k : Key) : Prop :=
  match k with KString _ => True | KIndex _ => False end.

(** The argument that [fromRaw] of a composite binding builds for each
    child: the number of read pointers and the conversion of the child. *)
Definition member_of {P : Type} `{ADS P} `{JsRuntime} (kc : Key * TcBinding.t)
  : Key * (nat * (list TcDataPackage -> M (TcCom.t P) Value)) :=
  (fst kc, (List.length (TcBinding.readPackages (TcBinding.fields (snd kc))),
            TcBinding.fromRaw (snd kc))).


(** The loops of [__createChildren] and [__createProxyArrays], and the
    constructor of [TcArraySymbol] at the dimension [remaining]. *)
Definition array_elements (child : TcType.t) (path : string) (readOnly : bool)
  (pointer : TcSymbolPointer) (todo : list Z) (this : TcSymbol.t) : TcSymbol.t :=
  fold_left
    (fun this index =>
       let childPointer :=
         {| ptr_indexGroup := ptr_indexGroup pointer;
            ptr_indexOffset := ptr_indexOffset pointer + TcType.size child * index;
            ptr_size := TcType.size child |} in
       let childSymbol :=
         TcSymbol.instance child (path +:+ pretty index +:+ "]") readOnly childPointer in
       TcBinding.addChild this (KIndex index) childSymbol)
    todo this.

Definition TcArraySymbol (params child : TcType.t) :=
  fix TcArraySymbol (remaining : list TcArrayDimension) (top : bool)
    (path : string) (parentReadOnly : bool) (pointer : TcSymbolPointer) : TcSymbol.t :=
    let readOnly := parentReadOnly || TcType.readOnly params in
    match remaining with
    | [] =>
        TcBinding.Node (TcBinding.new_TcSymbolBinding path readOnly pointer params)
          (TcBinding.TcArrayBinding 0 0) []
    | dimension :: deeper =>
        let this :=
          TcBinding.Node (TcBinding.new_TcSymbolBinding path readOnly pointer params)
            (TcBinding.TcArrayBinding (dim_startIndex dimension) (dim_length dimension))
            [] in
        let path := if top then path +:+ "[" else TcSymbol.drop_last path +:+ "," in
        match deeper with
        | [] =>
            array_elements child path readOnly pointer
              (TcSymbol.indices (dim_startIndex dimension) (dim_length dimension)) this
        | _ :: _ =>
            let segments := dim_length dimension in
            let offset := ptr_size pointer / segments in
            (fix proxies (todo : list Z) (this : TcSymbol.t) : TcSymbol.t :=
               match todo with
               | [] => this
               | index :: todo =>
                   let pointer' :=
                     {| ptr_indexGroup := ptr_indexGroup pointer;
                        ptr_indexOffset := ptr_indexOffset pointer + offset * index;
                        ptr_size := offset |} in
                   let childSymbol :=
                     TcArraySymbol deeper false
                       (path +:+ pretty (dim_startIndex dimension + index) +:+ "]")
                       readOnly pointer' in
                   proxies todo
                     (TcBinding.addChild this (KIndex (dim_startIndex dimension + index))
                        childSymbol)
               end) (TcSymbol.indices 0 segments) this
        end
    end.

(** What a binding is apart from its packages. *)
Definition without_packages (f : TcBinding.Fields) : TcBinding.Fields :=
  TcBinding.with_packages f [] [].


(** Where a child symbol lies: its key in the parent, its path, its memory
    location and its read-only flag. *)
Definition child_at (key : Key) (path : string) (pointer : TcSymbolPointer)
  (readOnly : bool) (kc : Key * TcSymbol.t) : Prop :=
  fst kc = key /\
  TcSymbol.path (snd kc) = path /\
  TcBinding.indexGroup (TcBinding.fields (snd kc)) = ptr_indexGroup pointer /\
  TcBinding.indexOffset (TcBinding.fields (snd kc)) = ptr_indexOffset pointer /\
  TcBinding.size (TcBinding.fields (snd kc)) = ptr_size pointer /\
  TcSymbol.readOnly (snd kc) = readOnly.

(** The attribute is named [key], up to case and surrounding white space. *)
Definition attribute_named (key : string) (a : TcAttribute) : bool :=
  String.eqb (toLowerCase (trim (attr_name a))) key.

Definition has_attribute (key : string) (mutator : TcTypeBase) : bool :=
  match tb_attributes mutator with
  | Some attrs => existsb (attribute_named key) attrs
  | None => false
  end.

(** The class of a type. *)
Inductive TypeClass :=
| BooleanClass | NumericClass | StringClass | EnumClass | StructClass | ArrayClass.

Definition class_of (ty : TcType.t) : TypeClass :=
  match ty with
  | TcType.TcBooleanType _ => BooleanClass
  | TcType.TcNumericType _ _ _ _ => NumericClass
  | TcType.TcStringType _ _ => StringClass
  | TcType.TcEnumType _ _ _ => EnumClass
  | TcType.TcStructType _ _ _ => StructClass
  | TcType.TcArrayType _ _ _ => ArrayClass
  end.

(** The attribute [Default] with the value [true], up to case and white
    space. *)
Definition default_true (a : TcAttribute) : bool :=
  attribute_named "default" a && String.eqb (toLowerCase (trim (attr_value a))) "true".

Definition attributes (mutator : TcTypeBase) : list TcAttribute :=
  match tb_attributes mutator with Some attrs => attrs | None => [] end.

(** ["<typeName>.<name>"] *)
Definition qualified (typeName : string) (field : TcEnumField) : string :=
  typeName +:+ "." +:+ enum_name field.

(** [this.__enumBuffers[fullName] = enumField.value], field after field. *)
Definition enum_buffers (typeName : string) (fields : list TcEnumField)
  (buffers : gmap string Buffer) : gmap string Buffer :=
  fold_left (fun b field => <[qualified typeName field := enum_value field]> b)
    fields buffers.

(** [TcNamespaceSymbol.addChild] for one child after the other. *)
Fixpoint add_all (children : list (string * TcSymbol.t)) : M TcSymbol.t unit :=
  match children with
  | [] => ret tt
  | (key, symbol) :: rest =>
      TcSymbol.TcNamespaceSymbol_addChild key symbol >> add_all rest
  end.

(** A context whose symbol [MAIN.counter] has a callback that throws. *)
Definition guarded_context : TcContext.t Sample.Memory :=
  {| TcContext.COM := Sample.com ∅;
     TcContext.types := {[ "INT" := Sample.INT ]};
     TcContext.namespaces :=
       [("GVL", Sample.GVL);
        ("MAIN",
         snd (TcSymbol.TcNamespaceSymbol_addChild "counter"
                (TcSymbol.onInvalidated Sample.counter (CallbackThrows (JsError "stop")))
                (TcSymbol.new_TcNamespaceSymbol "MAIN")))];
     TcContext.released := [] |}.

(** [BigInt(value)] for the 64-bit kinds, [parseFloat(value)] for the
    others. *)
Definition parse_border `{JsRuntime} (adst : Z) (value : string) : Numeric :=
  if TcType.is64 adst then Big (BigInt value) else Num (parseFloat value).

(** The value of the last attribute named [key], if there is one. *)
Definition last_border `{JsRuntime} (key : string) (adst : Z) (attrs : list TcAttribute)
  (border : option Numeric) : option Numeric :=
  fold_left (fun acc a =>
               if attribute_named key a then Some (parse_border adst (attr_value a))
               else acc) attrs border.

(** A decimal digit, and a run of 1 to 300 of them. *)
Definition is_digit (c : ascii) : bool :=
  (48 <=? nat_of_ascii c)%nat && (nat_of_ascii c <=? 57)%nat.

Definition digits (s : string) : bool :=
  (0 <? String.length s)%nat && (String.length s <=? 300)%nat
  && forallb is_digit (list_ascii_of_string s).

(** The text before the first ['.'], and the text after it. *)
Fixpoint split_dot (s : string) : string * option string :=
  match s with
  | EmptyString => (EmptyString, None)
  | String c rest =>
      if Ascii.eqb c "." then (EmptyString, Some rest)
      else let (whole, fraction) := split_dot rest in (String c whole, fraction)
  end.

(** A decimal numeral with an optional sign; a fraction only where
    [integer] is false. [BigInt] accepts the integer numerals, and
    [parseFloat] gives a finite number on all of them. *)
Definition is_numeral (integer : bool) (s : string) : bool :=
  let unsigned := match s with
                  | String c rest => if Ascii.eqb c "-" then rest else s
                  | EmptyString => s
                  end in
  match split_dot unsigned with
  | (whole, None) => digits whole
  | (whole, Some fraction) => negb integer && digits whole && digits fraction
  end.

(** The values of the attributes [LowerBorder], [UpperBorder] and
    [Default] of [mutator] are numerals for a type whose [adst] is
    [adst]. *)
Definition numerals (adst : Z) (mutator : TcTypeBase) : bool :=
  forallb (fun a => implb (numeric_attribute a)
                      (is_numeral (TcType.is64 adst) (attr_value a)))
    (attributes mutator).

(** [BigInt(0)] for the 64-bit kinds, [0] for the others. *)
Definition zero (adst : Z) : Numeric :=
  if TcType.is64 adst then Big 0 else Num 0.

(** [__default] after the attributes [attrs] on a numeric type whose
    [__default] was [before]: the last [Default]; without one, [before];
    and where that is undefined, the first [LowerBorder]. *)
Definition given_default `{JsRuntime} (adst : Z) (attrs : list TcAttribute)
  (before : option Value) : option Value :=
  match last_border "default" adst attrs None with
  | Some d => Some (Value_of_Numeric d)
  | None =>
      match before with
      | Some d => Some d
      | None =>
          match find (attribute_named "lowerborder") attrs with
          | Some a => Some (Value_of_Numeric (parse_border adst (attr_value a)))
          | None => None
          end
      end
  end.

(** [lower <= default <= upper], for a default that is a number or a
    bigint. *)
Definition within (lower upper : Numeric) (default : option Value) : Prop :=
  match default with
  | Some d =>
      match Numeric_of_Value d with
      | Some n => le lower n /\ le n upper
      | None => False
      end
  | None => False
  end.

(** The package [p] belongs to the element of [this] with one of the
    [count] indices from [startIndex + from] on. *)
Definition owned_by_element (this : TcBinding.t) (startIndex : Z) (from count : nat)
  (p : TcDataPackage) : Prop :=
  exists (j : nat) child,
    (from <= j < from + count)%nat /\
    TcBinding.lookup_child this (KIndex (Z.of_nat j + startIndex)) = Some child /\
    In (addr p) (leaf_addresses child).

(** * Properties *)

(** ** Request splitting ([TcCom.__splitData], [TcCom.write], [TcCom.read]) *)

Section Splitting.
Context {A : Type}.
Implicit Types (data : list A) (result : list (list A)).

Lemma splitData_loop_unfold data startIndex endIndex result :
  TcCom.splitData_loop data startIndex endIndex result =
  let endIndex' := TcCom.nextEnd (List.length data) endIndex in
  let result' := result ++ [slice data startIndex endIndex'] in
  if (endIndex' <? List.length data)%nat
  then TcCom.splitData_loop data endIndex' endIndex' result'
  else result'.
Proof.
  rewrite TcCom.splitData_loop_equation_1. cbn zeta.
  generalize (inspect (TcCom.nextEnd (List.length data) endIndex
                         <? List.length data)%nat).
  intros [b e].
  match goal with
  | |- _ = (if _ then ?a else ?c) =>
      transitivity (if b then a else c); [ | now rewrite e ]
  end.
  destruct b; reflexivity.
Qed.

(** What the loop appends when it is entered with [startIndex = endIndex =
    s]: the groups of the items from [s] on. *)
Lemma splitData_loop_spec data : forall n s result,
  (List.length data - s <= n)%nat -> (s <= List.length data)%nat ->
  exists groups,
    TcCom.splitData_loop data s s result = result ++ groups /\
    concat groups = skipn s data /\
    Forall (fun g => (List.length g <= 500)%nat) groups /\
    Forall (fun g => List.length g = 500%nat) (removelast groups) /\
    List.length groups = groups_for (List.length data - s).
Proof.
  induction n as [n IH] using lt_wf_ind. intros s result Hn Hs.
  rewrite splitData_loop_unfold. cbn zeta. unfold TcCom.nextEnd.
  destruct (Nat.ltb_spec (List.length data) (s + 500)) as [Hlast | Hmore].
  - (* the last group: fewer than 500 items remain *)
    rewrite Nat.ltb_irrefl.
    exists [slice data s (List.length data)]. unfold slice.
    assert (Hlen : List.length (skipn s data) = (List.length data - s)%nat)
      by apply length_skipn.
    rewrite firstn_all2 by lia.
    repeat split.
    + cbn. apply app_nil_r.
    + constructor; [lia | constructor].
    + cbn. constructor.
    + cbn. unfold groups_for. rewrite Nat.div_small by lia. reflexivity.
  - destruct (Nat.ltb_spec (s + 500) (List.length data)) as [Hlt | Hge].
    + (* a full group, and the loop goes on *)
      destruct (IH (List.length data - (s + 500))%nat ltac:(lia) (s + 500)%nat
                  (result ++ [slice data s (s + 500)]) ltac:(lia) ltac:(lia))
        as (groups & Heq & Hcat & Hle & Hfull & Hcount).
      exists (slice data s (s + 500) :: groups).
      assert (Hg : List.length (slice data s (s + 500)) = 500%nat).
      { unfold slice. rewrite length_firstn, length_skipn. lia. }
      repeat split.
      * rewrite Heq, <- app_assoc. reflexivity.
      * cbn [concat]. rewrite Hcat. unfold slice.
        replace (s + 500 - s)%nat with 500%nat by lia.
        rewrite <- (firstn_skipn 500 (skipn s data)) at 2.
        f_equal. rewrite skipn_skipn. f_equal. lia.
      * constructor; [lia | exact Hle].
      * destruct groups as [| g groups'].
        -- cbn in Hcount. unfold groups_for in Hcount. lia.
        -- change (removelast (slice data s (s + 500) :: g :: groups'))
             with (slice data s (s + 500) :: removelast (g :: groups')).
           constructor; assumption.
      * cbn [List.length]. rewrite Hcount. unfold groups_for.
        replace (List.length data - s - 1)%nat
          with (List.length data - (s + 500) - 1 + 1 * 500)%nat by lia.
        rewrite Nat.div_add by lia. lia.
    + (* exactly 500 items remain *)
      assert (Hs500 : (s + 500)%nat = List.length data) by lia.
      exists [slice data s (s + 500)]. unfold slice.
      assert (Hlen : List.length (skipn s data) = (List.length data - s)%nat)
        by apply length_skipn.
      rewrite firstn_all2 by lia.
      repeat split.
      * cbn. apply app_nil_r.
      * constructor; [lia | constructor].
      * cbn. constructor.
      * cbn. unfold groups_for.
        replace (List.length data - s - 1)%nat with 499%nat by lia.
        reflexivity.
Qed.

Lemma splitData_spec data :
  concat (TcCom.__splitData data) = data /\
  Forall (fun g => (List.length g <= 500)%nat) (TcCom.__splitData data) /\
  Forall (fun g => List.length g = 500%nat) (removelast (TcCom.__splitData data)) /\
  List.length (TcCom.__splitData data) = groups_for (List.length data).
Proof.
  destruct (splitData_loop_spec data (List.length data) 0 [] ltac:(lia) ltac:(lia))
    as (groups & Heq & Hcat & Hle & Hfull & Hcount).
  unfold TcCom.__splitData. rewrite Heq. cbn [app].
  rewrite Nat.sub_0_r in Hcount. auto.
Qed.

End Splitting.

Lemma groups_for_ceiling (m : nat) :
  groups_for m = Nat.max 1 ((m + 499) / 500).
Proof.
  unfold groups_for. destruct m as [| m].
  - reflexivity.
  - replace (S m + 499)%nat with (m + 1 * 500)%nat by lia.
    rewrite Nat.div_add by lia.
    replace (S m - 1)%nat with m by lia. lia.
Qed.

Ltac unfold_monad :=
  unfold bind, ret, throw, lift, settle, TcCom.observe, TcCom.emit,
    TcCom.get_plc, TcCom.set_plc, TcCom.isValid, TcCom.clear_ads in *.

Section TransportCalls.
Context {P : Type} `{ADS P}.

(** [write_groups] issues one [writeRawMulti] per group, in order, and
    stops at the first call that fails. *)
Lemma write_groups_trace split : forall com,
  exists k,
    (k <= List.length split)%nat /\
    TcCom.trace (snd (TcCom.write_groups split com))
      = TcCom.trace com ++ write_calls (firstn k split) /\
    TcCom.connected (snd (TcCom.write_groups split com)) = TcCom.connected com /\
    (forall u, fst (TcCom.write_groups split com) = Ok u -> k = List.length split).
Proof.
  induction split as [| g rest IH]; intros com.
  - exists 0%nat. cbn. rewrite app_nil_r. repeat split; auto.
  - cbn [TcCom.write_groups]. unfold_monad. cbn.
    destruct (writeRawMulti g (TcCom.plc com)) as [p' |] eqn:Hw.
    + cbn.
      match goal with
      | |- context [TcCom.write_groups rest ?c] =>
          destruct (IH c) as (k & Hk & Htr & Hconn & Hok)
      end.
      exists (S k). cbn in *. repeat split.
      * lia.
      * rewrite Htr, <- app_assoc. reflexivity.
      * exact Hconn.
      * intros u Hu. f_equal. eauto.
    + exists 1%nat. cbn. repeat split; auto; try lia. discriminate.
Qed.

Lemma read_groups_trace split : forall com result,
  exists k,
    (k <= List.length split)%nat /\
    TcCom.trace (snd (TcCom.read_groups split result com))
      = TcCom.trace com ++ read_calls (firstn k split) /\
    TcCom.connected (snd (TcCom.read_groups split result com)) = TcCom.connected com /\
    TcCom.plc (snd (TcCom.read_groups split result com)) = TcCom.plc com /\
    (forall u, fst (TcCom.read_groups split result com) = Ok u ->
               k = List.length split).
Proof.
  induction split as [| g rest IH]; intros com result.
  - exists 0%nat. cbn. rewrite app_nil_r. repeat split; auto.
  - cbn [TcCom.read_groups]. unfold_monad. cbn.
    destruct (readRawMulti g (TcCom.plc com)) as [response |] eqn:Hr.
    + match goal with
      | |- context [TcCom.read_groups rest ?r ?c] =>
          destruct (IH c r) as (k & Hk & Htr & Hconn & Hplc & Hok)
      end.
      exists (S k). cbn in *. repeat split.
      * lia.
      * rewrite Htr, <- app_assoc. reflexivity.
      * exact Hconn.
      * exact Hplc.
      * intros u Hu. f_equal. eauto.
    + exists 1%nat. cbn. repeat split; auto; try lia. discriminate.
Qed.

Lemma write_trace dataPackages com u com' :
  TcCom.connected com = true ->
  TcCom.write dataPackages com = (Ok u, com') ->
  TcCom.trace com' = TcCom.trace com ++ write_calls (TcCom.__splitData dataPackages).
Proof.
  intros Hc Hw. unfold TcCom.write in Hw. unfold_monad. rewrite Hc in Hw.
  destruct (write_groups_trace (TcCom.__splitData dataPackages) com)
    as (k & Hk & Htr & _ & Hok).
  rewrite Hw in *. cbn in *. specialize (Hok u eq_refl). subst k.
  rewrite firstn_all in Htr. exact Htr.
Qed.

Lemma read_trace pointer com result com' :
  TcCom.connected com = true ->
  TcCom.read pointer com = (Ok result, com') ->
  TcCom.trace com' = TcCom.trace com ++ read_calls (TcCom.__splitData pointer).
Proof.
  intros Hc Hr. unfold TcCom.read in Hr. unfold_monad. rewrite Hc in Hr.
  destruct (read_groups_trace (TcCom.__splitData pointer) com [])
    as (k & Hk & Htr & _ & _ & Hok).
  rewrite Hr in *. cbn in *. specialize (Hok result eq_refl). subst k.
  rewrite firstn_all in Htr. exact Htr.
Qed.

End TransportCalls.

(** C4, as stated, fails for the empty list: the loop of [__splitData] is a
    do-while, so an empty list of packages gives one (empty) group, and
    [TcCom.write] makes one [writeRawMulti] call with no item, where
    the claim states zero groups. *)
Lemma C4_counterexample :
  TcCom.__splitData (@nil TcDataPackage) = [[]] /\
  List.length (TcCom.__splitData (@nil TcDataPackage))
    <> ceiling (List.length (@nil TcDataPackage)) 500 /\
  TcCom.trace (snd (TcCom.write [] (Sample.com ∅))) = [Call (CallWriteRawMulti [])].
Proof.
  repeat split.
  cbn. discriminate.
Qed.

(** C4 (amended). For every list of [m] read pointers or write packages,
    [__splitData] produces consecutive groups in the original order whose
    concatenation is the input; every group has at most 500 items and every
    group but the last has exactly 500; the number of groups is the ceiling of
    [m / 500] when [m > 0] and one (an empty group) when [m = 0]. A write or a
    read that succeeds on a connected [TcCom] makes exactly one transport
    call per group, in that order. *)
Theorem C4_request_splitting :
  (forall (A : Type) (data : list A),
      concat (TcCom.__splitData data) = data /\
      Forall (fun g => (List.length g <= 500)%nat) (TcCom.__splitData data) /\
      Forall (fun g => List.length g = 500%nat) (removelast (TcCom.__splitData data)) /\
      List.length (TcCom.__splitData data)
        = Nat.max 1 (ceiling (List.length data) 500)) /\
  (forall (P : Type) (ads : ADS P) dataPackages com u com',
      TcCom.connected com = true ->
      TcCom.write dataPackages com = (Ok u, com') ->
      TcCom.trace com' = TcCom.trace com ++ write_calls (TcCom.__splitData dataPackages)) /\
  (forall (P : Type) (ads : ADS P) pointer com result com',
      TcCom.connected com = true ->
      TcCom.read pointer com = (Ok result, com') ->
      TcCom.trace com' = TcCom.trace com ++ read_calls (TcCom.__splitData pointer)).
Proof.
  split; [| split].
  - intros A data. destruct (splitData_spec data) as (Hc & Hle & Hfull & Hn).
    repeat split; auto. rewrite Hn. apply groups_for_ceiling.
  - intros. eapply write_trace; eauto.
  - intros. eapply read_trace; eauto.
Qed.

Lemma C4_request_splitting_witness :
  TcCom.trace (snd (TcCom.read three_pointers (Sample.com ∅)))
  = TcCom.trace (Sample.com ∅) ++ read_calls (TcCom.__splitData three_pointers).
Proof.
  refine (proj2 (proj2 C4_request_splitting) _ _ three_pointers (Sample.com ∅)
            (match fst (TcCom.read three_pointers (Sample.com ∅)) with
             | Ok r => r | Throw _ => [] end)
            (snd (TcCom.read three_pointers (Sample.com ∅))) _ _);
    reflexivity.
Defined.

(** ** Invalidation ([TcSymbol.invalidate], [TcSymbolRegistry.destroy]) *)

Lemma descendants_Node f cls ch :
  TcSymbol.descendants (TcBinding.Node f cls ch)
  = TcBinding.Node f cls ch :: flat_map (fun kc => TcSymbol.descendants (snd kc)) ch.
Proof.
  cbn [TcSymbol.descendants]. f_equal.
  induction ch as [| [k c] rest IH]; [reflexivity |].
  cbn [flat_map snd]. rewrite <- IH. reflexivity.
Qed.

Lemma invalidate_Node f cls ch :
  TcSymbol.invalidate (TcBinding.Node f cls ch) =
  let '(each, ch') := invalidate_children ch in
  match each with
  | Throw e => (Throw e, TcBinding.Node f cls ch')
  | Ok _ =>
      let this := TcBinding.invalidate (TcBinding.Node f cls ch') in
      match TcBinding.invalidateCallback f with
      | Some (CallbackThrows e) => (Throw e, this)
      | Some CallbackReturns | None => (Ok tt, this)
      end
  end.
Proof. reflexivity. Qed.

Lemma invalidate_children_ok ch :
  Forall (fun kc => forall u s', TcSymbol.invalidate (snd kc) = (Ok u, s') ->
                                 all_invalid s' /\ paths s' = paths (snd kc)) ch ->
  forall u ch', invalidate_children ch = (Ok u, ch') ->
    Forall (fun kc => all_invalid (snd kc)) ch' /\
    flat_map (fun kc => paths (snd kc)) ch' = flat_map (fun kc => paths (snd kc)) ch.
Proof.
  induction 1 as [| [k c] rest Hc Hrest IH]; intros u ch' Heq.
  - cbn in Heq. inversion Heq. split; [constructor | reflexivity].
  - cbn [invalidate_children] in Heq. cbn [snd] in Hc.
    destruct (TcSymbol.invalidate c) as [[u1 | e] c'] eqn:Hinv; [| discriminate].
    fold invalidate_children in Heq.
    destruct (invalidate_children rest) as [r rest'] eqn:Hr.
    inversion Heq; subst r ch'; clear Heq.
    destruct (Hc _ _ eq_refl) as [Hall Hp].
    destruct (IH _ _ eq_refl) as [Hall' Hp'].
    split.
    + constructor; assumption.
    + cbn [flat_map snd]. rewrite Hp, Hp'. reflexivity.
Qed.

Lemma paths_Node f cls ch :
  paths (TcBinding.Node f cls ch)
  = TcBinding.path f :: flat_map (fun kc => paths (snd kc)) ch.
Proof.
  unfold paths. rewrite descendants_Node. cbn [map]. f_equal.
  induction ch as [| [k c] rest IH]; [reflexivity |].
  cbn [flat_map snd]. rewrite map_app, IH. reflexivity.
Qed.

(** After [TcSymbol.invalidate(symbol)] has returned, the flag of every
    binding at or below [symbol] is false, and the symbols are the same as
    before. *)
Lemma invalidate_ok symbol : forall u symbol',
  TcSymbol.invalidate symbol = (Ok u, symbol') ->
  all_invalid symbol' /\ paths symbol' = paths symbol.
Proof.
  induction symbol as [f cls ch IH] using TcSymbol_ind'. intros u symbol' Heq.
  rewrite invalidate_Node in Heq.
  destruct (invalidate_children ch) as [[u1 | e] ch'] eqn:Hch; [| discriminate].
  destruct (invalidate_children_ok ch IH _ _ Hch) as [Hall Hp].
  assert (Hthis : all_invalid (TcBinding.invalidate (TcBinding.Node f cls ch')) /\
                  paths (TcBinding.invalidate (TcBinding.Node f cls ch'))
                  = paths (TcBinding.Node f cls ch)).
  { cbn [TcBinding.invalidate]. split.
    - unfold all_invalid. rewrite descendants_Node. constructor; [reflexivity |].
      clear -Hall. induction Hall as [| kc rest Hkc _ IHrest]; cbn [flat_map].
      + constructor.
      + apply Forall_app. split; assumption.
    - rewrite !paths_Node. cbn. f_equal. exact Hp. }
  cbn zeta in Heq.
  destruct (TcBinding.invalidateCallback f) as [[| e] |];
    inversion Heq; subst; exact Hthis.
Qed.

Lemma invalidate_returns symbol :
  callbacks_return symbol -> exists symbol', TcSymbol.invalidate symbol = (Ok tt, symbol').
Proof.
  induction symbol as [f cls ch IH] using TcSymbol_ind'. intros Hcb.
  unfold callbacks_return in Hcb. rewrite descendants_Node in Hcb.
  inversion Hcb as [| ? ? Hroot Hrest]; subst. cbn in Hroot.
  rewrite invalidate_Node.
  assert (Hch : exists ch', invalidate_children ch = (Ok tt, ch')).
  { clear Hroot Hcb. induction ch as [| [k c] rest IHrest].
    - eexists. reflexivity.
    - cbn [flat_map snd] in Hrest. apply Forall_app in Hrest as [Hc Hr].
      inversion IH as [| ? ? IHc IHr]; subst. cbn [snd] in IHc.
      destruct (IHc Hc) as [c' Hc'].
      destruct (IHrest IHr Hr) as [rest' Hrest'].
      cbn [invalidate_children]. rewrite Hc'. fold invalidate_children.
      rewrite Hrest'. eexists. reflexivity. }
  destruct Hch as [ch' Hch']. rewrite Hch'. cbn zeta.
  destruct (TcBinding.invalidateCallback f) as [[| e] |];
    [eexists; reflexivity | contradiction | eexists; reflexivity].
Qed.

Section InvalidBinding.
Context {P : Type} `{ADS P} `{JsRuntime}.

(** An operation on an invalidated binding fails before anything else
    happens: the state of the [TcCom] is the one before the call. *)
Lemma invalid_binding_fails (binding : TcBinding.t) :
  TcBinding.isValid (TcBinding.fields binding) = false ->
  forall (com : TcCom.t P) (value : Value),
    TcBinding.read binding com = (Throw TcBindingIsInvalidException, com) /\
    TcBinding.write binding value com = (Throw TcBindingIsInvalidException, com) /\
    TcBinding.clear binding com = (Throw TcBindingIsInvalidException, com).
Proof.
  intros Hinv com value.
  unfold TcBinding.read, TcBinding.write, TcBinding.clear.
  rewrite Hinv. cbn. auto.
Qed.

Lemma invalidate_all_ok map : forall u map',
  TcContext.invalidate_all map = (Ok u, map') ->
  Forall2 (fun old new => fst new = fst old /\
                          exists u', TcSymbol.invalidate (snd old) = (Ok u', snd new))
    map map'.
Proof.
  induction map as [| [k ns] rest IH]; intros u map' Heq.
  - cbn in Heq. inversion Heq. constructor.
  - cbn [TcContext.invalidate_all] in Heq.
    destruct (TcSymbol.invalidate ns) as [[u1 | e] ns'] eqn:Hinv; [| discriminate].
    destruct (TcContext.invalidate_all rest) as [r rest'] eqn:Hr.
    inversion Heq; subst r map'; clear Heq.
    constructor; [| eauto].
    cbn. split; [reflexivity | eauto].
Qed.

Lemma destroy_ok (ctx ctx' : TcContext.t P) u :
  TcContext.TcSymbolRegistry_destroy ctx = (Ok u, ctx') ->
  exists handles,
    TcContext.invalidate_all (TcContext.namespaces ctx) = (Ok tt, handles) /\
    TcContext.namespaces ctx' = [] /\
    TcContext.released ctx' = TcContext.released ctx ++ handles.
Proof.
  unfold TcContext.TcSymbolRegistry_destroy. intros Heq.
  destruct (TcContext.invalidate_all (TcContext.namespaces ctx))
    as [[[] | e] handles] eqn:Hall.
  - exists handles. cbn in Heq. inversion Heq; subst. cbn. auto.
  - cbn in Heq. discriminate.
Qed.

End InvalidBinding.

(** C2. After [TcSymbol.invalidate(root)] has returned (as
    [TcSymbolRegistry.destroy] calls it for every namespace), the symbols at
    and below [root] are the same as before, the validity flag of the binding
    of each of them is false, and [read()], [write(v)] and [clear()] on any
    of these bindings fail with [TcBindingIsInvalidException] and leave the
    [TcCom] as it was: no call reaches the transport. After
    [TcSymbolRegistry.destroy()] has returned, this holds for every namespace
    that was in the map of the registry. *)
Theorem C2_invalidated_handles_fail :
  (forall (root root' : TcSymbol.t) (u : unit),
      TcSymbol.invalidate root = (Ok u, root') ->
      paths root' = paths root /\
      forall s, In s (TcSymbol.descendants root') ->
        TcBinding.isValid (TcBinding.fields s) = false /\
        forall (P : Type) (ads : ADS P) (js : JsRuntime) (com : TcCom.t P) (value : Value),
          TcBinding.read s com = (Throw TcBindingIsInvalidException, com) /\
          TcBinding.write s value com = (Throw TcBindingIsInvalidException, com) /\
          TcBinding.clear s com = (Throw TcBindingIsInvalidException, com)) /\
  (forall (P : Type) (ads : ADS P) (ctx ctx' : TcContext.t P) (u : unit),
      TcContext.TcSymbolRegistry_destroy ctx = (Ok u, ctx') ->
      exists handles,
        TcContext.namespaces ctx' = [] /\
        TcContext.released ctx' = TcContext.released ctx ++ handles /\
        Forall2 (fun old new =>
                   fst new = fst old /\
                   exists u', TcSymbol.invalidate (snd old) = (Ok u', snd new))
          (TcContext.namespaces ctx) handles).
Proof.
  split.
  - intros root root' u Hinv.
    destruct (invalidate_ok root u root' Hinv) as [Hall Hpaths].
    split; [exact Hpaths |].
    intros s Hs. unfold all_invalid in Hall.
    rewrite List.Forall_forall in Hall. specialize (Hall s Hs).
    split; [exact Hall |].
    intros P ads js com value. apply invalid_binding_fails. exact Hall.
  - intros P ads ctx ctx' u Hd.
    destruct (destroy_ok ctx ctx' u Hd) as (handles & Hall & Hns & Hrel).
    exists handles. repeat split; auto.
    eapply invalidate_all_ok. exact Hall.
Qed.

Lemma C2_invalidated_handles_fail_witness :
  paths (snd (TcSymbol.invalidate Sample.MAIN)) = paths Sample.MAIN /\
  forall s, In s (TcSymbol.descendants (snd (TcSymbol.invalidate Sample.MAIN))) ->
    TcBinding.isValid (TcBinding.fields s) = false /\
    forall (P : Type) (ads : ADS P) (js : JsRuntime) (com : TcCom.t P) (value : Value),
      TcBinding.read s com = (Throw TcBindingIsInvalidException, com) /\
      TcBinding.write s value com = (Throw TcBindingIsInvalidException, com) /\
      TcBinding.clear s com = (Throw TcBindingIsInvalidException, com).
Proof.
  apply (proj1 C2_invalidated_handles_fail Sample.MAIN
           (snd (TcSymbol.invalidate Sample.MAIN)) tt).
  vm_compute. reflexivity.
Defined.

(** ** Teardown ([TcContext.kill]) *)

(** C3, as stated, fails: [kill()] destroys the type registry before the
    symbol registry. *)
Lemma C3_counterexample :
  teardown (TcCom.trace (TcContext.COM (snd (TcContext.kill sample_context))))
  = [TypesDestroyed; SymbolsDestroyed; TransportDisconnected] /\
  teardown (TcCom.trace (TcContext.COM (snd (TcContext.kill sample_context))))
  <> [SymbolsDestroyed; TypesDestroyed; TransportDisconnected].
Proof.
  assert (H : teardown (TcCom.trace (TcContext.COM (snd (TcContext.kill sample_context))))
              = [TypesDestroyed; SymbolsDestroyed; TransportDisconnected])
    by (vm_compute; reflexivity).
  split; [exact H | rewrite H; discriminate].
Qed.

Lemma invalidate_all_returns map :
  Forall (fun kn => callbacks_return (snd kn)) map ->
  exists map', TcContext.invalidate_all map = (Ok tt, map').
Proof.
  induction 1 as [| [key namespace] rest Hns _ IH].
  - eexists. reflexivity.
  - cbn [snd] in Hns. destruct (invalidate_returns namespace Hns) as [namespace' Hinv].
    destruct IH as [rest' Hrest].
    cbn [TcContext.invalidate_all]. rewrite Hinv, Hrest. eexists. reflexivity.
Qed.

(** C3 (amended). [kill()] performs its teardown in the order: destroy the
    type registry, then destroy the symbol registry (which invalidates every
    handle given out), then disconnect the transport. The steps that
    complete are the first steps of this sequence, in this order, whatever
    the client answers to the disconnection; and all three complete in
    every context whose callbacks registered with [$onInvalidated]
    return. *)
Theorem C3_kill_order :
  forall (P : Type) (ads : ADS P) (ctx : TcContext.t P),
    exists new,
      TcCom.trace (TcContext.COM (snd (TcContext.kill ctx)))
      = TcCom.trace (TcContext.COM ctx) ++ new /\
      (exists rest,
          teardown new ++ rest
          = [TypesDestroyed; SymbolsDestroyed; TransportDisconnected]) /\
      (Forall (fun kn => callbacks_return (snd kn)) (TcContext.namespaces ctx) ->
       teardown new = [TypesDestroyed; SymbolsDestroyed; TransportDisconnected]).
Proof.
  intros P ads [com types namespaces released]. cbn [TcContext.namespaces].
  unfold TcContext.kill, TcContext.TcTypeRegistry_destroy,
    TcContext.TcSymbolRegistry_destroy, TcContext.onCOM, TcContext.set_types,
    TcContext.set_namespaces, TcCom.disconnect.
  unfold_monad. cbn.
  destruct (TcContext.invalidate_all namespaces) as [[[] | e] map'] eqn:Hall; cbn.
  - destruct (TcCom.connected com); cbn.
    + destruct (unsubscribeAll (TcCom.plc com)) as [p1 |]; cbn;
        match goal with
        | |- context [disconnect true ?p] => destruct (disconnect true p) as [p2 |]
        end; cbn;
        rewrite <- ?app_assoc; eexists;
        (split; [reflexivity | split; [exists []; reflexivity | intros _; reflexivity]]).
    + rewrite <- ?app_assoc. eexists.
      split; [reflexivity | split; [exists []; reflexivity | intros _; reflexivity]].
  - eexists. split; [reflexivity |]. split.
    + exists [SymbolsDestroyed; TransportDisconnected]. reflexivity.
    + intros Hcb. destruct (invalidate_all_returns namespaces Hcb) as [map'' Hok].
      rewrite Hok in Hall. discriminate.
Qed.

Lemma C3_kill_order_witness :
  exists new,
    TcCom.trace (TcContext.COM (snd (TcContext.kill sample_context)))
    = TcCom.trace (TcContext.COM sample_context) ++ new /\
    teardown new = [TypesDestroyed; SymbolsDestroyed; TransportDisconnected].
Proof.
  destruct (C3_kill_order Sample.Memory Sample.ads sample_context)
    as (new & Htrace & _ & Hall).
  exists new. split; [exact Htrace |]. apply Hall.
  vm_compute. repeat constructor.
Defined.

(** ** Clearing a composite ([TcComplexBinding.__addChild], [TcBinding.clear]) *)

Lemma addChild_packages binding key child :
  TcBinding.clearPackages (TcBinding.fields (TcBinding.addChild binding key child))
  = TcBinding.clearPackages (TcBinding.fields binding)
      ++ TcBinding.clearPackages (TcBinding.fields child) /\
  TcBinding.readPackages (TcBinding.fields (TcBinding.addChild binding key child))
  = TcBinding.readPackages (TcBinding.fields binding)
      ++ TcBinding.readPackages (TcBinding.fields child) /\
  TcBinding.children (TcBinding.addChild binding key child)
  = TcBinding.children binding ++ [(key, child)].
Proof. destruct binding as [f cls ch]. cbn. auto. Qed.

Lemma instance_struct c children rpcMethods path parentReadOnly pointer :
  TcSymbol.instance (TcType.TcStructType c children rpcMethods) path parentReadOnly pointer
  = struct_forEach path (parentReadOnly || TcType.c_readOnly c) pointer children
      (TcBinding.Node
         (TcBinding.new_TcSymbolBinding path (parentReadOnly || TcType.c_readOnly c)
            pointer (TcType.TcStructType c children rpcMethods))
         (TcBinding.TcStructureBinding rpcMethods) []).
Proof. reflexivity. Qed.

Lemma struct_forEach_packages path readOnly pointer children : forall this,
  TcBinding.clearPackages (TcBinding.fields this) = clearPackages_of_children this ->
  TcBinding.clearPackages
    (TcBinding.fields (struct_forEach path readOnly pointer children this))
  = clearPackages_of_children (struct_forEach path readOnly pointer children this).
Proof.
  induction children as [| [key type] rest IH]; intros this Hthis; [exact Hthis |].
  cbn [struct_forEach]. apply IH.
  destruct (addChild_packages this (KString key)
              (TcSymbol.instance type (path +:+ "." +:+ key) readOnly
                 {| ptr_indexGroup := ptr_indexGroup pointer;
                    ptr_indexOffset := ptr_indexOffset pointer + TcType.offset type;
                    ptr_size := TcType.size type |}))
    as (Hc & _ & Hch).
  rewrite Hc. unfold clearPackages_of_children. rewrite Hch, flat_map_app, Hthis.
  cbn. rewrite app_nil_r. reflexivity.
Qed.

(** What a structure writes on [clear()] is the concatenation of the clear
    packages of its members, in the order of declaration. *)
Lemma struct_clearPackages c children rpcMethods path parentReadOnly pointer :
  let symbol := TcSymbol.instance (TcType.TcStructType c children rpcMethods)
                  path parentReadOnly pointer in
  TcBinding.clearPackages (TcBinding.fields symbol) = clearPackages_of_children symbol.
Proof.
  cbn zeta. rewrite instance_struct. apply struct_forEach_packages. reflexivity.
Qed.

(** C1 fails on the code: the read-only member of a structure keeps its
    clear package ([TcSimpleBinding] tests only whether the type has a default
    buffer), so [clear()] on the structure, which is not read-only itself,
    also overwrites the read-only member. *)
Theorem C1_clear_overwrites_readonly_member :
  TcSymbol.readOnly Sample.normalFoo = false /\
  (exists member,
      TcBinding.lookup_child Sample.normalFoo (KString "stringValue") = Some member /\
      TcSymbol.readOnly member = true /\
      TcBinding.clearPackages (TcBinding.fields member)
      = [{| pkg_indexGroup := 16448; pkg_indexOffset := 200; pkg_data := Bytes [x00] |}]) /\
  TcBinding.clearPackages (TcBinding.fields Sample.normalFoo)
  = [{| pkg_indexGroup := 16448; pkg_indexOffset := 200; pkg_data := Bytes [x00] |};
     {| pkg_indexGroup := 16448; pkg_indexOffset := 281; pkg_data := Bytes [x00] |}] /\
  (let '(result, com) := TcBinding.clear Sample.normalFoo (Sample.com memory_before) in
   result = Ok tt /\
   Sample.load memory_before 16448 200 12 = Sample.bytes_of_string "hello world" /\
   Sample.load (TcCom.plc com) 16448 200 12 <> Sample.bytes_of_string "hello world" /\
   Sample.load (TcCom.plc com) 16448 200 1 = [x00]).
Proof.
  split; [reflexivity |]. split.
  - eexists. split; [vm_compute; reflexivity |]. split; reflexivity.
  - split; [vm_compute; reflexivity |].
    vm_compute. repeat split. discriminate.
Qed.

(** ** Growth of a namespace ([TcNamespaceBinding.__addChild]) *)

(** C5 fails on the code: a child that starts where the interval of the
    namespace ends (the usual layout of consecutive variables) does not
    extend the interval, because the test compares the end of the interval
    with the start of the child. [GVL.a] is at [100, 102) and [GVL.b] at
    [102, 104); the namespace keeps the size 2. *)
Theorem C5_adjacent_child_not_covered :
  child_offsets Sample.GVL = [100; 102] /\
  child_ends Sample.GVL = [102; 104] /\
  TcBinding.indexGroup (TcBinding.fields Sample.GVL) = 16448 /\
  TcBinding.indexOffset (TcBinding.fields Sample.GVL) = 100 /\
  TcBinding.size (TcBinding.fields Sample.GVL) = 2 /\
  maximum (child_ends Sample.GVL) - minimum (child_offsets Sample.GVL) = 4 /\
  ~ spans_children Sample.GVL.
Proof.
  repeat split; try reflexivity.
  intros [_ H]. vm_compute in H. discriminate.
Qed.

(** The part of C5 on the index group: once the namespace has a group (a
    non-zero one), a child of another group is refused with an [Error], and
    an accepted child has the group of the namespace. *)
Lemma namespace_addChild_group key child namespace :
  TcBinding.indexGroup (TcBinding.fields namespace) <> 0 ->
  (TcBinding.indexGroup (TcBinding.fields child)
   <> TcBinding.indexGroup (TcBinding.fields namespace) ->
   fst (TcBinding.namespace_addChild key child namespace)
   = Throw (JsError "IndexGroup of Namespace is invalid. Unsupported situation")) /\
  (forall u namespace',
      TcBinding.namespace_addChild key child namespace = (Ok u, namespace') ->
      TcBinding.indexGroup (TcBinding.fields child)
      = TcBinding.indexGroup (TcBinding.fields namespace) /\
      TcBinding.indexGroup (TcBinding.fields namespace')
      = TcBinding.indexGroup (TcBinding.fields namespace)).
Proof.
  destruct namespace as [f cls ch]. cbn [TcBinding.fields]. intros Hg.
  unfold TcBinding.namespace_addChild. cbn [TcBinding.addChild].
  cbn -[Z.eqb Z.ltb].
  destruct (Z.eqb_spec (TcBinding.indexGroup f) 0) as [H0 | _]; [contradiction |].
  destruct (Z.eqb_spec (TcBinding.indexGroup f)
              (TcBinding.indexGroup (TcBinding.fields child))) as [Heq | Hne];
    cbn -[Z.eqb Z.ltb].
  - split; [intros Hd; congruence |].
    intros u namespace' H.
    destruct (TcBinding.indexOffset f =? 0);
      [| destruct (TcBinding.indexOffset f + TcBinding.size f
                   <? TcBinding.indexOffset (TcBinding.fields child));
         [| destruct (TcBinding.indexOffset (TcBinding.fields child)
                      <? TcBinding.indexOffset f)]];
      inversion H; subst; cbn; auto.
  - split; [reflexivity |]. intros u namespace' H. discriminate.
Qed.

(** ** The [Default] attribute of a string ([TcStringType.__getParameter]) *)

(** Whatever the value of the attribute, a string type takes the boolean
    [true] as its default. *)
Lemma string_default_attribute `{JsRuntime} c length name value :
  toLowerCase (trim name) = "default" ->
  TcType.defaultValue (TcType.__getParameter (TcType.TcStringType c length) name value)
  = Some (VBoolean true).
Proof.
  intros Hname. cbn [TcType.__getParameter]. rewrite Hname. reflexivity.
Qed.

(** C9 fails on the code: the attribute [Default := 'hello world'] on a
    [STRING(50)] symbol sets the default value of its type to the boolean
    [true], not to the string; the default buffer is the encoding of [true],
    and [clear()] writes it. After [clear()] the symbol does not read
    ['hello world']. *)
Theorem C9_string_default_is_true :
  TcType.defaultValue Sample.stringValue_type = Some (VBoolean true) /\
  TcType.defaultValue Sample.stringValue_type <> Some (VString "hello world") /\
  TcType.defaultBuffer Sample.stringValue_type
  = convertToRaw (VBoolean true) "STRING(50)" /\
  (let '(cleared, com) := TcBinding.clear Sample.stringValue (Sample.com ∅) in
   cleared = Ok tt /\
   TcCom.trace com
   = [Call (CallWriteRawMulti
              [{| pkg_indexGroup := 16448; pkg_indexOffset := 300; pkg_data := Bytes [x01] |}])] /\
   fst (TcBinding.read Sample.stringValue com) <> Ok (VString "hello world")).
Proof.
  split; [vm_compute; reflexivity |].
  split; [vm_compute; discriminate |].
  split; [vm_compute; reflexivity |].
  vm_compute. repeat split. discriminate.
Qed.

(** ** Numeric bounds ([TcNumericBinding.checkInput]) *)








Section NumericBounds.
Context {P : Type} `{ADS P} `{JsRuntime}.
Variables (f : TcBinding.Fields) (type : string) (defaultValue : option Buffer)
  (adst : Z) (upperBorder lowerBorder : Numeric) (children : list (Key * TcBinding.t)).

Let binding : TcBinding.t :=
  TcBinding.Node f (TcBinding.TcNumericBinding type defaultValue adst
                      upperBorder lowerBorder) children.




End NumericBounds.




(** ** Partial writes on structures and namespaces ([toRaw]) *)

Section Quiet.
Context {P : Type} `{ADS P} `{JsRuntime}.
Implicit Types com : TcCom.t P.

Lemma quiet_refl com : quiet com com.
Proof.
  repeat split. exists []. rewrite app_nil_r. split; [reflexivity | constructor].
Qed.

Lemma quiet_trans (a b c : TcCom.t P) : quiet a b -> quiet b c -> quiet a c.
Proof.
  intros (Hp1 & Hc1 & n1 & Ht1 & Hf1) (Hp2 & Hc2 & n2 & Ht2 & Hf2).
  repeat split; try congruence.
  exists (n1 ++ n2). split.
  - rewrite Ht2, Ht1, app_assoc. reflexivity.
  - apply Forall_app. split; assumption.
Qed.

Lemma quiet_written (a b : TcCom.t P) : quiet a b -> written (TcCom.trace b) = written (TcCom.trace a).
Proof.
  intros (_ & _ & new & Ht & Hf). rewrite Ht. unfold written.
  rewrite flat_map_app.
  assert (Hnil : flat_map (fun o => match o with
                                    | Call (CallWriteRawMulti dst) => dst
                                    | _ => []
                                    end) new = []).
  { clear Ht. induction Hf as [| o rest Ho _ IH]; [reflexivity |].
    cbn [flat_map]. rewrite IH.
    destruct o as [[] |]; simpl in Ho; try (exfalso; exact Ho); reflexivity. }
  rewrite Hnil. apply app_nil_r.
Qed.

Lemma TcCom_toRaw_quiet type value com :
  quiet com (snd (TcCom.toRaw type value com)).
Proof.
  unfold TcCom.toRaw. unfold_monad. destruct com as [connected plc trace].
  cbn. destruct connected; cbn; [| apply quiet_refl].
  destruct (convertToRaw value type); cbn;
    (repeat split; eexists; split; [reflexivity |]; repeat constructor).
Qed.

Lemma lift_bind {A B} (r : Result A) (k : A -> M (TcCom.t P) B) com :
  bind (lift r) k com =
  match r with Ok a => k a com | Throw e => (Throw e, com) end.
Proof. unfold bind, lift. destruct r; reflexivity. Qed.

Lemma simple_toRaw_quiet this type value com :
  quiet com (snd (TcBinding.TcSimpleBinding_toRaw this type value com)).
Proof.
  unfold TcBinding.TcSimpleBinding_toRaw. rewrite lift_bind.
  destruct (TcBinding.checkInput this value); [| apply quiet_refl].
  unfold bind. pose proof (TcCom_toRaw_quiet type value com) as Hq.
  destruct (TcCom.toRaw type value com) as [[buffer | e] com']; exact Hq.
Qed.

Lemma enum_toRaw_quiet this buffers value com :
  snd (TcBinding.TcEnumBinding_toRaw this buffers value com) = com.
Proof.
  unfold TcBinding.TcEnumBinding_toRaw. rewrite lift_bind.
  destruct (TcBinding.TcSimpleBinding_checkInput (TcBinding.fields this) value);
    [| reflexivity].
  destruct value; try reflexivity.
  destruct (TcBinding.buffers_get buffers s); reflexivity.
Qed.

Lemma struct_loop_quiet this entries :
  Forall (fun kv => forall b com, quiet com (snd (TcBinding.toRaw (snd kv) b com)))
    entries ->
  forall promises com, quiet com (snd (struct_loop this entries promises com)).
Proof.
  induction 1 as [| [k x] rest Hx _ IH]; intros promises com.
  - apply quiet_refl.
  - cbn [struct_loop].
    assert (Hstep : quiet com
              (snd (match TcBinding.lookup_child this (KString k) with
                    | Some child =>
                        let* p := settle (TcBinding.toRaw x child) in
                        struct_loop this rest (promises ++ [p])
                    | None =>
                        if inherited k then throw JsTypeError
                        else throw TcBindingOutOfRangeException
                    end com))).
    { destruct (TcBinding.lookup_child this (KString k)) as [child |];
        [| destruct (inherited k); apply quiet_refl].
      unfold bind, settle. cbn [snd] in Hx. specialize (Hx child com).
      destruct (TcBinding.toRaw x child com) as [r com1]. cbn [snd] in Hx.
      eapply quiet_trans; [exact Hx | apply IH]. }
    destruct x; first [exact Hstep | apply quiet_refl].
Qed.

Lemma array_loop_quiet this startIndex items :
  Forall (fun x => forall b com, quiet com (snd (TcBinding.toRaw x b com))) items ->
  forall index promises com,
    quiet com (snd (array_loop this startIndex items index promises com)).
Proof.
  induction 1 as [| x rest Hx _ IH]; intros index promises com.
  - apply quiet_refl.
  - cbn [array_loop].
    destruct (TcBinding.lookup_child this (KIndex (index + startIndex))) as [child |];
      [| apply quiet_refl].
    unfold bind, settle. specialize (Hx child com).
    destruct (TcBinding.toRaw x child com) as [r com1]. cbn [snd] in Hx.
    eapply quiet_trans; [exact Hx | apply IH].
Qed.

Lemma toRaw_struct_unfold entries this :
  match TcBinding.class this with
  | TcBinding.TcStructureBinding _ | TcBinding.TcNamespaceBinding => True
  | _ => False
  end ->
  TcBinding.toRaw (VObject entries) this =
  (lift (TcBinding.checkInput this (VObject entries)) >>
   let* promises := struct_loop this entries [] in
   let* dataPackages := lift (Promise_all promises) in
   ret (concat dataPackages)).
Proof.
  intros Hcls. cbn [TcBinding.toRaw].
  destruct (TcBinding.class this); try contradiction; reflexivity.
Qed.

Lemma toRaw_array_unfold items this startIndex length :
  TcBinding.class this = TcBinding.TcArrayBinding startIndex length ->
  TcBinding.toRaw (VArray items) this =
  (lift (TcBinding.checkInput this (VArray items)) >>
   let* promises := array_loop this startIndex items 0 [] in
   let* dataPackages := lift (Promise_all promises) in
   ret (concat dataPackages)).
Proof.
  intros Hcls. cbn [TcBinding.toRaw]. rewrite Hcls. reflexivity.
Qed.

(** [toRaw] calls the encoder and nothing else. *)
Lemma toRaw_quiet value : forall this com,
  quiet com (snd (TcBinding.toRaw value this com)).
Proof.
  induction value as [| b | q | z | s | entries IH | items IH] using Value_ind';
    intros this com.
  1-5: cbn [TcBinding.toRaw]; destruct (TcBinding.class this);
    try apply simple_toRaw_quiet;
    try (rewrite enum_toRaw_quiet; apply quiet_refl);
    rewrite lift_bind; destruct (TcBinding.checkInput this _); apply quiet_refl.
  - destruct (TcBinding.class this) eqn:Hcls.
    1-3: cbn [TcBinding.toRaw]; rewrite Hcls; apply simple_toRaw_quiet.
    + cbn [TcBinding.toRaw]; rewrite Hcls.
      rewrite enum_toRaw_quiet. apply quiet_refl.
    + rewrite toRaw_struct_unfold by (rewrite Hcls; exact I).
      rewrite lift_bind. destruct (TcBinding.checkInput this _); [| apply quiet_refl].
      unfold bind at 1. pose proof (struct_loop_quiet this entries IH [] com) as Hq.
      destruct (struct_loop this entries [] com) as [[promises | e] com1];
        cbn [snd] in Hq; [| exact Hq].
      rewrite lift_bind. destruct (Promise_all promises); exact Hq.
    + cbn [TcBinding.toRaw]; rewrite Hcls.
      rewrite lift_bind. destruct (TcBinding.checkInput this _); apply quiet_refl.
    + rewrite toRaw_struct_unfold by (rewrite Hcls; exact I).
      rewrite lift_bind. destruct (TcBinding.checkInput this _); [| apply quiet_refl].
      unfold bind at 1. pose proof (struct_loop_quiet this entries IH [] com) as Hq.
      destruct (struct_loop this entries [] com) as [[promises | e] com1];
        cbn [snd] in Hq; [| exact Hq].
      rewrite lift_bind. destruct (Promise_all promises); exact Hq.
  - destruct (TcBinding.class this) eqn:Hcls.
    1-3: cbn [TcBinding.toRaw]; rewrite Hcls; apply simple_toRaw_quiet.
    + cbn [TcBinding.toRaw]; rewrite Hcls.
      rewrite enum_toRaw_quiet. apply quiet_refl.
    + cbn [TcBinding.toRaw]; rewrite Hcls.
      rewrite lift_bind. destruct (TcBinding.checkInput this _); apply quiet_refl.
    + rewrite (toRaw_array_unfold items this _ _ Hcls).
      rewrite lift_bind. destruct (TcBinding.checkInput this _); [| apply quiet_refl].
      unfold bind at 1.
      pose proof (array_loop_quiet this startIndex items IH 0 [] com) as Hq.
      destruct (array_loop this startIndex items 0 [] com) as [[promises | e] com1];
        cbn [snd] in Hq; [| exact Hq].
      rewrite lift_bind. destruct (Promise_all promises); exact Hq.
    + cbn [TcBinding.toRaw]; rewrite Hcls.
      rewrite lift_bind. destruct (TcBinding.checkInput this _); apply quiet_refl.
Qed.

End Quiet.

(** A child found under a key is one of the children of the binding. *)
Lemma js_set_In {A} (obj : list (Key * A)) key v x :
  In x (map snd (TcBinding.js_set obj key v)) -> In x (map snd obj) \/ x = v.
Proof.
  induction obj as [| [k y] rest IH]; cbn.
  - intros [-> | []]. auto.
  - destruct (Key_eqb k key); cbn; intros [Hx | Hx]; auto.
    destruct (IH Hx); auto.
Qed.

Lemma childrenBindings_In {A} (ch : list (Key * A)) x :
  In x (map snd (TcBinding.childrenBindings ch)) -> In x (map snd ch).
Proof.
  unfold TcBinding.childrenBindings.
  assert (Hgen : forall acc,
             In x (map snd (fold_left (fun obj kv => TcBinding.js_set obj (fst kv) (snd kv))
                              ch acc)) ->
             In x (map snd acc) \/ In x (map snd ch)).
  { induction ch as [| [k y] rest IH]; intros acc Hin; cbn in *; [auto |].
    destruct (IH _ Hin) as [Hacc | Hrest]; [| auto].
    destruct (js_set_In _ _ _ _ Hacc); auto. }
  intros Hin. destruct (Hgen [] Hin) as [[] | Hch]. exact Hch.
Qed.

Lemma js_keep_In {A} (obj : list (Key * A)) key v x :
  In x (map snd (TcBinding.js_keep obj key v)) -> In x (map snd obj) \/ x = v.
Proof.
  induction obj as [| [k y] rest IH]; cbn.
  - intros [-> | []]. auto.
  - destruct (Key_eqb k key); cbn; intros [Hx | Hx]; auto.
    destruct (IH Hx); auto.
Qed.

Lemma namespaceBindings_In {A} (ch : list (Key * A)) x :
  In x (map snd (TcBinding.namespaceBindings ch)) -> In x (map snd ch).
Proof.
  unfold TcBinding.namespaceBindings.
  assert (Hgen : forall acc,
             In x (map snd (fold_left (fun obj kv => TcBinding.js_keep obj (fst kv) (snd kv))
                              ch acc)) ->
             In x (map snd acc) \/ In x (map snd ch)).
  { induction ch as [| [k y] rest IH]; intros acc Hin; cbn in *; [auto |].
    destruct (IH _ Hin) as [Hacc | Hrest]; [| auto].
    destruct (js_keep_In _ _ _ _ Hacc); auto. }
  intros Hin. destruct (Hgen [] Hin) as [[] | Hch]. exact Hch.
Qed.

Lemma registered_In {A} cls (ch : list (Key * A)) x :
  In x (map snd (TcBinding.registered cls ch)) -> In x (map snd ch).
Proof.
  destruct cls; cbn [TcBinding.registered];
    first [apply childrenBindings_In | apply namespaceBindings_In].
Qed.

Lemma lookup_child_In this key child :
  TcBinding.lookup_child this key = Some child ->
  In child (map snd (TcBinding.children this)).
Proof.
  unfold TcBinding.lookup_child, TcBinding.js_get. intros Hget.
  apply (registered_In (TcBinding.class this)).
  destruct (find _ _) as [[k c] |] eqn:Hfind; [| discriminate].
  inversion Hget; subst. apply find_some in Hfind as [Hin _].
  apply in_map_iff. exists (k, child). auto.
Qed.

Lemma leaf_addresses_composite f cls ch :
  is_composite cls = true ->
  leaf_addresses (TcBinding.Node f cls ch)
  = flat_map (fun kc => leaf_addresses (snd kc)) ch.
Proof.
  intros Hcls.
  assert (Heach : (fix each (ch : list (Key * TcBinding.t)) : list (Z * Z) :=
                     match ch with
                     | [] => []
                     | (_, child) :: rest => leaf_addresses child ++ each rest
                     end) ch = flat_map (fun kc => leaf_addresses (snd kc)) ch).
  { induction ch as [| [k c] rest IH]; [reflexivity |].
    cbn [flat_map snd]. rewrite <- IH. reflexivity. }
  destruct cls; try discriminate; cbn [leaf_addresses]; exact Heach.
Qed.

Lemma leaf_addresses_child this key child a :
  is_composite (TcBinding.class this) = true ->
  TcBinding.lookup_child this key = Some child ->
  In a (leaf_addresses child) -> In a (leaf_addresses this).
Proof.
  intros Hcls Hlookup Ha. apply lookup_child_In in Hlookup.
  destruct this as [f cls ch]. cbn [TcBinding.class TcBinding.children] in *.
  rewrite leaf_addresses_composite by exact Hcls.
  apply in_flat_map. apply in_map_iff in Hlookup as ([k c] & Hc & Hin).
  cbn in Hc. subst c. exists (k, child). auto.
Qed.

Lemma Promise_all_Ok {A} (settled : list (Result A)) parts :
  Promise_all settled = Ok parts -> settled = map Ok parts.
Proof.
  revert parts. induction settled as [| [a | e] rest IH]; intros parts Hall; cbn in Hall.
  - inversion Hall. reflexivity.
  - destruct (Promise_all rest) as [l | e]; [| discriminate].
    inversion Hall; subst. cbn. f_equal. apply IH. reflexivity.
  - discriminate.
Qed.

Section PartialWrite.
Context {P : Type} `{ADS P} `{JsRuntime}.
Implicit Types com : TcCom.t P.

Lemma struct_loop_Ok this k x rest promises com promises' com' :
  struct_loop this ((k, x) :: rest) promises com = (Ok promises', com') ->
  offence this (k, x) = None /\
  exists child,
    TcBinding.lookup_child this (KString k) = Some child /\
    struct_loop this rest (promises ++ [fst (TcBinding.toRaw x child com)])
      (snd (TcBinding.toRaw x child com)) = (Ok promises', com').
Proof.
  cbn [struct_loop]. unfold offence. cbn [fst snd]. intros Hloop.
  assert (Hstep : match TcBinding.lookup_child this (KString k) with
                  | Some child =>
                      (let* p := settle (TcBinding.toRaw x child) in
                       struct_loop this rest (promises ++ [p])) com
                  | None =>
                      (if inherited k then throw JsTypeError
                       else throw TcBindingOutOfRangeException) com
                  end = (Ok promises', com') /\ x <> VUndefined).
  { destruct x; first [discriminate | split; [| discriminate]];
      destruct (TcBinding.lookup_child this (KString k)); exact Hloop. }
  destruct Hstep as [Hstep Hx].
  destruct (TcBinding.lookup_child this (KString k)) as [child |];
    [| destruct (inherited k); discriminate].
  split; [destruct x; first [reflexivity | contradiction] |].
  exists child. split; [reflexivity |].
  unfold bind, settle in Hstep.
  destruct (TcBinding.toRaw x child com) as [r com1]. exact Hstep.
Qed.

Lemma struct_loop_owned this entries :
  Forall (fun kv => toRaw_addressed (snd kv)) entries ->
  forall promises com promises' com',
    struct_loop this entries promises com = (Ok promises', com') ->
    exists new,
      promises' = promises ++ new /\
      Forall (fun r => forall part, r = Ok part -> Forall (owned_by this entries) part)
        new.
Proof.
  induction 1 as [| [k x] rest Hx _ IH]; intros promises com promises' com' Hloop.
  - cbn in Hloop. inversion Hloop; subst. exists []. rewrite app_nil_r.
    split; [reflexivity | constructor].
  - apply struct_loop_Ok in Hloop as (_ & child & Hchild & Hloop).
    destruct (TcBinding.toRaw x child com) as [r com1] eqn:HtoRaw.
    cbn [fst snd] in Hloop.
    destruct (IH _ _ _ _ Hloop) as (new & Hnew & Howned).
    exists (r :: new). split; [rewrite Hnew, <- app_assoc; reflexivity |].
    constructor.
    + intros part ->. cbn [snd] in Hx.
      specialize (Hx child com part com1 HtoRaw).
      eapply Forall_impl; [exact Hx |].
      intros p Hp. exists k, x, child. cbn. auto.
    + eapply Forall_impl; [exact Howned |].
      intros r' Hr' part Hpart. eapply Forall_impl; [exact (Hr' part Hpart) |].
      intros p (k' & x' & c' & Hin & Hl & Ha). exists k', x', c'. cbn. auto.
Qed.

Lemma array_loop_addressed this startIndex items :
  is_composite (TcBinding.class this) = true ->
  Forall toRaw_addressed items ->
  forall index promises com promises' com',
    array_loop this startIndex items index promises com = (Ok promises', com') ->
    exists new,
      promises' = promises ++ new /\
      Forall (fun r => forall part, r = Ok part -> Forall (addressed_below this) part)
        new.
Proof.
  intros Hcls. induction 1 as [| x rest Hx _ IH];
    intros index promises com promises' com' Hloop.
  - cbn in Hloop. inversion Hloop; subst. exists []. rewrite app_nil_r.
    split; [reflexivity | constructor].
  - cbn [array_loop] in Hloop.
    destruct (TcBinding.lookup_child this (KIndex (index + startIndex)))
      as [child |] eqn:Hchild; [| discriminate].
    unfold bind, settle in Hloop.
    destruct (TcBinding.toRaw x child com) as [r com1] eqn:HtoRaw.
    destruct (IH _ _ _ _ _ Hloop) as (new & Hnew & Howned).
    exists (r :: new). split; [rewrite Hnew, <- app_assoc; reflexivity |].
    constructor; [| exact Howned].
    intros part ->. specialize (Hx child com part com1 HtoRaw).
    eapply Forall_impl; [exact Hx |].
    intros p Hp. eapply leaf_addresses_child; eauto.
Qed.


Lemma array_loop_handled this startIndex items :
  forall index promises com promises' com',
    array_loop this startIndex items index promises com = (Ok promises', com') ->
    exists new,
      promises' = promises ++ new /\
      forall packages, new = map Ok packages ->
                       handled this (elements startIndex index items) com packages com'.
Proof.
  induction items as [| x rest IH]; intros index promises com promises' com' Hloop.
  - cbn in Hloop. inversion Hloop; subst. exists []. rewrite app_nil_r.
    split; [reflexivity |]. intros [| part packages] Heq; [reflexivity | discriminate].
  - cbn [array_loop] in Hloop.
    destruct (TcBinding.lookup_child this (KIndex (index + startIndex)))
      as [child |] eqn:Hchild; [| discriminate].
    unfold bind, settle in Hloop.
    destruct (TcBinding.toRaw x child com) as [r com1] eqn:HtoRaw.
    destruct (IH _ _ _ _ _ Hloop) as (new & Hnew & Hhandled).
    exists (r :: new). split; [rewrite Hnew, <- app_assoc; reflexivity |].
    intros [| part packages] Heq; [discriminate |].
    cbn [map] in Heq. inversion Heq; subst r new.
    cbn [elements handled]. exists child, com1.
    split; [exact Hchild |]. split; [exact HtoRaw |]. apply Hhandled. reflexivity.
Qed.

Lemma concat_parts {A} (Q : A -> Prop) (new : list (Result (list A))) parts :
  new = map Ok parts ->
  Forall (fun r => forall part, r = Ok part -> Forall Q part) new ->
  Forall Q (concat parts).
Proof.
  intros -> Hall. induction parts as [| part rest IH]; cbn; [constructor |].
  inversion Hall as [| ? ? Hpart Hrest]; subst.
  apply Forall_app. split; [apply Hpart; reflexivity | apply IH; exact Hrest].
Qed.

Lemma owned_addressed this entries p :
  is_composite (TcBinding.class this) = true ->
  owned_by this entries p -> addressed_below this p.
Proof.
  intros Hcls (k & x & child & _ & Hl & Ha). eapply leaf_addresses_child; eauto.
Qed.

(** The packages of a structure or namespace conversion belong to the
    members that are present in the value. *)
Lemma struct_toRaw_owned this entries com dataPackages com' :
  match TcBinding.class this with
  | TcBinding.TcStructureBinding _ | TcBinding.TcNamespaceBinding => True
  | _ => False
  end ->
  Forall (fun kv => toRaw_addressed (snd kv)) entries ->
  TcBinding.toRaw (VObject entries) this com = (Ok dataPackages, com') ->
  Forall (owned_by this entries) dataPackages.
Proof.
  intros Hcls Hentries HtoRaw.
  rewrite (toRaw_struct_unfold entries this Hcls) in HtoRaw.
  rewrite lift_bind in HtoRaw.
  destruct (TcBinding.checkInput this (VObject entries)); [| discriminate].
  unfold bind at 1 in HtoRaw.
  destruct (struct_loop this entries [] com) as [[promises | e] com1] eqn:Hloop;
    [| discriminate].
  rewrite lift_bind in HtoRaw.
  destruct (Promise_all promises) as [parts | e] eqn:Hall; [| discriminate].
  unfold ret in HtoRaw. inversion HtoRaw; subst.
  destruct (struct_loop_owned this entries Hentries _ _ _ _ Hloop)
    as (new & Hnew & Howned).
  cbn in Hnew. subst new. eapply concat_parts; [| exact Howned].
  apply Promise_all_Ok. exact Hall.
Qed.


Lemma array_toRaw_handled this startIndex length items com dataPackages com' :
  TcBinding.class this = TcBinding.TcArrayBinding startIndex length ->
  TcBinding.toRaw (VArray items) this com = (Ok dataPackages, com') ->
  exists packages,
    handled this (elements startIndex 0 items) com packages com' /\
    dataPackages = concat packages.
Proof.
  intros Hcls HtoRaw.
  rewrite (toRaw_array_unfold items this _ _ Hcls) in HtoRaw.
  rewrite lift_bind in HtoRaw.
  destruct (TcBinding.checkInput this (VArray items)); [| discriminate].
  unfold bind at 1 in HtoRaw.
  destruct (array_loop this startIndex items 0 [] com) as [[promises | e] com1]
    eqn:Hloop; [| discriminate].
  rewrite lift_bind in HtoRaw.
  destruct (Promise_all promises) as [parts | e] eqn:Hall; [| discriminate].
  unfold ret in HtoRaw. inversion HtoRaw; subst.
  destruct (array_loop_handled this startIndex items _ _ _ _ _ Hloop)
    as (new & Hnew & Hhandled).
  cbn in Hnew. subst new. exists parts. split; [| reflexivity].
  apply Hhandled. apply Promise_all_Ok. exact Hall.
Qed.

Lemma simple_toRaw_addressed f cls ch type value com dataPackages com' :
  is_composite cls = false ->
  TcBinding.TcSimpleBinding_toRaw (TcBinding.Node f cls ch) type value com
  = (Ok dataPackages, com') ->
  Forall (addressed_below (TcBinding.Node f cls ch)) dataPackages.
Proof.
  intros Hcls. unfold TcBinding.TcSimpleBinding_toRaw. rewrite lift_bind.
  destruct (TcBinding.checkInput _ _); [| discriminate].
  unfold bind. destruct (TcCom.toRaw type value com) as [[buffer | e] com1];
    [| discriminate].
  unfold ret. intros Heq. inversion Heq; subst.
  constructor; [| constructor].
  unfold addressed_below. destruct cls; try discriminate; cbn; auto.
Qed.

Lemma enum_toRaw_addressed f cls ch buffers value com dataPackages com' :
  is_composite cls = false ->
  TcBinding.TcEnumBinding_toRaw (TcBinding.Node f cls ch) buffers value com
  = (Ok dataPackages, com') ->
  Forall (addressed_below (TcBinding.Node f cls ch)) dataPackages.
Proof.
  intros Hcls. unfold TcBinding.TcEnumBinding_toRaw. rewrite lift_bind.
  destruct (TcBinding.TcSimpleBinding_checkInput _ _); [| discriminate].
  destruct value; try discriminate.
  destruct (TcBinding.buffers_get buffers s); [| discriminate].
  unfold ret. intros Heq. inversion Heq; subst.
  constructor; [| constructor].
  unfold addressed_below. destruct cls; try discriminate; cbn; auto.
Qed.

(** Every package that [toRaw] returns is addressed to a leaf at or below
    the binding. *)
Lemma toRaw_addresses value : toRaw_addressed value.
Proof.
  induction value as [| b | q | z | s | entries IH | items IH] using Value_ind';
    intros [f cls ch] com dataPackages com' HtoRaw.
  1-5: cbn [TcBinding.toRaw TcBinding.class] in HtoRaw; destruct cls;
    try (eapply simple_toRaw_addressed; [| exact HtoRaw]; reflexivity);
    try (eapply enum_toRaw_addressed; [| exact HtoRaw]; reflexivity);
    rewrite lift_bind in HtoRaw;
    destruct (TcBinding.checkInput _ _); discriminate.
  - destruct cls eqn:Hcls.
    1-3: cbn [TcBinding.toRaw TcBinding.class] in HtoRaw;
      eapply simple_toRaw_addressed; [| exact HtoRaw]; reflexivity.
    + cbn [TcBinding.toRaw TcBinding.class] in HtoRaw.
      eapply enum_toRaw_addressed; [| exact HtoRaw]; reflexivity.
    + match type of HtoRaw with
      | TcBinding.toRaw _ ?this _ = _ =>
          pose proof (struct_toRaw_owned this entries com dataPackages com' I IH
                        HtoRaw) as Howned
      end.
      eapply Forall_impl; [exact Howned |].
      intros p Hp. eapply owned_addressed; [reflexivity | exact Hp].
    + cbn [TcBinding.toRaw TcBinding.class] in HtoRaw.
      rewrite lift_bind in HtoRaw. destruct (TcBinding.checkInput _ _); discriminate.
    + match type of HtoRaw with
      | TcBinding.toRaw _ ?this _ = _ =>
          pose proof (struct_toRaw_owned this entries com dataPackages com' I IH
                        HtoRaw) as Howned
      end.
      eapply Forall_impl; [exact Howned |].
      intros p Hp. eapply owned_addressed; [reflexivity | exact Hp].
  - destruct cls eqn:Hcls.
    1-3: cbn [TcBinding.toRaw TcBinding.class] in HtoRaw;
      eapply simple_toRaw_addressed; [| exact HtoRaw]; reflexivity.
    + cbn [TcBinding.toRaw TcBinding.class] in HtoRaw.
      eapply enum_toRaw_addressed; [| exact HtoRaw]; reflexivity.
    + cbn [TcBinding.toRaw TcBinding.class] in HtoRaw.
      rewrite lift_bind in HtoRaw. destruct (TcBinding.checkInput _ _); discriminate.
    + rewrite (toRaw_array_unfold items
                 (TcBinding.Node f (TcBinding.TcArrayBinding startIndex length) ch)
                 startIndex length eq_refl) in HtoRaw.
      rewrite lift_bind in HtoRaw.
      destruct (TcBinding.checkInput _ _); [| discriminate].
      unfold bind at 1 in HtoRaw.
      destruct (array_loop _ startIndex items 0 [] com) as [[promises | e] com1]
        eqn:Hloop; [| discriminate].
      rewrite lift_bind in HtoRaw.
      destruct (Promise_all promises) as [parts | e] eqn:Hall; [| discriminate].
      unfold ret in HtoRaw. inversion HtoRaw; subst.
      destruct (array_loop_addressed
                  (TcBinding.Node f (TcBinding.TcArrayBinding startIndex length) ch)
                  startIndex items eq_refl IH _ _ _ _ _ Hloop)
        as (new & Hnew & Howned).
      cbn in Hnew. subst new. eapply concat_parts; [| exact Howned].
      apply Promise_all_Ok. exact Hall.
    + cbn [TcBinding.toRaw TcBinding.class] in HtoRaw.
      rewrite lift_bind in HtoRaw. destruct (TcBinding.checkInput _ _); discriminate.
Qed.

End PartialWrite.

Lemma written_app a b : written (a ++ b) = written a ++ written b.
Proof. unfold written. apply flat_map_app. Qed.

Lemma written_write_calls groups : written (write_calls groups) = concat groups.
Proof.
  induction groups as [| g rest IH]; [reflexivity |].
  change (write_calls (g :: rest)) with ([Call (CallWriteRawMulti g)] ++ write_calls rest).
  rewrite written_app, IH. cbn. rewrite app_nil_r. reflexivity.
Qed.

Lemma splitData_singleton {A} (x : A) : TcCom.__splitData [x] = [[x]].
Proof.
  unfold TcCom.__splitData. rewrite splitData_loop_unfold. reflexivity.
Qed.

Section WriteCalls.
Context {P : Type} `{ADS P} `{JsRuntime}.
Implicit Types com : TcCom.t P.

Lemma TcCom_write_connected dataPackages com u com' :
  TcCom.write dataPackages com = (Ok u, com') -> TcCom.connected com = true.
Proof.
  unfold TcCom.write. unfold_monad.
  destruct (TcCom.connected com); [reflexivity | discriminate].
Qed.

Lemma TcCom_read_connected pointer com result com' :
  TcCom.read pointer com = (Ok result, com') ->
  TcCom.connected com = true /\ TcCom.connected com' = true.
Proof.
  unfold TcCom.read. unfold_monad.
  destruct (TcCom.connected com) eqn:Hc; [| discriminate].
  intros Hr. split; [reflexivity |].
  destruct (read_groups_trace (TcCom.__splitData pointer) com [])
    as (k & _ & _ & Hconn & _).
  rewrite Hr in Hconn. cbn in Hconn. congruence.
Qed.

Lemma write_unfold this value com :
  TcBinding.isValid (TcBinding.fields this) = true ->
  TcBinding.write this value com =
  match TcBinding.toRaw value this com with
  | (Ok dataPackages, com1) => (TcCom.write dataPackages >> ret value) com1
  | (Throw e, com1) => (Throw e, com1)
  end.
Proof. intros Hvalid. unfold TcBinding.write. rewrite Hvalid. reflexivity. Qed.

Lemma read_unfold this com :
  TcBinding.isValid (TcBinding.fields this) = true ->
  TcBinding.read this com =
  match TcCom.read (TcBinding.readPackages (TcBinding.fields this)) com with
  | (Ok dataPackages, com1) => TcBinding.fromRaw this dataPackages com1
  | (Throw e, com1) => (Throw e, com1)
  end.
Proof. intros Hvalid. unfold TcBinding.read. rewrite Hvalid. reflexivity. Qed.

(** A write that succeeds hands to the transport exactly the packages
    that [toRaw] returned. *)
Lemma write_ok_written this value com result com' :
  TcBinding.write this value com = (Ok result, com') ->
  exists dataPackages com1,
    TcBinding.toRaw value this com = (Ok dataPackages, com1) /\
    written (TcCom.trace com') = written (TcCom.trace com) ++ dataPackages.
Proof.
  unfold TcBinding.write.
  destruct (TcBinding.isValid (TcBinding.fields this)); cbn [negb];
    [| discriminate].
  unfold bind at 1.
  pose proof (toRaw_quiet value this com) as Hq.
  destruct (TcBinding.toRaw value this com) as [[dataPackages | e] com1];
    [| discriminate].
  cbn [snd] in Hq. unfold bind, ret.
  destruct (TcCom.write dataPackages com1) as [[u | e] com2] eqn:Hw; [| discriminate].
  intros Heq. inversion Heq; subst. exists dataPackages, com1.
  split; [reflexivity |].
  rewrite (write_trace _ _ _ _ (TcCom_write_connected _ _ _ _ Hw) Hw).
  rewrite written_app, written_write_calls, (quiet_written _ _ Hq).
  f_equal. apply splitData_spec.
Qed.




End WriteCalls.




(** ** Enum bindings ([TcEnumBinding.toRaw], [TcEnumBinding.fromRaw]) *)

Section EnumBinding.
Context {P : Type} `{ADS P} `{JsRuntime}.
Implicit Types com : TcCom.t P.
Variables (f : TcBinding.Fields) (type : string) (defaultValue : option Buffer)
  (fields : list string) (buffers : gmap string Buffer)
  (children : list (Key * TcBinding.t)).

Let binding : TcBinding.t :=
  TcBinding.Node f (TcBinding.TcEnumBinding type defaultValue fields buffers) children.

Hypothesis Hvalid : TcBinding.isValid f = true.
Hypothesis Hro : TcBinding.readOnly f = false.

Lemma enum_toRaw s com :
  TcBinding.toRaw (VString s) binding com =
  match TcBinding.buffers_get buffers s with
  | Some data => (Ok [TcBinding.package f data], com)
  | None => (Throw TcBindingOutOfRangeException, com)
  end.
Proof.
  unfold binding. cbn [TcBinding.toRaw TcBinding.class].
  unfold TcBinding.TcEnumBinding_toRaw. rewrite lift_bind.
  unfold TcBinding.TcSimpleBinding_checkInput, TcBinding.TcBinding_checkInput.
  cbn [TcBinding.fields]. rewrite Hvalid, Hro. cbn.
  destruct (TcBinding.buffers_get buffers s); reflexivity.
Qed.

Lemma enum_write_unknown s com :
  buffers !! s = None -> inherited s = false ->
  TcBinding.write binding (VString s) com = (Throw TcBindingOutOfRangeException, com).
Proof.
  intros Hnone Hname. rewrite write_unfold by exact Hvalid.
  rewrite enum_toRaw. unfold TcBinding.buffers_get. rewrite Hnone, Hname. reflexivity.
Qed.

Lemma enum_write_known s data com :
  TcBinding.buffers_get buffers s = Some data ->
  TcCom.connected com = true ->
  TcCom.trace (snd (TcBinding.write binding (VString s) com))
  = TcCom.trace com ++ [Call (CallWriteRawMulti [TcBinding.package f data])].
Proof.
  intros Hsome Hconn. rewrite write_unfold by exact Hvalid.
  rewrite enum_toRaw, Hsome. unfold TcCom.write. unfold_monad. rewrite Hconn.
  rewrite splitData_singleton. cbn [TcCom.write_groups]. unfold_monad. cbn.
  destruct (writeRawMulti [TcBinding.package f data] (TcCom.plc com)); reflexivity.
Qed.

Lemma enum_read com p com1 result name :
  TcCom.read (TcBinding.readPackages f) com = (Ok [p], com1) ->
  convertFromRaw (pkg_data p) type = Some result ->
  TcBinding.get_name result = Ok (VString name) ->
  fst (TcBinding.read binding com) = Ok (VString (type +:+ "." +:+ name)).
Proof.
  intros Hread Hdecode Hname.
  destruct (TcCom_read_connected _ _ _ _ Hread) as [_ Hconn1].
  unfold binding. rewrite read_unfold by exact Hvalid.
  cbn [TcBinding.fields]. rewrite Hread.
  cbn [TcBinding.fromRaw]. unfold TcBinding.TcSimpleBinding_fromRaw.
  rewrite Hvalid. cbn [negb List.length Nat.ltb Nat.leb].
  unfold TcCom.fromRaw. unfold_monad. rewrite Hconn1. cbn.
  rewrite Hdecode. cbn. rewrite Hname. reflexivity.
Qed.

End EnumBinding.

(** C8, as stated, fails: the guards of [TcSimpleBinding.checkInput] run
    before the lookup in the encoding map, so a write of an unknown name on a
    read-only enum binding fails with [TcBindingReadOnlyException]; and on an
    enum binding that can be written, a name that is no key of the map but
    the name of an inherited member, as ["constructor"] is, passes the
    lookup: a package with the inherited member as its data goes to the
    transport. *)
Lemma C8_counterexample :
  (buffers_of Sample.readOnlyMode !! "MyEnum.nope" = None /\
   TcBinding.write Sample.readOnlyMode (VString "MyEnum.nope") (Sample.com ∅)
   = (Throw TcBindingReadOnlyException, Sample.com ∅) /\
   fst (TcBinding.write Sample.readOnlyMode (VString "MyEnum.nope") (Sample.com ∅))
   <> Throw TcBindingOutOfRangeException) /\
  (buffers_of Sample.mode !! "constructor" = None /\
   TcBinding.toRaw (VString "constructor") Sample.mode (Sample.com ∅)
   = (Ok [{| pkg_indexGroup := 16448; pkg_indexOffset := 502;
             pkg_data := Member "constructor" |}], Sample.com ∅) /\
   TcCom.trace (snd (TcBinding.write Sample.mode (VString "constructor") (Sample.com ∅)))
   = [Call (CallWriteRawMulti
              [{| pkg_indexGroup := 16448; pkg_indexOffset := 502;
                  pkg_data := Member "constructor" |}])] /\
   fst (TcBinding.write Sample.mode (VString "constructor") (Sample.com ∅))
   <> Throw TcBindingOutOfRangeException).
Proof.
  split.
  - split; [vm_compute; reflexivity |].
    split; [vm_compute; reflexivity |].
    vm_compute. discriminate.
  - split; [vm_compute; reflexivity |].
    split; [vm_compute; reflexivity |].
    split; [vm_compute; reflexivity |].
    vm_compute. discriminate.
Qed.

(** C8 (amended). For every enum binding. On an invalidated binding
    [write(s)] fails with [TcBindingIsInvalidException], and on a valid
    read-only one with [TcBindingReadOnlyException], whether [s] is a key of
    the encoding map or not, without a call on the [TcCom]. On a valid
    binding that is not read-only:
    - [write(s)] fails with [TcBindingOutOfRangeException], with no call on
      the transport, whenever the string [s] is neither a key of the
      encoding map nor the name of an inherited member;
    - for a key [s] the conversion returns the pre-encoded bytes of the map
      without calling the encoder of the transport, and the write makes the
      single call [writeRawMulti] with that package;
    - [read()] returns ["<typeName>.<name>"] when the transport returns one
      package that decodes to an object with the string [name]. *)
Theorem C8_enum_binding :
  forall (P : Type) (ads : ADS P) (js : JsRuntime)
    (f : TcBinding.Fields) (type : string) (defaultValue : option Buffer)
    (fields : list string) (buffers : gmap string Buffer)
    (children : list (Key * TcBinding.t)),
    let binding :=
      TcBinding.Node f (TcBinding.TcEnumBinding type defaultValue fields buffers)
        children in
    (TcBinding.isValid f = false ->
     forall s (com : TcCom.t P),
       TcBinding.write binding (VString s) com
       = (Throw TcBindingIsInvalidException, com)) /\
    (TcBinding.isValid f = true ->
     TcBinding.readOnly f = true ->
     forall s (com : TcCom.t P),
       TcBinding.write binding (VString s) com
       = (Throw TcBindingReadOnlyException, com)) /\
    (TcBinding.isValid f = true ->
     TcBinding.readOnly f = false ->
     (forall s (com : TcCom.t P),
         buffers !! s = None ->
         inherited s = false ->
         TcBinding.write binding (VString s) com
         = (Throw TcBindingOutOfRangeException, com)) /\
     (forall s (buffer : Buffer) (com : TcCom.t P),
         buffers !! s = Some buffer ->
         TcBinding.toRaw (VString s) binding com
         = (Ok [TcBinding.package f buffer], com) /\
         (TcCom.connected com = true ->
          TcCom.trace (snd (TcBinding.write binding (VString s) com))
          = TcCom.trace com
              ++ [Call (CallWriteRawMulti [TcBinding.package f buffer])])) /\
     (forall (com : TcCom.t P) p com1 result name,
         TcCom.read (TcBinding.readPackages f) com = (Ok [p], com1) ->
         convertFromRaw (pkg_data p) type = Some result ->
         TcBinding.get_name result = Ok (VString name) ->
         fst (TcBinding.read binding com) = Ok (VString (type +:+ "." +:+ name)))).
Proof.
  intros P ads js f type defaultValue fields buffers children binding.
  split; [| split].
  - intros Hinv s com. apply invalid_binding_fails. exact Hinv.
  - intros Hvalid Hro s com. unfold binding.
    rewrite write_unfold by exact Hvalid.
    cbn [TcBinding.toRaw TcBinding.class].
    unfold TcBinding.TcEnumBinding_toRaw. rewrite lift_bind.
    unfold TcBinding.TcSimpleBinding_checkInput, TcBinding.TcBinding_checkInput.
    cbn [TcBinding.fields]. rewrite Hvalid, Hro. reflexivity.
  - intros Hvalid Hro. split; [| split].
    + intros s com Hnone Hname. apply enum_write_unknown; assumption.
    + intros s buffer com Hsome.
      assert (Hget : TcBinding.buffers_get buffers s = Some (Bytes buffer))
        by (unfold TcBinding.buffers_get; rewrite Hsome; reflexivity).
      split.
      * unfold binding. rewrite enum_toRaw by assumption. rewrite Hget. reflexivity.
      * intros Hconn. apply enum_write_known; assumption.
    + intros com p com1 result name Hread Hdecode Hname.
      eapply enum_read; eauto.
Qed.

Lemma C8_enum_binding_witness :
  (TcBinding.write Sample.readOnlyMode (VString "MyEnum.member1") (Sample.com ∅)
   = (Throw TcBindingReadOnlyException, Sample.com ∅)) /\
  (TcBinding.write Sample.mode (VString "MyEnum.nope") (Sample.com ∅)
   = (Throw TcBindingOutOfRangeException, Sample.com ∅)) /\
  (TcBinding.toRaw (VString "MyEnum.member3") Sample.mode (Sample.com ∅)
   = (Ok [{| pkg_indexGroup := 16448; pkg_indexOffset := 502;
             pkg_data := Bytes [x02; x00] |}], Sample.com ∅)) /\
  fst (TcBinding.read Sample.mode
         (Sample.com (Sample.store ∅ 16448 502 [x01; x00])))
  = Ok (VString "MyEnum.member2").
Proof.
  pose proof (C8_enum_binding Sample.Memory Sample.ads Sample.runtime
                (TcBinding.fields Sample.readOnlyMode) "MyEnum" (Some [x00; x00])
                (fields_of Sample.readOnlyMode) (buffers_of Sample.readOnlyMode) [])
    as (_ & HreadOnly & _).
  pose proof (proj2 (proj2 (C8_enum_binding Sample.Memory Sample.ads Sample.runtime
                (TcBinding.fields Sample.mode) "MyEnum" (Some [x00; x00])
                (fields_of Sample.mode) (buffers_of Sample.mode) []))
                eq_refl eq_refl) as (Hunknown & Hknown & Hread).
  split; [| split; [| split]].
  - apply (HreadOnly eq_refl eq_refl "MyEnum.member1" (Sample.com ∅)).
  - apply (Hunknown "MyEnum.nope" (Sample.com ∅)); vm_compute; reflexivity.
  - apply (proj1 (Hknown "MyEnum.member3" [x02; x00] (Sample.com ∅)
                    ltac:(vm_compute; reflexivity))).
  - apply (Hread (Sample.com (Sample.store ∅ 16448 502 [x01; x00]))
             {| pkg_indexGroup := 16448; pkg_indexOffset := 502;
                pkg_data := Bytes [x01; x00] |}
             (snd (TcCom.read (TcBinding.readPackages (TcBinding.fields Sample.mode))
                     (Sample.com (Sample.store ∅ 16448 502 [x01; x00]))))
             (VObject [("name", VString "member2")]) "member2");
      vm_compute; reflexivity.
Defined.

(** ** Numeric types ([TcNumericType]) *)

(** C10, as stated, fails: the attributes are stored as they come. A
    [Default] of 300 on a [BYTE] lies above the upper border 255, and a lower
    border 10 with an upper border 5 gives the default 10 above the upper
    border. *)
Lemma C10_counterexample :
  TcType.defaultValue Sample.BYTE300 = Some (VNumber 300) /\
  ~ numeric_invariant Sample.BYTE300 /\
  ~ numeric_invariant Sample.INT_10_5.
Proof.
  split; [reflexivity |].
  split; intros [Hl Hu]; vm_compute in Hu; apply Hu; reflexivity.
Qed.

Section NumericType.
Context {P : Type} `{ADS P} `{JsRuntime}.

Lemma base__getParameter_default c name value :
  TcType.c_default (TcType.base__getParameter c name value) = TcType.c_default c /\
  TcType.c_adst (TcType.base__getParameter c name value) = TcType.c_adst c.
Proof.
  unfold TcType.base__getParameter.
  repeat match goal with
         | |- context [if ?b then _ else _] => destruct b
         end; split; reflexivity.
Qed.

Lemma base__getParameter_name c name value :
  TcType.c_name (TcType.base__getParameter c name value) = TcType.c_name c.
Proof.
  unfold TcType.base__getParameter.
  repeat match goal with
         | |- context [if ?b then _ else _] => destruct b
         end; reflexivity.
Qed.

Lemma natural_range_has_zero kind :
  le (fst (TcType.ranges kind)) (Num 0) /\ le (Num 0) (snd (TcType.ranges kind)) /\
  le (fst (TcType.ranges kind)) (Big 0) /\ le (Big 0) (snd (TcType.ranges kind)).
Proof.
  destruct kind; unfold le; repeat split; vm_compute; discriminate.
Qed.

Lemma last_border_cons key adst a rest border :
  last_border key adst (a :: rest) border
  = last_border key adst rest
      (if attribute_named key a then Some (parse_border adst (attr_value a)) else border).
Proof. reflexivity. Qed.

Lemma last_border_Some key adst attrs : forall x,
  last_border key adst attrs (Some x)
  = Some (match last_border key adst attrs None with Some d => d | None => x end).
Proof.
  induction attrs as [| a rest IH]; intros x; [reflexivity |].
  rewrite !last_border_cons. destruct (attribute_named key a).
  - rewrite (IH (parse_border adst (attr_value a))). reflexivity.
  - apply IH.
Qed.

Lemma last_border_absent key adst attrs border :
  existsb (attribute_named key) attrs = false ->
  last_border key adst attrs border = border.
Proof.
  revert border. induction attrs as [| a rest IH]; intros border Hno; [reflexivity |].
  cbn [existsb] in Hno. apply orb_false_elim in Hno as [Ha Hrest].
  rewrite last_border_cons, Ha. apply IH, Hrest.
Qed.

Lemma find_absent {A} (f : A -> bool) l : existsb f l = false -> find f l = None.
Proof.
  induction l as [| a rest IH]; [reflexivity |]. cbn [existsb find]. intros Hno.
  apply orb_false_elim in Hno as [Ha Hrest]. rewrite Ha. apply IH, Hrest.
Qed.

Lemma no_numeric_attribute_absent (mutator : TcTypeBase) :
  no_numeric_attribute mutator = true ->
  existsb (attribute_named "lowerborder") (attributes mutator) = false /\
  existsb (attribute_named "upperborder") (attributes mutator) = false /\
  existsb (attribute_named "default") (attributes mutator) = false.
Proof.
  unfold no_numeric_attribute, attributes.
  destruct (tb_attributes mutator) as [attrs |]; [| auto].
  induction attrs as [| a rest IH]; cbn [forallb existsb]; [auto |].
  intros Hall. apply andb_true_iff in Hall as [Ha Hrest]. apply negb_true_iff in Ha.
  unfold numeric_attribute in Ha.
  apply orb_false_elim in Ha as [Ha Hd]. apply orb_false_elim in Ha as [Hl Hu].
  destruct (IH Hrest) as (Hl' & Hu' & Hd').
  unfold attribute_named in *. rewrite Hl, Hu, Hd, Hl', Hu', Hd'. auto.
Qed.

Lemma default_of_border adst value :
  (if TcType.is64 adst then VBigInt (BigInt value) else VNumber (parseFloat value))
  = Value_of_Numeric (parse_border adst value).
Proof. unfold parse_border. destruct (TcType.is64 adst); reflexivity. Qed.

(** The attributes of a numeric type, one after the other. *)
Lemma numeric_attributes kind attrs : forall c u l,
  exists c',
    fold_left (fun ty a => TcType.__getParameter ty (attr_name a) (attr_value a)) attrs
      (TcType.TcNumericType c kind u l)
    = TcType.TcNumericType c' kind
        (last_border "upperborder" (TcType.c_adst c) attrs u)
        (last_border "lowerborder" (TcType.c_adst c) attrs l) /\
    TcType.c_adst c' = TcType.c_adst c /\
    TcType.c_name c' = TcType.c_name c /\
    TcType.c_default c' = given_default (TcType.c_adst c) attrs (TcType.c_default c).
Proof.
  induction attrs as [| a rest IH]; intros c u l.
  - exists c. unfold given_default. cbn. destruct (TcType.c_default c); auto.
  - destruct (base__getParameter_default c (attr_name a) (attr_value a)) as [Hd Hadst].
    pose proof (base__getParameter_name c (attr_name a) (attr_value a)) as Hname.
    unfold given_default.
    rewrite !last_border_cons. cbn [fold_left TcType.__getParameter find].
    rewrite default_of_border.
    change (String.eqb (toLowerCase (trim (attr_name a))) "lowerborder")
      with (attribute_named "lowerborder" a).
    change (String.eqb (toLowerCase (trim (attr_name a))) "upperborder")
      with (attribute_named "upperborder" a).
    change (String.eqb (toLowerCase (trim (attr_name a))) "default")
      with (attribute_named "default" a).
    rewrite Hadst, Hd.
    change (if TcType.is64 (TcType.c_adst c) then Big (BigInt (attr_value a))
            else Num (parseFloat (attr_value a)))
      with (parse_border (TcType.c_adst c) (attr_value a)).
    destruct (attribute_named "lowerborder" a) eqn:El.
    + assert (Eu : attribute_named "upperborder" a = false).
      { unfold attribute_named in *. apply String.eqb_eq in El. rewrite El. reflexivity. }
      assert (Ed : attribute_named "default" a = false).
      { unfold attribute_named in *. apply String.eqb_eq in El. rewrite El. reflexivity. }
      rewrite Eu, Ed. cbn [TcType.lowerBorder]. cbv iota.
      destruct (TcType.c_default c) as [d |] eqn:Hdc.
      * destruct (IH (TcType.base__getParameter c (attr_name a) (attr_value a)) u
                    (Some (parse_border (TcType.c_adst c) (attr_value a))))
          as (c' & Heq & Hadst' & Hname' & Hd').
        exists c'. rewrite Hadst in Heq, Hd'. split; [exact Heq |].
        split; [congruence |]. split; [congruence |].
        rewrite Hd', Hd. reflexivity.
      * destruct (IH (TcType.set_default
                        (TcType.base__getParameter c (attr_name a) (attr_value a))
                        (Some (Value_of_Numeric
                                 (parse_border (TcType.c_adst c) (attr_value a)))))
                    u (Some (parse_border (TcType.c_adst c) (attr_value a))))
          as (c' & Heq & Hadst' & Hname' & Hd').
        exists c'.
        cbn [TcType.set_default TcType.c_adst TcType.c_default TcType.c_name] in *.
        rewrite Hadst in Heq, Hd'. split; [exact Heq |].
        split; [congruence |]. split; [congruence |].
        rewrite Hd'. unfold given_default.
        destruct (last_border "default" (TcType.c_adst c) rest None); reflexivity.
    + destruct (attribute_named "upperborder" a) eqn:Eu.
      * assert (Ed : attribute_named "default" a = false).
        { unfold attribute_named in *. apply String.eqb_eq in Eu. rewrite Eu. reflexivity. }
        rewrite Ed. cbv iota.
        destruct (IH (TcType.base__getParameter c (attr_name a) (attr_value a))
                    (Some (parse_border (TcType.c_adst c) (attr_value a))) l)
          as (c' & Heq & Hadst' & Hname' & Hd').
        exists c'. rewrite Hadst in Heq, Hd'. split; [exact Heq |].
        split; [congruence |]. split; [congruence |].
        rewrite Hd', Hd. reflexivity.
      * destruct (attribute_named "default" a) eqn:Ed; cbv iota.
        -- destruct (IH (TcType.set_default
                           (TcType.base__getParameter c (attr_name a) (attr_value a))
                           (Some (Value_of_Numeric
                                    (parse_border (TcType.c_adst c) (attr_value a)))))
                       u l)
             as (c' & Heq & Hadst' & Hname' & Hd').
           exists c'.
           cbn [TcType.set_default TcType.c_adst TcType.c_default TcType.c_name] in *.
           rewrite Hadst in Heq, Hd'. split; [exact Heq |].
           split; [congruence |]. split; [congruence |].
           rewrite Hd'. unfold given_default. rewrite last_border_Some.
           destruct (last_border "default" (TcType.c_adst c) rest None); reflexivity.
        -- destruct (IH (TcType.base__getParameter c (attr_name a) (attr_value a)) u l)
             as (c' & Heq & Hadst' & Hname' & Hd').
           exists c'. rewrite Hadst in Heq, Hd'. split; [exact Heq |].
           split; [congruence |]. split; [congruence |].
           rewrite Hd', Hd. reflexivity.
Qed.

(** [mutate] on a numeric type. *)
Lemma mutate_numeric c kind u l (mutator : TcTypeBase) :
  exists c',
    TcType.mutate (TcType.TcNumericType c kind u l) mutator
    = TcType.TcNumericType c' kind
        (last_border "upperborder" (TcType.c_adst c) (attributes mutator) u)
        (last_border "lowerborder" (TcType.c_adst c) (attributes mutator) l) /\
    TcType.c_adst c' = TcType.c_adst c /\
    TcType.c_name c' = TcType.c_name c /\
    TcType.c_default c'
    = given_default (TcType.c_adst c) (attributes mutator) (TcType.c_default c).
Proof.
  unfold TcType.mutate, attributes.
  destruct (tb_attributes mutator) as [attrs |].
  - destruct (numeric_attributes kind attrs c u l) as (c' & Heq & Hadst & Hname & Hd).
    rewrite Heq. cbn [TcType.with_common TcType.common].
    eexists. split; [reflexivity |]. cbn. auto.
  - eexists. split; [reflexivity |]. unfold given_default. cbn.
    destruct (TcType.c_default c); auto.
Qed.

Lemma defaultValue_numeric c kind u l :
  TcType.defaultValue (TcType.TcNumericType c kind u l)
  = Some (match TcType.c_default c with
          | Some d => d
          | None => Value_of_Numeric (zero (TcType.c_adst c))
          end).
Proof.
  unfold TcType.defaultValue, zero. cbn [TcType.common].
  destruct (TcType.c_default c); [reflexivity |].
  destruct (TcType.is64 (TcType.c_adst c)); reflexivity.
Qed.

Lemma numeric_invariant_within c kind u l :
  numeric_invariant (TcType.TcNumericType c kind u l)
  <-> within (TcType.lowerBorder kind l) (TcType.upperBorder kind u)
        (TcType.defaultValue (TcType.TcNumericType c kind u l)).
Proof. reflexivity. Qed.

(** The default buffer takes no part in the default value. *)
Lemma defaultValue_buffer ty buffer :
  TcType.defaultValue
    (TcType.with_common ty (TcType.set_defaultBuffer (TcType.common ty) buffer))
  = TcType.defaultValue ty.
Proof. destruct ty; reflexivity. Qed.

Lemma numeric_invariant_buffer ty buffer :
  numeric_invariant
    (TcType.with_common ty (TcType.set_defaultBuffer (TcType.common ty) buffer))
  <-> numeric_invariant ty.
Proof. destruct ty; reflexivity. Qed.

(** The constructor on a raw descriptor. *)
Lemma new_numeric kind (typeData : TcTypeInfo) :
  exists c',
    TcType.new_TcNumericType kind typeData
    = TcType.TcNumericType c' kind
        (last_border "upperborder" (tb_adsDataType typeData) (attributes typeData) None)
        (last_border "lowerborder" (tb_adsDataType typeData) (attributes typeData) None) /\
    TcType.c_adst c' = tb_adsDataType typeData /\
    TcType.c_name c' = tb_name typeData /\
    TcType.c_default c'
    = given_default (tb_adsDataType typeData) (attributes typeData) None.
Proof.
  exact (mutate_numeric (TcType.raw_common typeData) kind None None typeData).
Qed.

(** The constructor on an existing type, followed by [mutate]. *)
Lemma copy_numeric c kind u l (mutator : TcTypeBase) :
  exists c',
    TcType.mutate (TcType.copy (TcType.TcNumericType c kind u l)) mutator
    = TcType.TcNumericType c' kind
        (last_border "upperborder" (TcType.c_adst c) (attributes mutator)
           (Some (TcType.upperBorder kind u)))
        (last_border "lowerborder" (TcType.c_adst c) (attributes mutator)
           (Some (TcType.lowerBorder kind l))) /\
    TcType.c_adst c' = TcType.c_adst c /\
    TcType.c_default c'
    = match last_border "default" (TcType.c_adst c) (attributes mutator) None with
      | Some d => Some (Value_of_Numeric d)
      | None => TcType.defaultValue (TcType.TcNumericType c kind u l)
      end.
Proof.
  destruct (mutate_numeric (TcType.copy_common (TcType.TcNumericType c kind u l)) kind
              (Some (TcType.upperBorder kind u)) (Some (TcType.lowerBorder kind l)) mutator)
    as (c' & Heq & Hadst & _ & Hd).
  exists c'. split; [exact Heq |]. split; [exact Hadst |].
  rewrite Hd. unfold given_default.
  cbn [TcType.copy_common TcType.c_adst TcType.c_default].
  change (TcType.adst (TcType.TcNumericType c kind u l)) with (TcType.c_adst c).
  destruct (last_border "default" (TcType.c_adst c) (attributes mutator) None);
    [reflexivity |].
  rewrite defaultValue_numeric. reflexivity.
Qed.

(** A [create] of a leaf type that returns a type has encoded its
    default value. *)
Lemma create_leaf_Some ty (com : TcCom.t P) ty' com' :
  TcType.create_leaf ty com = (Ok (Some ty'), com') ->
  exists buffer,
    TcCom.toRaw (TcType.name ty) (TcType.or_undefined (TcType.defaultValue ty)) com
    = (Ok buffer, com') /\
    ty' = TcType.with_common ty
            (TcType.set_defaultBuffer (TcType.common ty) (Some buffer)).
Proof.
  unfold TcType.create_leaf, TcType.encode_default, bind, ret.
  destruct (negb (TcType.ignored ty)); [| discriminate].
  destruct (TcCom.toRaw (TcType.name ty)
              (TcType.or_undefined (TcType.defaultValue ty)) com) as [[buffer | e] com1];
    intros Heq; inversion Heq; subst.
  exists buffer. split; reflexivity.
Qed.

(** A [clone] with a mutator that returns a type returns the mutated
    copy, with or without a new default buffer. *)
Lemma clone_Some this (mutator : TcTypeBase) (com : TcCom.t P) ty com' :
  TcType.clone this (Some mutator) com = (Ok (Some ty), com') ->
  exists buffer,
    ty = TcType.with_common (TcType.mutate (TcType.copy this) mutator)
           (TcType.set_defaultBuffer
              (TcType.common (TcType.mutate (TcType.copy this) mutator)) buffer).
Proof.
  unfold TcType.clone, TcType.__clone, TcType.encode_default, bind, ret. cbv zeta.
  destruct (negb (TcType.ignored (TcType.mutate (TcType.copy this) mutator)));
    [| discriminate].
  destruct (TcType.defaults_differ _ _).
  - destruct (TcCom.toRaw _ _ com) as [[buffer | e] com1];
      intros Heq; inversion Heq; subst.
    exists (Some buffer). reflexivity.
  - intros Heq; inversion Heq; subst.
    exists (TcType.defaultBuffer (TcType.mutate (TcType.copy this) mutator)).
    destruct (TcType.mutate (TcType.copy this) mutator) as [c | c ? ? ? | c ? | c ? ? | c ? ? | c ? ?];
      destruct c; reflexivity.
Qed.

End NumericType.

(** C10 (amended). A numeric type node that [create] builds from a raw
    descriptor whose border and default attributes are numerals has as its
    lower and upper border the value of the last [LowerBorder] and of the
    last [UpperBorder] attribute (the ends of the natural range of its kind
    where there is none), and as its default the value of the last
    [Default] attribute, without one the value of the first [LowerBorder]
    attribute, and without that 0. It satisfies
    [lower <= defaultValue <= upper] if and only if these given values do:
    nothing is checked. A node that [clone] builds from a node and a
    mutator starts from the borders and the default of that node, and the
    same holds with these in place of the natural range and of 0 (a
    [LowerBorder] of the mutator does not change the default). Without one
    of the three attributes the invariant holds on the first path, and is
    kept on the second. *)
Theorem C10_numeric_invariant :
  forall (P : Type) (ads : ADS P) (js : JsRuntime),
    (forall kind (typeData : TcTypeInfo) (com : TcCom.t P) ty com',
        numerals (tb_adsDataType typeData) typeData = true ->
        TcType.TcNumericType_create kind typeData com = (Ok (Some ty), com') ->
        let adst := tb_adsDataType typeData in
        let attrs := attributes typeData in
        let lower := TcType.lowerBorder kind (last_border "lowerborder" adst attrs None) in
        let upper := TcType.upperBorder kind (last_border "upperborder" adst attrs None) in
        let default :=
          match last_border "default" adst attrs None with
          | Some d => Value_of_Numeric d
          | None =>
              match find (attribute_named "lowerborder") attrs with
              | Some a => Value_of_Numeric (parse_border adst (attr_value a))
              | None => Value_of_Numeric (zero adst)
              end
          end in
        (numeric_invariant ty <-> within lower upper (Some default)) /\
        (no_numeric_attribute typeData = true -> numeric_invariant ty)) /\
    (forall c kind u l (mutator : TcTypeBase) (com : TcCom.t P) ty com',
        let this := TcType.TcNumericType c kind u l in
        numerals (TcType.adst this) mutator = true ->
        TcType.clone this (Some mutator) com = (Ok (Some ty), com') ->
        let adst := TcType.adst this in
        let attrs := attributes mutator in
        let lower :=
          match last_border "lowerborder" adst attrs None with
          | Some b => b
          | None => TcType.lowerBorder kind l
          end in
        let upper :=
          match last_border "upperborder" adst attrs None with
          | Some b => b
          | None => TcType.upperBorder kind u
          end in
        let default :=
          match last_border "default" adst attrs None with
          | Some d => Some (Value_of_Numeric d)
          | None => TcType.defaultValue this
          end in
        (numeric_invariant ty <-> within lower upper default) /\
        (no_numeric_attribute mutator = true ->
         numeric_invariant this -> numeric_invariant ty)).
Proof.
  intros P ads js. split.
  - intros kind typeData com ty com' _ Hcreate adst attrs lower upper default.
    destruct (create_leaf_Some _ _ _ _ Hcreate) as (buffer & _ & ->).
    destruct (new_numeric kind typeData) as (c' & Heq & Hadst & _ & Hd).
    assert (Hiff : numeric_invariant
                     (TcType.with_common (TcType.new_TcNumericType kind typeData)
                        (TcType.set_defaultBuffer
                           (TcType.common (TcType.new_TcNumericType kind typeData))
                           (Some buffer)))
                   <-> within lower upper (Some default)).
    { etransitivity; [apply numeric_invariant_buffer |].
      rewrite Heq. etransitivity; [apply numeric_invariant_within |].
      rewrite defaultValue_numeric, Hd, Hadst. unfold given_default.
      subst lower upper default attrs adst.
      destruct (last_border "default" _ _ None); [reflexivity |].
      destruct (find _ _); reflexivity. }
    split; [exact Hiff |].
    intros Hother. apply Hiff.
    destruct (no_numeric_attribute_absent typeData Hother) as (Hl & Hu & Hdef).
    subst lower upper default attrs adst.
    rewrite (last_border_absent _ _ _ _ Hl), (last_border_absent _ _ _ _ Hu),
      (last_border_absent _ _ _ _ Hdef), (find_absent _ _ Hl).
    destruct (natural_range_has_zero kind) as (Hl0 & Hu0 & Hl64 & Hu64).
    unfold zero. destruct (TcType.is64 (tb_adsDataType typeData)); cbn; auto.
  - intros c kind u l mutator com ty com' this. subst this.
    intros _ Hclone adst attrs lower upper default.
    destruct (clone_Some _ _ _ _ _ Hclone) as (buffer & ->).
    destruct (copy_numeric c kind u l mutator) as (c' & Heq & Hadst & Hd).
    set (this := TcType.TcNumericType c kind u l) in *.
    assert (Hiff : numeric_invariant
                     (TcType.with_common (TcType.mutate (TcType.copy this) mutator)
                        (TcType.set_defaultBuffer
                           (TcType.common (TcType.mutate (TcType.copy this) mutator))
                           buffer))
                   <-> within lower upper default).
    { etransitivity; [apply numeric_invariant_buffer |].
      rewrite Heq. etransitivity; [apply numeric_invariant_within |].
      rewrite defaultValue_numeric, Hd, !last_border_Some.
      subst lower upper default attrs adst.
      change (TcType.adst this) with (TcType.c_adst c).
      cbn [TcType.lowerBorder TcType.upperBorder].
      destruct (last_border "default" _ _ None); [reflexivity |].
      unfold this. rewrite defaultValue_numeric. reflexivity. }
    split; [exact Hiff |].
    intros Hother Hinv. apply Hiff.
    destruct (no_numeric_attribute_absent mutator Hother) as (Hl & Hu & Hdef).
    subst lower upper default attrs adst.
    rewrite (last_border_absent _ _ _ _ Hl), (last_border_absent _ _ _ _ Hu),
      (last_border_absent _ _ _ _ Hdef).
    exact Hinv.
Qed.

Lemma C10_numeric_invariant_witness :
  numeric_invariant
    (Sample.created
       (TcType.TcNumericType_create TcType.INT16
          (Sample.raw "INT" ADST.INT16 2 None
             [("LowerBorder", "10"); ("UpperBorder", "20"); ("Default", "12")]))
       Sample.INT) /\
  numeric_invariant
    (Sample.created
       (TcType.clone Sample.INT
          (Some (ti_base (Sample.raw "INT" ADST.INT16 2 (Some 4)
                            [("UpperBorder", "20"); ("Default", "7")]))))
       Sample.INT).
Proof.
  pose proof (C10_numeric_invariant Sample.Memory Sample.ads Sample.runtime)
    as [Hraw Hclone].
  split.
  - assert (Hcreate :
              TcType.TcNumericType_create TcType.INT16
                (Sample.raw "INT" ADST.INT16 2 None
                   [("LowerBorder", "10"); ("UpperBorder", "20"); ("Default", "12")])
                (Sample.com ∅)
              = (Ok (Some
                       (Sample.created
                          (TcType.TcNumericType_create TcType.INT16
                             (Sample.raw "INT" ADST.INT16 2 None
                                [("LowerBorder", "10"); ("UpperBorder", "20");
                                 ("Default", "12")]))
                          Sample.INT)),
                 snd (TcType.TcNumericType_create TcType.INT16
                        (Sample.raw "INT" ADST.INT16 2 None
                           [("LowerBorder", "10"); ("UpperBorder", "20");
                            ("Default", "12")])
                        (Sample.com ∅))))
      by (vm_compute; reflexivity).
    apply (proj2 (proj1 (Hraw TcType.INT16
                           (Sample.raw "INT" ADST.INT16 2 None
                              [("LowerBorder", "10"); ("UpperBorder", "20");
                               ("Default", "12")])
                           (Sample.com ∅) _ _ eq_refl Hcreate))).
    vm_compute. split; discriminate.
  - assert (Hcloned :
              TcType.clone
                (TcType.TcNumericType (TcType.common Sample.INT) TcType.INT16 None None)
                (Some (ti_base (Sample.raw "INT" ADST.INT16 2 (Some 4)
                                  [("UpperBorder", "20"); ("Default", "7")])))
                (Sample.com ∅)
              = (Ok (Some
                       (Sample.created
                          (TcType.clone Sample.INT
                             (Some (ti_base (Sample.raw "INT" ADST.INT16 2 (Some 4)
                                               [("UpperBorder", "20");
                                                ("Default", "7")]))))
                          Sample.INT)),
                 snd (TcType.clone Sample.INT
                        (Some (ti_base (Sample.raw "INT" ADST.INT16 2 (Some 4)
                                          [("UpperBorder", "20"); ("Default", "7")])))
                        (Sample.com ∅))))
      by (vm_compute; reflexivity).
    apply (proj2 (proj1 (Hclone (TcType.common Sample.INT) TcType.INT16 None None
                           (ti_base (Sample.raw "INT" ADST.INT16 2 (Some 4)
                                       [("UpperBorder", "20"); ("Default", "7")]))
                           (Sample.com ∅) _ _ eq_refl Hcloned))).
    vm_compute. split; discriminate.
Defined.

(** * Further properties *)

(** ** The transport layer ([TcCom.write], [TcCom.read], [TcCom.disconnect]) *)

Section TransportFailures.
Context {P : Type} `{ADS P}.
Implicit Types com : TcCom.t P.

Lemma write_groups_fail split : forall com e com',
  TcCom.write_groups split com = (Throw e, com') ->
  e = TcComDataWriteException /\
  exists sent g rest,
    split = sent ++ g :: rest /\
    TcCom.trace com' = TcCom.trace com ++ write_calls (sent ++ [g]) /\
    write_all sent (TcCom.plc com) = Some (TcCom.plc com') /\
    writeRawMulti g (TcCom.plc com') = None /\
    TcCom.connected com' = TcCom.connected com.
Proof.
  induction split as [| g rest IH]; intros com e com' Hw.
  - cbn in Hw. discriminate.
  - cbn [TcCom.write_groups] in Hw. unfold_monad. cbn in Hw.
    destruct (writeRawMulti g (TcCom.plc com)) as [p' |] eqn:Hg; cbn in Hw.
    + apply IH in Hw as (-> & sent & g' & rest' & -> & Htr & Hall & Hrej & Hconn).
      split; [reflexivity |]. exists (g :: sent), g', rest'. cbn in *.
      rewrite Hg. repeat split; auto.
      rewrite Htr, <- app_assoc. reflexivity.
    + inversion Hw; subst. split; [reflexivity |].
      exists [], g, rest. cbn. repeat split; auto.
Qed.

Lemma read_groups_result split : forall com result response com',
  TcCom.read_groups split result com = (Ok response, com') ->
  exists responses,
    Forall2 (fun g r => readRawMulti g (TcCom.plc com) = Some r) split responses /\
    response = result ++ concat responses /\
    TcCom.plc com' = TcCom.plc com.
Proof.
  induction split as [| g rest IH]; intros com result response com' Hr.
  - cbn in Hr. inversion Hr; subst. exists []. cbn. rewrite app_nil_r. auto.
  - cbn [TcCom.read_groups] in Hr. unfold_monad. cbn in Hr.
    destruct (readRawMulti g (TcCom.plc com)) as [r |] eqn:Hg; cbn in Hr;
      [| discriminate].
    apply IH in Hr as (responses & Hall & -> & Hplc). cbn in *.
    exists (r :: responses). cbn. rewrite <- app_assoc. repeat split; auto.
Qed.

Lemma read_groups_fail split : forall com result e com',
  TcCom.read_groups split result com = (Throw e, com') ->
  e = TcComDataReadException /\
  exists sent g rest,
    split = sent ++ g :: rest /\
    TcCom.trace com' = TcCom.trace com ++ read_calls (sent ++ [g]) /\
    readRawMulti g (TcCom.plc com) = None /\
    TcCom.plc com' = TcCom.plc com.
Proof.
  induction split as [| g rest IH]; intros com result e com' Hr.
  - cbn in Hr. discriminate.
  - cbn [TcCom.read_groups] in Hr. unfold_monad. cbn in Hr.
    destruct (readRawMulti g (TcCom.plc com)) as [r |] eqn:Hg; cbn in Hr.
    + apply IH in Hr as (-> & sent & g' & rest' & -> & Htr & Hrej & Hplc).
      split; [reflexivity |]. exists (g :: sent), g', rest'. cbn in *.
      repeat split; auto. rewrite Htr, <- app_assoc. reflexivity.
    + inversion Hr; subst. split; [reflexivity |].
      exists [], g, rest. cbn. repeat split; auto.
Qed.

End TransportFailures.

(** X1. [TcCom.write] stops at the first group that the client rejects: the
    error is [TcComDataWriteException], the groups before it have been
    written to the controller, in order, and stay written, and no group
    after it is sent. *)
Theorem TcCom_write_stops_at_first_failure :
  forall (P : Type) (ads : ADS P) (dataPackages : list TcDataPackage)
    (com com' : TcCom.t P) (e : TcException),
    TcCom.write dataPackages com = (Throw e, com') ->
    TcCom.connected com = true ->
    e = TcComDataWriteException /\
    exists sent g rest,
      TcCom.__splitData dataPackages = sent ++ g :: rest /\
      TcCom.trace com' = TcCom.trace com ++ write_calls (sent ++ [g]) /\
      write_all sent (TcCom.plc com) = Some (TcCom.plc com') /\
      writeRawMulti g (TcCom.plc com') = None.
Proof.
  intros P ads dataPackages com com' e Hw Hconn.
  unfold TcCom.write in Hw. unfold_monad. rewrite Hconn in Hw.
  apply write_groups_fail in Hw as (-> & sent & g & rest & Hs & Htr & Hall & Hrej & _).
  split; [reflexivity |]. exists sent, g, rest. auto.
Qed.

Lemma TcCom_write_stops_at_first_failure_witness :
  exists sent g rest,
    TcCom.__splitData two_groups = sent ++ g :: rest /\
    TcCom.trace (snd (@TcCom.write _ rejecting two_groups (Sample.com ∅)))
    = write_calls (sent ++ [g]) /\
    @write_all _ rejecting sent ∅
    = Some (TcCom.plc (snd (@TcCom.write _ rejecting two_groups (Sample.com ∅)))) /\
    @writeRawMulti _ rejecting g
      (TcCom.plc (snd (@TcCom.write _ rejecting two_groups (Sample.com ∅)))) = None.
Proof.
  apply (TcCom_write_stops_at_first_failure Sample.Memory rejecting two_groups
           (Sample.com ∅) (snd (@TcCom.write _ rejecting two_groups (Sample.com ∅)))
           TcComDataWriteException).
  - vm_compute. reflexivity.
  - reflexivity.
Defined.

(** X2. A [TcCom.read] that succeeds returns the responses of the client to
    the groups of pointers, concatenated in the order of the groups, and
    leaves the controller as it was. *)
Theorem TcCom_read_concatenates_responses :
  forall (P : Type) (ads : ADS P) (pointer : list TcSymbolPointer)
    (com com' : TcCom.t P) (result : list TcDataPackage),
    TcCom.read pointer com = (Ok result, com') ->
    exists responses,
      Forall2 (fun g r => readRawMulti g (TcCom.plc com) = Some r)
        (TcCom.__splitData pointer) responses /\
      result = concat responses /\
      TcCom.plc com' = TcCom.plc com.
Proof.
  intros P ads pointer com com' result Hr.
  unfold TcCom.read in Hr. unfold_monad.
  destruct (TcCom.connected com); [| discriminate].
  apply read_groups_result in Hr as (responses & Hall & -> & Hplc).
  exists responses. auto.
Qed.

Lemma TcCom_read_concatenates_responses_witness :
  exists responses,
    Forall2 (fun g r => readRawMulti g (Sample.store ∅ 16448 500 [x2a]) = Some r)
      (TcCom.__splitData many_pointers) responses /\
    match fst (TcCom.read many_pointers (Sample.com (Sample.store ∅ 16448 500 [x2a]))) with
    | Ok result => result
    | Throw _ => []
    end = concat responses /\
    TcCom.plc (snd (TcCom.read many_pointers (Sample.com (Sample.store ∅ 16448 500 [x2a]))))
    = Sample.store ∅ 16448 500 [x2a].
Proof.
  apply (TcCom_read_concatenates_responses Sample.Memory Sample.ads many_pointers
           (Sample.com (Sample.store ∅ 16448 500 [x2a]))
           (snd (TcCom.read many_pointers (Sample.com (Sample.store ∅ 16448 500 [x2a]))))).
  vm_compute. reflexivity.
Defined.

(** X3. [TcCom.read] stops at the first group that the client rejects: the
    error is [TcComDataReadException], no later group is requested, and
    the controller is as it was. *)
Theorem TcCom_read_stops_at_first_failure :
  forall (P : Type) (ads : ADS P) (pointer : list TcSymbolPointer)
    (com com' : TcCom.t P) (e : TcException),
    TcCom.read pointer com = (Throw e, com') ->
    TcCom.connected com = true ->
    e = TcComDataReadException /\
    exists sent g rest,
      TcCom.__splitData pointer = sent ++ g :: rest /\
      TcCom.trace com' = TcCom.trace com ++ read_calls (sent ++ [g]) /\
      readRawMulti g (TcCom.plc com) = None /\
      TcCom.plc com' = TcCom.plc com.
Proof.
  intros P ads pointer com com' e Hr Hconn.
  unfold TcCom.read in Hr. unfold_monad. rewrite Hconn in Hr.
  apply read_groups_fail in Hr as (-> & sent & g & rest & Hs & Htr & Hrej & Hplc).
  split; [reflexivity |]. exists sent, g, rest. auto.
Qed.

Lemma TcCom_read_stops_at_first_failure_witness :
  exists sent g rest,
    TcCom.__splitData [Sample.pointer 0 0 1] = sent ++ g :: rest /\
    TcCom.trace (snd (@TcCom.read _ rejecting [Sample.pointer 0 0 1] (Sample.com ∅)))
    = read_calls (sent ++ [g]) /\
    @readRawMulti _ rejecting g ∅ = None /\
    TcCom.plc (snd (@TcCom.read _ rejecting [Sample.pointer 0 0 1] (Sample.com ∅))) = ∅.
Proof.
  apply (TcCom_read_stops_at_first_failure Sample.Memory rejecting
           [Sample.pointer 0 0 1] (Sample.com ∅)
           (snd (@TcCom.read _ rejecting [Sample.pointer 0 0 1] (Sample.com ∅)))
           TcComDataReadException).
  - vm_compute. reflexivity.
  - reflexivity.
Defined.

(** X4. [TcCom.disconnect] on a connected [TcCom] always calls
    [unsubscribeAll()] and then [disconnect(true)], drops the client and
    emits ['disconnected'] once, whatever the outcome of the two calls. It
    fails with [TcComDisconnectException] when the disconnect is rejected,
    otherwise with [TcComUnsubscribeException] when the unsubscription is
    rejected, and succeeds when both are accepted. *)
Theorem TcCom_disconnect_outcome :
  forall (P : Type) (ads : ADS P) (com : TcCom.t P),
    TcCom.connected com = true ->
    TcCom.connected (snd (TcCom.disconnect com)) = false /\
    TcCom.trace (snd (TcCom.disconnect com))
    = TcCom.trace com ++ [Call CallUnsubscribeAll; Call (CallDisconnect true);
                          Emitted "disconnected" TcComDisconnectedEvent] /\
    let unsubscribed := unsubscribeAll (TcCom.plc com) in
    let disconnected :=
      disconnect true (match unsubscribed with Some p => p | None => TcCom.plc com end) in
    fst (TcCom.disconnect com)
    = match disconnected, unsubscribed with
      | None, _ => Throw TcComDisconnectException
      | Some _, None => Throw TcComUnsubscribeException
      | Some _, Some _ => Ok tt
      end /\
    TcCom.plc (snd (TcCom.disconnect com))
    = match disconnected, unsubscribed with
      | Some p, _ => p
      | None, Some p => p
      | None, None => TcCom.plc com
      end.
Proof.
  intros P ads com Hconn. unfold TcCom.disconnect. unfold_monad. rewrite Hconn. cbn.
  destruct (unsubscribeAll (TcCom.plc com)) as [p1 |]; cbn;
    match goal with
    | |- context [disconnect true ?p] => destruct (disconnect true p) as [p2 |]
    end; cbn; rewrite <- ?app_assoc; repeat split.
Qed.

Lemma TcCom_disconnect_outcome_witness :
  TcCom.connected (snd (@TcCom.disconnect _ rejecting (Sample.com ∅))) = false /\
  TcCom.trace (snd (@TcCom.disconnect _ rejecting (Sample.com ∅)))
  = [Call CallUnsubscribeAll; Call (CallDisconnect true);
     Emitted "disconnected" TcComDisconnectedEvent] /\
  fst (@TcCom.disconnect _ rejecting (Sample.com ∅)) = Throw TcComUnsubscribeException /\
  TcCom.plc (snd (@TcCom.disconnect _ rejecting (Sample.com ∅))) = ∅.
Proof.
  apply (TcCom_disconnect_outcome Sample.Memory rejecting (Sample.com ∅)).
  reflexivity.
Defined.

(** X5. Once [TcCom.disconnect] has run, whether it succeeded or not, the
    [TcCom] has no client: [toRaw], [fromRaw], [read] and [write] fail with
    [TcComIsInvalidException] without a call on the client, and a second
    [disconnect] succeeds and only emits ['disconnected'] again. *)
Theorem TcCom_unusable_after_disconnect :
  forall (P : Type) (ads : ADS P) (com : TcCom.t P),
    let com' := snd (TcCom.disconnect com) in
    TcCom.connected com' = false /\
    (forall type value, TcCom.toRaw type value com' = (Throw TcComIsInvalidException, com')) /\
    (forall type buffer,
        TcCom.fromRaw type buffer com' = (Throw TcComIsInvalidException, com')) /\
    (forall pointer, TcCom.read pointer com' = (Throw TcComIsInvalidException, com')) /\
    (forall dataPackages,
        TcCom.write dataPackages com' = (Throw TcComIsInvalidException, com')) /\
    fst (TcCom.disconnect com') = Ok tt /\
    TcCom.trace (snd (TcCom.disconnect com'))
    = TcCom.trace com' ++ [Emitted "disconnected" TcComDisconnectedEvent] /\
    TcCom.plc (snd (TcCom.disconnect com')) = TcCom.plc com'.
Proof.
  intros P ads com com'.
  assert (Hoff : TcCom.connected com' = false).
  { unfold com'. destruct (TcCom.connected com) eqn:Hconn.
    - unfold TcCom.disconnect. unfold_monad. rewrite Hconn. cbn.
      destruct (unsubscribeAll (TcCom.plc com)) as [p1 |]; cbn;
        match goal with
        | |- context [disconnect true ?p] => destruct (disconnect true p) as [p2 |]
        end; reflexivity.
    - unfold TcCom.disconnect. unfold_monad. rewrite Hconn. cbn. exact Hconn. }
  split; [exact Hoff |].
  unfold TcCom.toRaw, TcCom.fromRaw, TcCom.read, TcCom.write, TcCom.disconnect.
  unfold_monad. rewrite Hoff. cbn. repeat split.
Qed.

(** ** The guards of [write] and [clear] ([checkInput]) *)

Section Guards.
Context {P : Type} `{ADS P} `{JsRuntime}.
Implicit Types com : TcCom.t P.



Lemma write_toRaw_throws this value com e :
  TcBinding.isValid (TcBinding.fields this) = true ->
  TcBinding.toRaw value this com = (Throw e, com) ->
  TcBinding.write this value com = (Throw e, com).
Proof.
  intros Hvalid HtoRaw. rewrite (write_unfold this value com Hvalid), HtoRaw.
  reflexivity.
Qed.

Lemma string_checkInput f type defaultValue length ch value :
  TcBinding.isValid f = true -> TcBinding.readOnly f = false ->
  TcBinding.checkInput
    (TcBinding.Node f (TcBinding.TcStringBinding type defaultValue length) ch) value
  = match value with
    | VString s =>
        if length <? Z.of_nat (String.length s)
        then Throw TcBindingOutOfRangeException else Ok tt
    | _ => Throw TcBindingInvalidTypeException
    end.
Proof.
  intros Hvalid Hro.
  unfold TcBinding.checkInput, TcBinding.TcSimpleBinding_checkInput,
    TcBinding.TcBinding_checkInput.
  cbn [TcBinding.fields TcBinding.class]. rewrite Hvalid, Hro.
  destruct value; reflexivity.
Qed.

Lemma array_checkInput f startIndex length ch value :
  TcBinding.isValid f = true -> TcBinding.readOnly f = false ->
  TcBinding.checkInput
    (TcBinding.Node f (TcBinding.TcArrayBinding startIndex length) ch) value
  = match value with
    | VArray items =>
        if length <? Z.of_nat (List.length items)
        then Throw TcBindingOutOfRangeException else Ok tt
    | _ => Throw TcBindingInvalidTypeException
    end.
Proof.
  intros Hvalid Hro.
  unfold TcBinding.checkInput, TcBinding.TcBinding_checkInput.
  cbn [TcBinding.fields TcBinding.class]. rewrite Hvalid, Hro.
  destruct value; reflexivity.
Qed.

(** A leaf conversion whose input passes the guards is one call of the
    encoder. *)
Lemma simple_toRaw_checked this type value com :
  simple_type (TcBinding.class this) = Some type ->
  TcBinding.checkInput this value = Ok tt ->
  TcBinding.toRaw value this com
  = (let* buffer := TcCom.toRaw type value in
     ret [TcBinding.package (TcBinding.fields this) buffer]) com.
Proof.
  intros Htype Hcheck. destruct this as [f cls ch].
  destruct value; destruct cls; cbn in Htype; try discriminate;
    inversion Htype; subst;
    cbn [TcBinding.toRaw TcBinding.class];
    unfold TcBinding.TcSimpleBinding_toRaw; rewrite lift_bind, Hcheck; reflexivity.
Qed.

Lemma TcCom_write_single (p : TcDataPackage) com :
  TcCom.connected com = true ->
  TcCom.write [p] com
  = match writeRawMulti [p] (TcCom.plc com) with
    | Some p' =>
        (Ok tt, {| TcCom.connected := true; TcCom.plc := p';
                   TcCom.trace := TcCom.trace com ++ [Call (CallWriteRawMulti [p])] |})
    | None =>
        (Throw TcComDataWriteException,
         {| TcCom.connected := true; TcCom.plc := TcCom.plc com;
            TcCom.trace := TcCom.trace com ++ [Call (CallWriteRawMulti [p])] |})
    end.
Proof.
  intros Hconn. unfold TcCom.write. unfold_monad. rewrite Hconn.
  rewrite splitData_singleton. cbn [TcCom.write_groups]. unfold_monad. cbn.
  rewrite Hconn. destruct (writeRawMulti [p] (TcCom.plc com)); reflexivity.
Qed.

End Guards.





(** X8. On a valid array binding that is not read-only, [write(items)] with
    more items than the length of the dimension fails with
    [TcBindingOutOfRangeException] and leaves the [TcCom] as it was. *)
Theorem array_binding_length_bound :
  forall (P : Type) (ads : ADS P) (js : JsRuntime)
    (f : TcBinding.Fields) (startIndex length : Z)
    (children : list (Key * TcBinding.t)) (items : list Value),
    let binding :=
      TcBinding.Node f (TcBinding.TcArrayBinding startIndex length) children in
    TcBinding.isValid f = true ->
    TcBinding.readOnly f = false ->
    length < Z.of_nat (List.length items) ->
    forall com : TcCom.t P,
      TcBinding.write binding (VArray items) com
      = (Throw TcBindingOutOfRangeException, com).
Proof.
  intros P ads js f startIndex length children items binding Hvalid Hro Hlong com.
  apply write_toRaw_throws; [exact Hvalid |].
  unfold binding.
  rewrite (toRaw_array_unfold items
             (TcBinding.Node f (TcBinding.TcArrayBinding startIndex length) children)
             startIndex length eq_refl).
  rewrite lift_bind, (array_checkInput f startIndex length children (VArray items)
                        Hvalid Hro).
  apply Z.ltb_lt in Hlong. rewrite Hlong. reflexivity.
Qed.

Lemma array_binding_length_bound_witness :
  TcBinding.write flags (VArray [VBoolean true; VBoolean true; VBoolean true])
    (Sample.com ∅)
  = (Throw TcBindingOutOfRangeException, Sample.com ∅).
Proof.
  apply (array_binding_length_bound Sample.Memory Sample.ads Sample.runtime
           (TcBinding.fields flags) 0 2 (TcBinding.children flags)
           [VBoolean true; VBoolean true; VBoolean true]); [reflexivity | reflexivity |].
  cbn. lia.
Defined.

(** ** Leaf bindings: [write], [read], [fromRaw] *)

Section Leaves.
Context {P : Type} `{ADS P} `{JsRuntime}.
Implicit Types com : TcCom.t P.

Lemma TcCom_toRaw_connected type value com :
  TcCom.connected com = true ->
  TcCom.toRaw type value com
  = (match convertToRaw value type with
     | Some buffer => Ok buffer
     | None => Throw TcComToRawException
     end,
     {| TcCom.connected := true; TcCom.plc := TcCom.plc com;
        TcCom.trace := TcCom.trace com ++ [Call (CallConvertToRaw value type)] |}).
Proof.
  intros Hconn. unfold TcCom.toRaw. unfold_monad. rewrite Hconn. cbn. rewrite Hconn.
  destruct (convertToRaw value type); reflexivity.
Qed.

Lemma TcCom_fromRaw_connected type buffer com :
  TcCom.connected com = true ->
  TcCom.fromRaw type buffer com
  = (match convertFromRaw buffer type with
     | Some data => Ok data
     | None => Throw TcComFromRawException
     end,
     {| TcCom.connected := true; TcCom.plc := TcCom.plc com;
        TcCom.trace := TcCom.trace com ++ [Call (CallConvertFromRaw buffer type)] |}).
Proof.
  intros Hconn. unfold TcCom.fromRaw. unfold_monad. rewrite Hconn. cbn. rewrite Hconn.
  destruct (convertFromRaw buffer type); reflexivity.
Qed.

Lemma leaf_write this type value com :
  simple_type (TcBinding.class this) = Some type ->
  TcBinding.isValid (TcBinding.fields this) = true ->
  TcBinding.checkInput this value = Ok tt ->
  TcCom.connected com = true ->
  TcBinding.write this value com
  = match convertToRaw value type with
    | None =>
        (Throw TcComToRawException,
         {| TcCom.connected := true; TcCom.plc := TcCom.plc com;
            TcCom.trace := TcCom.trace com ++ [Call (CallConvertToRaw value type)] |})
    | Some buffer =>
        let p := TcBinding.package (TcBinding.fields this) buffer in
        let calls := [Call (CallConvertToRaw value type); Call (CallWriteRawMulti [p])] in
        match writeRawMulti [p] (TcCom.plc com) with
        | Some plc' =>
            (Ok value, {| TcCom.connected := true; TcCom.plc := plc';
                          TcCom.trace := TcCom.trace com ++ calls |})
        | None =>
            (Throw TcComDataWriteException,
             {| TcCom.connected := true; TcCom.plc := TcCom.plc com;
                TcCom.trace := TcCom.trace com ++ calls |})
        end
    end.
Proof.
  intros Htype Hvalid Hcheck Hconn.
  rewrite (write_unfold this value com Hvalid).
  rewrite (simple_toRaw_checked this type value com Htype Hcheck).
  unfold bind at 1. rewrite (TcCom_toRaw_connected type value com Hconn).
  destruct (convertToRaw value type) as [buffer |]; [| reflexivity].
  unfold ret at 1. unfold bind at 1.
  rewrite TcCom_write_single by reflexivity. cbn [TcCom.plc TcCom.trace].
  destruct (writeRawMulti _ (TcCom.plc com)); unfold ret; rewrite <- app_assoc;
    reflexivity.
Qed.

Lemma simple_fromRaw f type dataPackages com :
  TcBinding.isValid f = true ->
  TcBinding.TcSimpleBinding_fromRaw f type dataPackages com
  = match dataPackages with
    | [] => (Throw JsTypeError, com)
    | [p] => TcCom.fromRaw type (pkg_data p) com
    | _ :: _ :: _ => (Throw TcBindingOutOfRangeException, com)
    end.
Proof.
  intros Hvalid. unfold TcBinding.TcSimpleBinding_fromRaw. rewrite Hvalid. cbn.
  destruct dataPackages as [| p [| q rest]]; reflexivity.
Qed.

Lemma simple_fromRaw_one f type p com :
  TcBinding.isValid f = true ->
  TcBinding.TcSimpleBinding_fromRaw f type [p] com = TcCom.fromRaw type (pkg_data p) com.
Proof. intros Hvalid. apply (simple_fromRaw f type [p] com Hvalid). Qed.

Lemma leaf_fromRaw_count this dataPackages com :
  is_leaf (TcBinding.class this) = true ->
  TcBinding.isValid (TcBinding.fields this) = true ->
  List.length dataPackages <> 1%nat ->
  TcBinding.fromRaw this dataPackages com
  = (Throw (match dataPackages with
            | [] => JsTypeError
            | _ => TcBindingOutOfRangeException
            end), com).
Proof.
  intros Hleaf Hvalid Hcount. destruct this as [f cls ch].
  cbn [TcBinding.fields TcBinding.class] in *.
  destruct cls; cbn in Hleaf; try discriminate; cbn [TcBinding.fromRaw];
    try unfold bind at 1; rewrite (simple_fromRaw f _ dataPackages com Hvalid);
    destruct dataPackages as [| p [| q rest]]; try reflexivity;
    cbn in Hcount; congruence.
Qed.

Lemma plain_leaf_fromRaw this type p com :
  plain_leaf (TcBinding.class this) = Some type ->
  TcBinding.isValid (TcBinding.fields this) = true ->
  TcBinding.fromRaw this [p] com = TcCom.fromRaw type (pkg_data p) com.
Proof.
  intros Hleaf Hvalid. destruct this as [f cls ch].
  cbn [TcBinding.fields TcBinding.class] in *.
  destruct cls; cbn in Hleaf; try discriminate; cbn [TcBinding.fromRaw].
  - inversion Hleaf; subst. apply simple_fromRaw_one. exact Hvalid.
  - destruct (adst =? ADST.UINT64) eqn:E; [discriminate |]. inversion Hleaf; subst.
    unfold bind. rewrite (simple_fromRaw_one f type p com Hvalid). cbn [negb].
    destruct (TcCom.fromRaw type (pkg_data p) com) as [[v | e] com']; reflexivity.
  - inversion Hleaf; subst. apply simple_fromRaw_one. exact Hvalid.
Qed.

Lemma uint64_fromRaw f type defaultValue upper lower ch dataPackages com v com' :
  TcBinding.fromRaw
    (TcBinding.Node f (TcBinding.TcNumericBinding type defaultValue ADST.UINT64
                         upper lower) ch) dataPackages com = (Ok v, com') ->
  exists z, v = VBigInt z /\ 0 <= z < 2 ^ 64.
Proof.
  cbn [TcBinding.fromRaw]. unfold bind.
  destruct (TcBinding.TcSimpleBinding_fromRaw f type dataPackages com)
    as [[result | e] com1]; [| discriminate].
  cbn [Z.eqb ADST.UINT64 negb]. replace (ADST.UINT64 =? ADST.UINT64) with true by reflexivity.
  cbn [negb]. destruct result; unfold throw, ret; intros Heq; try discriminate.
  inversion Heq; subst. eexists. split; [reflexivity |].
  apply Z.mod_pos_bound. reflexivity.
Qed.

End Leaves.

(** X9. [write(value)] on a valid boolean, numeric or string binding whose
    guards accept the value, over a connected [TcCom], calls the encoder
    once with the value and the type name of the binding, then
    [writeRawMulti] once with the single package of the encoded bytes at the
    address of the binding, and returns the value. When the encoder rejects
    the value the write fails with [TcComToRawException] and nothing is
    written; when the client rejects the package it fails with
    [TcComDataWriteException]. *)
Theorem leaf_write_calls :
  forall (P : Type) (ads : ADS P) (js : JsRuntime) (this : TcBinding.t)
    (type : string) (value : Value) (com : TcCom.t P),
    simple_type (TcBinding.class this) = Some type ->
    TcBinding.isValid (TcBinding.fields this) = true ->
    TcBinding.checkInput this value = Ok tt ->
    TcCom.connected com = true ->
    TcBinding.write this value com
    = match convertToRaw value type with
      | None =>
          (Throw TcComToRawException,
           {| TcCom.connected := true; TcCom.plc := TcCom.plc com;
              TcCom.trace := TcCom.trace com ++ [Call (CallConvertToRaw value type)] |})
      | Some buffer =>
          let p := TcBinding.package (TcBinding.fields this) buffer in
          let calls := [Call (CallConvertToRaw value type); Call (CallWriteRawMulti [p])] in
          match writeRawMulti [p] (TcCom.plc com) with
          | Some plc' =>
              (Ok value, {| TcCom.connected := true; TcCom.plc := plc';
                            TcCom.trace := TcCom.trace com ++ calls |})
          | None =>
              (Throw TcComDataWriteException,
               {| TcCom.connected := true; TcCom.plc := TcCom.plc com;
                  TcCom.trace := TcCom.trace com ++ calls |})
          end
      end.
Proof.
  intros. apply leaf_write; assumption.
Qed.

Lemma leaf_write_calls_witness :
  TcBinding.write Sample.counter (VNumber 258) (Sample.com ∅)
  = (Ok (VNumber 258),
     {| TcCom.connected := true;
        TcCom.plc := Sample.store ∅ 16448 100 [x02; x01];
        TcCom.trace :=
          [Call (CallConvertToRaw (VNumber 258) "INT");
           Call (CallWriteRawMulti
                   [{| pkg_indexGroup := 16448; pkg_indexOffset := 100;
                       pkg_data := Bytes [x02; x01] |}])] |}).
Proof.
  apply (leaf_write_calls Sample.Memory Sample.ads Sample.runtime Sample.counter "INT"
           (VNumber 258) (Sample.com ∅)); reflexivity.
Defined.

(** X10. [fromRaw(dataPackages)] on a valid boolean, numeric, string or enum
    binding takes exactly one package: with more than one it fails with
    [TcBindingOutOfRangeException], with none it fails with a [TypeError]
    (the data of a missing package is read); in both cases the decoder is
    not called. *)
Theorem leaf_fromRaw_wants_one_package :
  forall (P : Type) (ads : ADS P) (js : JsRuntime) (this : TcBinding.t)
    (dataPackages : list TcDataPackage) (com : TcCom.t P),
    is_leaf (TcBinding.class this) = true ->
    TcBinding.isValid (TcBinding.fields this) = true ->
    List.length dataPackages <> 1%nat ->
    TcBinding.fromRaw this dataPackages com
    = (Throw (match dataPackages with
              | [] => JsTypeError
              | _ => TcBindingOutOfRangeException
              end), com).
Proof.
  intros. apply leaf_fromRaw_count; assumption.
Qed.

Lemma leaf_fromRaw_wants_one_package_witness :
  TcBinding.fromRaw Sample.mode [] (Sample.com ∅) = (Throw JsTypeError, Sample.com ∅).
Proof.
  apply (leaf_fromRaw_wants_one_package Sample.Memory Sample.ads Sample.runtime
           Sample.mode [] (Sample.com ∅)); [reflexivity | reflexivity |].
  cbn. discriminate.
Defined.

(** X11. Write, then read, on a valid boolean, string or numeric binding
    (other than [UINT64]) with one read pointer: when the write of [value]
    succeeds, the controller returns at that pointer the package that was
    written, and the decoder inverts the encoder on [value], then [read()]
    returns [value]. *)
Theorem leaf_write_then_read :
  forall (P : Type) (ads : ADS P) (js : JsRuntime) (this : TcBinding.t)
    (type : string) (value : Value) (pointer : TcSymbolPointer)
    (com com1 : TcCom.t P),
    plain_leaf (TcBinding.class this) = Some type ->
    TcBinding.readPackages (TcBinding.fields this) = [pointer] ->
    TcBinding.write this value com = (Ok value, com1) ->
    (forall buffer, convertToRaw value type = Some buffer ->
                    convertFromRaw buffer type = Some value) ->
    (forall buffer,
        convertToRaw value type = Some buffer ->
        readRawMulti [pointer] (TcCom.plc com1)
        = Some [TcBinding.package (TcBinding.fields this) buffer]) ->
    fst (TcBinding.read this com1) = Ok value.
Proof.
  intros P ads js this type value pointer com com1 Hleaf Hptr Hw Hcodec Hmem.
  assert (Hsimple : simple_type (TcBinding.class this) = Some type).
  { destruct this as [f cls ch]. destruct cls; cbn in *; try discriminate; auto.
    destruct (adst =? ADST.UINT64); [discriminate | exact Hleaf]. }
  assert (Hvalid : TcBinding.isValid (TcBinding.fields this) = true).
  { unfold TcBinding.write in Hw.
    destruct (TcBinding.isValid (TcBinding.fields this)); [reflexivity | discriminate]. }
  rewrite (write_unfold this value com Hvalid) in Hw.
  destruct (TcBinding.toRaw value this com) as [[dataPackages | e] com0] eqn:HtoRaw;
    [| discriminate].
  assert (Hcheck : TcBinding.checkInput this value = Ok tt).
  { destruct this as [f cls ch].
    destruct value; destruct cls; cbn in Hsimple; try discriminate;
      cbn [TcBinding.toRaw TcBinding.class] in HtoRaw;
      unfold TcBinding.TcSimpleBinding_toRaw in HtoRaw; rewrite lift_bind in HtoRaw;
      destruct (TcBinding.checkInput _ _) as [[] | e]; try reflexivity; discriminate. }
  rewrite (simple_toRaw_checked this type value com Hsimple Hcheck) in HtoRaw.
  unfold bind in Hw.
  destruct (TcCom.write dataPackages com0) as [[[] | e] com2] eqn:Hwrite;
    [| discriminate].
  unfold ret in Hw. inversion Hw; subst com2.
  pose proof (TcCom_write_connected _ _ _ _ Hwrite) as Hconn0.
  assert (Hconn : TcCom.connected com = true).
  { unfold bind, TcCom.toRaw in HtoRaw. unfold_monad.
    destruct (TcCom.connected com); [reflexivity | discriminate]. }
  unfold bind in HtoRaw. rewrite (TcCom_toRaw_connected type value com Hconn) in HtoRaw.
  destruct (convertToRaw value type) as [buffer |] eqn:Hencode; [| discriminate].
  unfold ret in HtoRaw. inversion HtoRaw; subst dataPackages com0.
  assert (Hconn1 : TcCom.connected com1 = true).
  { rewrite TcCom_write_single in Hwrite by reflexivity.
    destruct (writeRawMulti _ _); inversion Hwrite; subst; reflexivity. }
  rewrite (read_unfold this com1 Hvalid), Hptr.
  unfold TcCom.read. unfold_monad. rewrite Hconn1.
  rewrite splitData_singleton. cbn [TcCom.read_groups]. unfold_monad. cbn.
  rewrite (Hmem buffer eq_refl). cbn.
  rewrite (plain_leaf_fromRaw this type _ _ Hleaf Hvalid).
  rewrite TcCom_fromRaw_connected by exact Hconn1.
  cbn [pkg_data TcBinding.package]. rewrite (Hcodec buffer eq_refl). reflexivity.
Qed.

Lemma leaf_write_then_read_witness :
  fst (TcBinding.read ready
         (snd (TcBinding.write ready (VBoolean true) (Sample.com ∅))))
  = Ok (VBoolean true).
Proof.
  apply (leaf_write_then_read Sample.Memory Sample.ads Sample.runtime ready "BOOL"
           (VBoolean true) (Sample.pointer 16448 800 1) (Sample.com ∅)
           (snd (TcBinding.write ready (VBoolean true) (Sample.com ∅)))).
  - reflexivity.
  - reflexivity.
  - vm_compute. reflexivity.
  - intros buffer Hb. vm_compute in Hb. inversion Hb; subst. reflexivity.
  - intros buffer Hb. vm_compute in Hb. inversion Hb; subst. vm_compute. reflexivity.
Defined.

(** X12. What [fromRaw] (and so [read()]) returns on a [UINT64] binding is a
    [bigint] in the range from 0 to 2^64 - 1: the decoded value is wrapped
    with [BigInt.asUintN(64, ..)], so a decoded [-1n] reads as
    [2^64 - 1]. *)
Theorem uint64_read_is_unsigned :
  forall (P : Type) (ads : ADS P) (js : JsRuntime)
    (f : TcBinding.Fields) (type : string) (defaultValue : option Buffer)
    (upperBorder lowerBorder : Numeric) (children : list (Key * TcBinding.t))
    (com com' : TcCom.t P) (value : Value),
    TcBinding.read
      (TcBinding.Node f (TcBinding.TcNumericBinding type defaultValue ADST.UINT64
                           upperBorder lowerBorder) children) com = (Ok value, com') ->
    exists z, value = VBigInt z /\ 0 <= z < 2 ^ 64.
Proof.
  intros P ads js f type defaultValue upperBorder lowerBorder children com com' value Hr.
  unfold TcBinding.read in Hr. cbn [TcBinding.fields] in Hr.
  destruct (TcBinding.isValid f); cbn [negb] in Hr; [| discriminate].
  unfold bind in Hr.
  destruct (TcCom.read (TcBinding.readPackages f) com) as [[dataPackages | e] com1];
    [| discriminate].
  eapply uint64_fromRaw. exact Hr.
Qed.

Lemma uint64_read_is_unsigned_witness :
  exists z,
    match fst (@TcBinding.read _ minus_one Sample.runtime total (Sample.com ∅)) with
    | Ok value => value
    | Throw _ => VUndefined
    end = VBigInt z /\ 0 <= z < 2 ^ 64.
Proof.
  apply (uint64_read_is_unsigned Sample.Memory minus_one Sample.runtime
           (TcBinding.fields total) "ULINT" None
           (Big 18446744073709551616) (Big 0) [] (Sample.com ∅)
           (snd (@TcBinding.read _ minus_one Sample.runtime total (Sample.com ∅)))).
  vm_compute. reflexivity.
Defined.

(** ** Reading a structure ([TcStructureBinding.fromRaw]) *)

Lemma Key_eqb_eq a b : Key_eqb a b = true <-> a = b.
Proof.
  destruct a, b; cbn; split; intros Heq; try discriminate; try congruence.
  - apply String.eqb_eq in Heq. congruence.
  - inversion Heq. apply String.eqb_refl.
  - apply Z.eqb_eq in Heq. congruence.
  - inversion Heq. apply Z.eqb_refl.
Qed.

Lemma js_set_fresh {A} (obj : list (Key * A)) key v :
  ~ In key (map fst obj) -> TcBinding.js_set obj key v = obj ++ [(key, v)].
Proof.
  induction obj as [| [k x] rest IH]; intros Hfresh; [reflexivity |].
  cbn in *. destruct (Key_eqb k key) eqn:E.
  - apply Key_eqb_eq in E. exfalso. apply Hfresh. left. exact E.
  - rewrite IH; [reflexivity |]. intros Hin. apply Hfresh. right. exact Hin.
Qed.

Lemma childrenBindings_distinct {A} (ch : list (Key * A)) :
  List.NoDup (map fst ch) -> TcBinding.childrenBindings ch = ch.
Proof.
  unfold TcBinding.childrenBindings.
  assert (Hgen : forall acc, List.NoDup (map fst (acc ++ ch)) ->
            fold_left (fun obj kv => TcBinding.js_set obj (fst kv) (snd kv)) ch acc
            = acc ++ ch).
  { induction ch as [| [k x] rest IH]; intros acc Hnd; cbn.
    - rewrite app_nil_r. reflexivity.
    - rewrite js_set_fresh.
      + rewrite IH; rewrite <- app_assoc; [reflexivity | exact Hnd].
      + rewrite map_app in Hnd. cbn in Hnd.
        apply NoDup_remove_2 in Hnd. intros Hin. apply Hnd.
        apply in_or_app. left. exact Hin. }
  intros Hnd. apply (Hgen [] Hnd).
Qed.

Lemma js_keep_fresh {A} (obj : list (Key * A)) key v :
  ~ In key (map fst obj) -> TcBinding.js_keep obj key v = obj ++ [(key, v)].
Proof.
  induction obj as [| [k x] rest IH]; intros Hfresh; [reflexivity |].
  cbn in *. destruct (Key_eqb k key) eqn:E.
  - apply Key_eqb_eq in E. exfalso. apply Hfresh. left. exact E.
  - rewrite IH; [reflexivity |]. intros Hin. apply Hfresh. right. exact Hin.
Qed.

Lemma namespaceBindings_distinct {A} (ch : list (Key * A)) :
  List.NoDup (map fst ch) -> TcBinding.namespaceBindings ch = ch.
Proof.
  unfold TcBinding.namespaceBindings.
  assert (Hgen : forall acc, List.NoDup (map fst (acc ++ ch)) ->
            fold_left (fun obj kv => TcBinding.js_keep obj (fst kv) (snd kv)) ch acc
            = acc ++ ch).
  { induction ch as [| [k x] rest IH]; intros acc Hnd; cbn.
    - rewrite app_nil_r. reflexivity.
    - rewrite js_keep_fresh.
      + rewrite IH; rewrite <- app_assoc; [reflexivity | exact Hnd].
      + rewrite map_app in Hnd. cbn in Hnd.
        apply NoDup_remove_2 in Hnd. intros Hin. apply Hnd.
        apply in_or_app. left. exact Hin. }
  intros Hnd. apply (Hgen [] Hnd).
Qed.

(** With distinct keys, the children of the node are the children of the
    binding. *)
Lemma registered_distinct {A} cls (ch : list (Key * A)) :
  List.NoDup (map fst ch) -> TcBinding.registered cls ch = ch.
Proof.
  destruct cls; cbn [TcBinding.registered];
    first [apply childrenBindings_distinct | apply namespaceBindings_distinct].
Qed.

Lemma Object_entries_names {A} (obj : list (Key * A)) :
  Forall (fun kv => is_member_name (fst kv)) obj -> TcBinding.Object_entries obj = obj.
Proof.
  intros Hnames. unfold TcBinding.Object_entries.
  assert (Hnone : filter (fun kv => TcBinding.is_array_index (fst kv)) obj = []).
  { induction Hnames as [| [k x] rest Hk _ IH]; [reflexivity |].
    cbn. destruct k; [exact IH | destruct Hk]. }
  assert (Hall : filter (fun kv => negb (TcBinding.is_array_index (fst kv))) obj = obj).
  { clear Hnone. induction Hnames as [| [k x] rest Hk _ IH]; [reflexivity |].
    cbn. destruct k; [f_equal; exact IH | destruct Hk]. }
  rewrite Hnone, Hall. reflexivity.
Qed.

Section StructureRead.
Context {P : Type} `{ADS P} `{JsRuntime}.
Implicit Types com : TcCom.t P.

Lemma convert_members_slices
  (members : list (Key * (nat * (list TcDataPackage -> M (TcCom.t P) Value))))
  dataPackages : forall start com,
  exists promises com',
    TcBinding.convert_members members dataPackages start com = (Ok promises, com') /\
    Forall2 (fun ms r => exists ca cb, snd (snd (fst ms)) (snd ms) ca = (r, cb))
      (combine members
         (member_slices (map (fun m => fst (snd m)) members) dataPackages start))
      promises.
Proof.
  induction members as [| [k [n conv]] rest IH]; intros start com.
  - exists [], com. split; [reflexivity | constructor].
  - cbn [TcBinding.convert_members]. unfold bind at 1. unfold settle at 1.
    destruct (conv (slice dataPackages start (start + n)) com) as [r com1] eqn:Hconv.
    unfold bind at 1.
    destruct (IH (start + n)%nat com1) as (promises & com' & Hrest & Hall).
    rewrite Hrest. exists (r :: promises), com'. split; [reflexivity |].
    cbn. constructor; [| exact Hall]. cbn. exists com, com1. exact Hconv.
Qed.

Lemma fromRaw_members f cls ch dataPackages com :
  match cls with
  | TcBinding.TcStructureBinding _ | TcBinding.TcNamespaceBinding => True
  | _ => False
  end ->
  TcBinding.isValid f = true ->
  List.NoDup (map fst ch) ->
  Forall (fun kc => is_member_name (fst kc)) ch ->
  TcBinding.fromRaw (TcBinding.Node f cls ch) dataPackages com
  = (let* promises := TcBinding.convert_members (map member_of ch) dataPackages 0 in
     let* values := lift (Promise_all promises) in
     ret (VObject (combine (map (fun kc => TcBinding.Key_toString (fst kc)) ch) values)))
      com.
Proof.
  intros Hcls Hvalid Hnd Hnames.
  assert (Heach : (fix each (ch : list (Key * TcBinding.t)) :=
                     match ch with
                     | [] => []
                     | (key, child) :: rest =>
                         (key, (List.length (TcBinding.readPackages (TcBinding.fields child)),
                                TcBinding.fromRaw child)) :: each rest
                     end) ch = map member_of ch).
  { clear. induction ch as [| [k c] rest IH]; [reflexivity |]. rewrite IH. reflexivity. }
  assert (Hmembers : TcBinding.Object_entries
                       (TcBinding.registered cls (map member_of ch))
                     = map member_of ch).
  { rewrite registered_distinct.
    - apply Object_entries_names. apply Forall_map.
      eapply Forall_impl; [exact Hnames |]. intros [k c] Hk. exact Hk.
    - rewrite map_map. cbn. exact Hnd. }
  assert (Hkeys : map (fun m : Key * (nat * (list TcDataPackage -> M (TcCom.t P) Value)) =>
                         TcBinding.Key_toString (fst m)) (map member_of ch)
                  = map (fun kc => TcBinding.Key_toString (fst kc)) ch).
  { rewrite map_map. reflexivity. }
  destruct cls; try destruct Hcls; cbn [TcBinding.fromRaw];
    rewrite Heach, Hmembers, Hvalid, Hkeys; reflexivity.
Qed.

Lemma struct_fromRaw_members f cls ch dataPackages com value com' :
  match cls with
  | TcBinding.TcStructureBinding _ | TcBinding.TcNamespaceBinding => True
  | _ => False
  end ->
  TcBinding.isValid f = true ->
  List.NoDup (map fst ch) ->
  Forall (fun kc => is_member_name (fst kc)) ch ->
  TcBinding.fromRaw (TcBinding.Node f cls ch) dataPackages com = (Ok value, com') ->
  exists values,
    value = VObject (combine (map (fun kc => TcBinding.Key_toString (fst kc)) ch) values) /\
    List.length values = List.length ch /\
    Forall2 (fun ms v => exists ca cb, TcBinding.fromRaw (snd (fst ms)) (snd ms) ca = (Ok v, cb))
      (combine ch
         (member_slices
            (map (fun kc => List.length (TcBinding.readPackages (TcBinding.fields (snd kc))))
               ch) dataPackages 0))
      values.
Proof.
  intros Hcls Hvalid Hnd Hnames Hfrom.
  rewrite (fromRaw_members f cls ch dataPackages com Hcls Hvalid Hnd Hnames) in Hfrom.
  unfold bind at 1 in Hfrom.
  destruct (convert_members_slices (map member_of ch) dataPackages 0%nat com)
    as (promises & com1 & Hconv & Hall).
  rewrite Hconv in Hfrom. rewrite lift_bind in Hfrom.
  destruct (Promise_all promises) as [values | e] eqn:Hpa; [| discriminate].
  unfold ret in Hfrom. inversion Hfrom; subst value com1.
  apply Promise_all_Ok in Hpa. subst promises.
  exists values. split; [reflexivity |].
  rewrite map_map in Hall. cbn [member_of fst snd] in Hall.
  assert (Hlen : List.length values = List.length ch).
  { apply Forall2_length in Hall. rewrite length_map in Hall.
    rewrite length_combine, length_map in Hall.
    assert (Hs : forall (counts : list nat) (start : nat),
               List.length (member_slices counts dataPackages start) = List.length counts).
    { induction counts as [| n rest IH]; intros start; cbn; [reflexivity |].
      rewrite IH. reflexivity. }
    rewrite Hs, length_map in Hall. lia. }
  split; [exact Hlen |].
  revert Hall. generalize 0%nat at 1 2.
  clear Hlen Hconv Hfrom Hnd Hnames.
  revert values. induction ch as [| [k c] rest IH]; intros values start Hall.
  - destruct values; [constructor | inversion Hall].
  - destruct values as [| v values]; [inversion Hall |].
    cbn in Hall. inversion Hall as [| ? ? ? ? Hhead Htail]; subst.
    cbn. constructor; [exact Hhead | apply IH; exact Htail].
Qed.

End StructureRead.

(** X13. [read()] of a valid structure or namespace binding whose members
    have distinct names returns an object with exactly the declared member
    names, in the order of declaration; the value under each name is what
    the [fromRaw] of that member returned on its own slice of the packages
    read: the slices are consecutive and as long as the member has read
    pointers. *)
Theorem struct_read_returns_declared_members :
  forall (P : Type) (ads : ADS P) (js : JsRuntime)
    (f : TcBinding.Fields) (cls : TcBinding.Class) (ch : list (Key * TcBinding.t))
    (com com' : TcCom.t P) (value : Value),
    match cls with
    | TcBinding.TcStructureBinding _ | TcBinding.TcNamespaceBinding => True
    | _ => False
    end ->
    List.NoDup (map fst ch) ->
    Forall (fun kc => is_member_name (fst kc)) ch ->
    TcBinding.read (TcBinding.Node f cls ch) com = (Ok value, com') ->
    exists dataPackages com1 values,
      TcCom.read (TcBinding.readPackages f) com = (Ok dataPackages, com1) /\
      value = VObject (combine (map (fun kc => TcBinding.Key_toString (fst kc)) ch) values) /\
      List.length values = List.length ch /\
      Forall2 (fun ms v =>
                 exists ca cb, TcBinding.fromRaw (snd (fst ms)) (snd ms) ca = (Ok v, cb))
        (combine ch
           (member_slices
              (map (fun kc => List.length (TcBinding.readPackages (TcBinding.fields (snd kc))))
                 ch) dataPackages 0))
        values.
Proof.
  intros P ads js f cls ch com com' value Hcls Hnd Hnames Hread.
  unfold TcBinding.read in Hread. cbn [TcBinding.fields] in Hread.
  destruct (TcBinding.isValid f) eqn:Hvalid; cbn [negb] in Hread; [| discriminate].
  unfold bind in Hread.
  destruct (TcCom.read (TcBinding.readPackages f) com) as [[dataPackages | e] com1];
    [| discriminate].
  destruct (struct_fromRaw_members f cls ch dataPackages com1 value com'
              Hcls Hvalid Hnd Hnames Hread) as (values & Hv & Hlen & Hall).
  exists dataPackages, com1, values. auto.
Qed.

Lemma struct_read_returns_declared_members_witness :
  exists dataPackages com1 values,
    TcCom.read (TcBinding.readPackages (TcBinding.fields Sample.normalFoo))
      (Sample.com memory_before) = (Ok dataPackages, com1) /\
    match fst (TcBinding.read Sample.normalFoo (Sample.com memory_before)) with
    | Ok value => value
    | Throw _ => VUndefined
    end = VObject (combine ["stringValue"; "numericValue"] values) /\
    List.length values = 2%nat /\
    Forall2 (fun ms v =>
               exists ca cb, TcBinding.fromRaw (snd (fst ms)) (snd ms) ca = (Ok v, cb))
      (combine (TcBinding.children Sample.normalFoo)
         (member_slices [1%nat; 1%nat] dataPackages 0))
      values.
Proof.
  apply (struct_read_returns_declared_members Sample.Memory Sample.ads Sample.runtime
           (TcBinding.fields Sample.normalFoo) (TcBinding.TcStructureBinding [])
           (TcBinding.children Sample.normalFoo) (Sample.com memory_before)
           (snd (TcBinding.read Sample.normalFoo (Sample.com memory_before)))).
  - exact I.
  - cbn. repeat constructor; cbn; intuition discriminate.
  - cbn. repeat constructor.
  - vm_compute. reflexivity.
Defined.

(** ** Instantiation of symbols ([TcType.instance], the [TcSymbol] constructors) *)

Lemma instance_array c child dimensions path parentReadOnly pointer :
  TcSymbol.instance (TcType.TcArrayType c child dimensions) path parentReadOnly pointer
  = TcArraySymbol (TcType.TcArrayType c child dimensions) child dimensions true path
      parentReadOnly pointer.
Proof. reflexivity. Qed.

Lemma addChild_without_packages this key child :
  without_packages (TcBinding.fields (TcBinding.addChild this key child))
  = without_packages (TcBinding.fields this).
Proof. destruct this as [f cls ch]. reflexivity. Qed.

Lemma addChild_class this key child :
  TcBinding.class (TcBinding.addChild this key child) = TcBinding.class this.
Proof. destruct this as [f cls ch]. reflexivity. Qed.

Lemma struct_forEach_root path readOnly pointer children : forall this,
  without_packages (TcBinding.fields (struct_forEach path readOnly pointer children this))
  = without_packages (TcBinding.fields this) /\
  TcBinding.class (struct_forEach path readOnly pointer children this)
  = TcBinding.class this.
Proof.
  induction children as [| [key type] rest IH]; intros this; [split; reflexivity |].
  cbn [struct_forEach]. destruct (IH (TcBinding.addChild this (KString key)
    (TcSymbol.instance type (path +:+ "." +:+ key) readOnly
       {| ptr_indexGroup := ptr_indexGroup pointer;
          ptr_indexOffset := ptr_indexOffset pointer + TcType.offset type;
          ptr_size := TcType.size type |}))) as [Hf Hc].
  rewrite Hf, Hc, addChild_without_packages, addChild_class. split; reflexivity.
Qed.

Lemma array_elements_root child path readOnly pointer todo : forall this,
  without_packages (TcBinding.fields (array_elements child path readOnly pointer todo this))
  = without_packages (TcBinding.fields this).
Proof.
  unfold array_elements. induction todo as [| index rest IH]; intros this; [reflexivity |].
  cbn [fold_left]. rewrite IH, addChild_without_packages. reflexivity.
Qed.

Lemma TcArraySymbol_root params child remaining top path parentReadOnly pointer :
  without_packages
    (TcBinding.fields (TcArraySymbol params child remaining top path parentReadOnly pointer))
  = without_packages
      (TcBinding.new_TcSymbolBinding path (parentReadOnly || TcType.readOnly params)
         pointer params).
Proof.
  destruct remaining as [| dimension [| next deeper]]; cbn [TcArraySymbol].
  - reflexivity.
  - rewrite array_elements_root. reflexivity.
  - match goal with
    | |- without_packages (TcBinding.fields (?proxies ?l ?this)) = _ =>
        assert (Hgen : forall indices this',
                   without_packages (TcBinding.fields (proxies indices this'))
                   = without_packages (TcBinding.fields this'))
    end.
    { induction indices as [| index rest IH]; intros this'; [reflexivity |].
      cbn. rewrite IH, addChild_without_packages. reflexivity. }
    rewrite Hgen. reflexivity.
Qed.

(** The binding at the root of an instantiated symbol. *)
Lemma instance_root params path parentReadOnly pointer :
  without_packages (TcBinding.fields (TcSymbol.instance params path parentReadOnly pointer))
  = without_packages
      (TcBinding.new_TcSymbolBinding path (parentReadOnly || TcType.readOnly params)
         pointer params).
Proof.
  destruct params as [c | c kind u l | c n | c f b | c children rpc | c child dims].
  1-4: cbn [TcSymbol.instance]; unfold TcBinding.new_TcSimpleBinding;
       destruct (TcType.defaultBuffer _); reflexivity.
  - rewrite instance_struct.
    rewrite (proj1 (struct_forEach_root _ _ _ _ _)). reflexivity.
  - rewrite instance_array. apply TcArraySymbol_root.
Qed.

Lemma or_name_Some alias name name' :
  name <> "" -> or_name (Some (or_name alias name)) name' = or_name alias name.
Proof.
  intros Hname. destruct alias as [[| c rest] |]; cbn;
    destruct name; first [reflexivity | contradiction].
Qed.

(** X14. The events of [$set], [$get] and [$clear] on an instantiated
    symbol. Each of them emits one event after the operation on the binding
    has succeeded, and none when it fails. The binding is constructed with
    the [onGet] alias of the type in the place of [onSet] and the [onSet]
    alias in the place of [onGet]: the event of [$set] is emitted under the
    [onGet] name of the type (['get'] without an alias), the event of
    [$get] under its [onSet] name (['set'] without an alias), and the event
    of [$clear] under its [onClear] name. When that name is ['error'], for
    which no listener is registered, the emitter throws instead: the
    operation on the binding has been carried out, and the method fails. *)
Theorem symbol_events :
  forall (P : Type) (ads : ADS P) (js : JsRuntime) (params : TcType.t) (path : string)
    (parentReadOnly : bool) (pointer : TcSymbolPointer) (value : Value)
    (s : TcSymbolMethods.t P),
    let symbol := TcSymbol.instance params path parentReadOnly pointer in
    let after com events :=
      {| TcSymbolMethods.COM := com;
         TcSymbolMethods.emitted := TcSymbolMethods.emitted s ++ events |} in
    TcSymbolMethods.set symbol value s
    = match TcBinding.write symbol value (TcSymbolMethods.COM s) with
      | (Ok _, com) =>
          if String.eqb (TcType.onGet params) "error"
          then (Throw (JsError "Unhandled error."), after com [])
          else (Ok value,
                after com [(TcType.onGet params,
                            TcSymbolMethods.TcSymbolSetEvent path value)])
      | (Throw e, com) => (Throw e, after com [])
      end /\
    TcSymbolMethods.get symbol s
    = match TcBinding.read symbol (TcSymbolMethods.COM s) with
      | (Ok result, com) =>
          if String.eqb (TcType.onSet params) "error"
          then (Throw (JsError "Unhandled error."), after com [])
          else (Ok result,
                after com [(TcType.onSet params,
                            TcSymbolMethods.TcSymbolGetEvent path result)])
      | (Throw e, com) => (Throw e, after com [])
      end /\
    TcSymbolMethods.clear symbol s
    = match TcBinding.clear symbol (TcSymbolMethods.COM s) with
      | (Ok _, com) =>
          if String.eqb (TcType.onClear params) "error"
          then (Throw (JsError "Unhandled error."), after com [])
          else (Ok tt,
                after com [(TcType.onClear params,
                            TcSymbolMethods.TcSymbolClearedEvent path)])
      | (Throw e, com) => (Throw e, after com [])
      end.
Proof.
  intros P ads js params path parentReadOnly pointer value s symbol after.
  pose proof (instance_root params path parentReadOnly pointer) as Hroot.
  fold symbol in Hroot.
  assert (Hpath : TcSymbol.path symbol = path)
    by exact (f_equal TcBinding.path Hroot).
  assert (HonSet : TcBinding.onSet (TcBinding.fields symbol) = TcType.onGet params).
  { transitivity (or_name (Some (TcType.onGet params)) "set");
      [exact (f_equal TcBinding.onSet Hroot) | apply or_name_Some; discriminate]. }
  assert (HonGet : TcBinding.onGet (TcBinding.fields symbol) = TcType.onSet params).
  { transitivity (or_name (Some (TcType.onSet params)) "get");
      [exact (f_equal TcBinding.onGet Hroot) | apply or_name_Some; discriminate]. }
  assert (HonClear : TcBinding.onClear (TcBinding.fields symbol) = TcType.onClear params).
  { transitivity (or_name (Some (TcType.onClear params)) "cleared");
      [exact (f_equal TcBinding.onClear Hroot) | apply or_name_Some; discriminate]. }
  unfold TcSymbolMethods.set, TcSymbolMethods.get, TcSymbolMethods.clear,
    TcSymbolMethods.emitSet, TcSymbolMethods.emitGet, TcSymbolMethods.emitCleared,
    TcSymbolMethods.emit, TcSymbolMethods.onCOM, bind, ret, throw, after.
  rewrite Hpath, HonSet, HonGet, HonClear.
  repeat split.
  - destruct (TcBinding.write symbol value (TcSymbolMethods.COM s)) as [[v | e] com];
      [destruct (String.eqb (TcType.onGet params) "error") |];
      cbn; rewrite ?app_nil_r; reflexivity.
  - destruct (TcBinding.read symbol (TcSymbolMethods.COM s)) as [[v | e] com];
      [destruct (String.eqb (TcType.onSet params) "error") |];
      cbn; rewrite ?app_nil_r; reflexivity.
  - destruct (TcBinding.clear symbol (TcSymbolMethods.COM s)) as [[[] | e] com];
      [destruct (String.eqb (TcType.onClear params) "error") |];
      cbn; rewrite ?app_nil_r; reflexivity.
Qed.









Lemma instance_child_at params path parentReadOnly pointer key :
  child_at key path pointer (parentReadOnly || TcType.readOnly params)
    (key, TcSymbol.instance params path parentReadOnly pointer).
Proof.
  pose proof (instance_root params path parentReadOnly pointer) as Hroot.
  unfold child_at, TcSymbol.path, TcSymbol.readOnly. cbn [fst snd].
  split; [reflexivity |].
  split; [exact (f_equal TcBinding.path Hroot) |].
  split; [exact (f_equal TcBinding.indexGroup Hroot) |].
  split; [exact (f_equal TcBinding.indexOffset Hroot) |].
  split; [exact (f_equal TcBinding.size Hroot) |].
  exact (f_equal TcBinding.readOnly Hroot).
Qed.

Lemma addChild_children this key child :
  TcBinding.children (TcBinding.addChild this key child)
  = TcBinding.children this ++ [(key, child)].
Proof. destruct this as [f cls ch]. reflexivity. Qed.

Lemma struct_forEach_children path readOnly pointer children : forall this,
  TcBinding.children (struct_forEach path readOnly pointer children this)
  = TcBinding.children this
    ++ map (fun kt =>
              (KString (fst kt),
               TcSymbol.instance (snd kt) (path +:+ "." +:+ fst kt) readOnly
                 {| ptr_indexGroup := ptr_indexGroup pointer;
                    ptr_indexOffset := ptr_indexOffset pointer + TcType.offset (snd kt);
                    ptr_size := TcType.size (snd kt) |})) children.
Proof.
  induction children as [| [key type] rest IH]; intros this.
  - cbn. rewrite app_nil_r. reflexivity.
  - cbn [struct_forEach map fst snd]. rewrite IH, addChild_children, <- app_assoc.
    reflexivity.
Qed.

Lemma array_elements_children child path readOnly pointer todo : forall this,
  TcBinding.children (array_elements child path readOnly pointer todo this)
  = TcBinding.children this
    ++ map (fun index =>
              (KIndex index,
               TcSymbol.instance child (path +:+ pretty index +:+ "]") readOnly
                 {| ptr_indexGroup := ptr_indexGroup pointer;
                    ptr_indexOffset := ptr_indexOffset pointer + TcType.size child * index;
                    ptr_size := TcType.size child |})) todo.
Proof.
  unfold array_elements. induction todo as [| index rest IH]; intros this.
  - cbn. rewrite app_nil_r. reflexivity.
  - cbn [fold_left map]. rewrite IH, addChild_children, <- app_assoc. reflexivity.
Qed.

Lemma string_app_assoc (a b c : string) : (a +:+ b) +:+ c = a +:+ (b +:+ c).
Proof.
  induction a as [| x rest IH]; [reflexivity |].
  change (String x ((rest +:+ b) +:+ c) = String x (rest +:+ (b +:+ c))).
  rewrite IH. reflexivity.
Qed.

Lemma Forall2_map_r {A B} (R : A -> B -> Prop) (g : A -> B) (l : list A) :
  (forall x, In x l -> R x (g x)) -> Forall2 R l (map g l).
Proof.
  induction l as [| x rest IH]; intros Hall; cbn; constructor.
  - apply Hall. left. reflexivity.
  - apply IH. intros y Hy. apply Hall. right. exact Hy.
Qed.

(** X16. The members of an instantiated structure symbol are the members of
    the structure type, one for one and in the order of declaration. The
    member under the name [key] has the path ["<path>.<key>"], lies in the
    index group of the structure at the offset of the structure plus the
    offset of the member type, has the size of the member type, and is
    read-only when the structure is or when the member type is. *)
Theorem struct_members_location :
  forall (c : TcType.Common) (children : list (string * TcType.t))
    (rpcMethods : list string) (path : string) (parentReadOnly : bool)
    (pointer : TcSymbolPointer),
    let params := TcType.TcStructType c children rpcMethods in
    Forall2 (fun kt kc =>
               child_at (KString (fst kt)) (path +:+ "." +:+ fst kt)
                 {| ptr_indexGroup := ptr_indexGroup pointer;
                    ptr_indexOffset := ptr_indexOffset pointer + TcType.offset (snd kt);
                    ptr_size := TcType.size (snd kt) |}
                 ((parentReadOnly || TcType.readOnly params) || TcType.readOnly (snd kt))
                 kc)
      children
      (TcBinding.children (TcSymbol.instance params path parentReadOnly pointer)).
Proof.
  intros c children rpcMethods path parentReadOnly pointer params. unfold params.
  rewrite instance_struct, struct_forEach_children. cbn [TcBinding.children app].
  apply Forall2_map_r. intros [key type] _. apply instance_child_at.
Qed.

(** X17. The elements of an instantiated one-dimensional array symbol are
    created for the indices from [startIndex] to [startIndex + length - 1],
    in this order. The element with the index [i] has the path
    ["<path>[i]"] and the size of the element type, and lies at the offset
    of the array plus the size of the element type times [i]: the index
    itself is used, not the index less [startIndex]. *)
Theorem array_elements_location :
  forall (c : TcType.Common) (child : TcType.t) (dimension : TcArrayDimension)
    (path : string) (parentReadOnly : bool) (pointer : TcSymbolPointer),
    let params := TcType.TcArrayType c child [dimension] in
    Forall2 (fun index kc =>
               child_at (KIndex index) (path +:+ "[" +:+ pretty index +:+ "]")
                 {| ptr_indexGroup := ptr_indexGroup pointer;
                    ptr_indexOffset := ptr_indexOffset pointer + TcType.size child * index;
                    ptr_size := TcType.size child |}
                 ((parentReadOnly || TcType.readOnly params) || TcType.readOnly child)
                 kc)
      (TcSymbol.indices (dim_startIndex dimension) (dim_length dimension))
      (TcBinding.children (TcSymbol.instance params path parentReadOnly pointer)).
Proof.
  intros c child dimension path parentReadOnly pointer params. unfold params.
  rewrite instance_array. cbn [TcArraySymbol].
  rewrite array_elements_children. cbn [TcBinding.children app].
  apply Forall2_map_r. intros index _.
  pose proof (instance_child_at child ((path +:+ "[") +:+ pretty index +:+ "]")
                (parentReadOnly || TcType.readOnly (TcType.TcArrayType c child [dimension]))
                {| ptr_indexGroup := ptr_indexGroup pointer;
                   ptr_indexOffset := ptr_indexOffset pointer + TcType.size child * index;
                   ptr_size := TcType.size child |} (KIndex index)) as Hat.
  replace (path +:+ "[" +:+ pretty index +:+ "]")
    with ((path +:+ "[") +:+ pretty index +:+ "]"); [exact Hat |].
  apply string_app_assoc.
Qed.

(** ** Types: attributes, [mutate], [clone] and the constructors *)

Section TypeAttributes.
Context `{JsRuntime}.

(** What one attribute changes. *)
Lemma getParameter_step ty name value :
  let ty' := TcType.__getParameter ty name value in
  let nameFormatted := toLowerCase (trim name) in
  TcType.name ty' = TcType.name ty /\
  TcType.adst ty' = TcType.adst ty /\
  TcType.size ty' = TcType.size ty /\
  TcType.offset ty' = TcType.offset ty /\
  TcType.defaultBuffer ty' = TcType.defaultBuffer ty /\
  TcType.readOnly ty' = TcType.readOnly ty || String.eqb nameFormatted "readonly" /\
  TcType.ignored ty' = TcType.ignored ty || String.eqb nameFormatted "ignored" /\
  class_of ty' = class_of ty.
Proof.
  cbn zeta. unfold TcType.name, TcType.adst, TcType.size, TcType.offset,
    TcType.defaultBuffer, TcType.readOnly, TcType.ignored.
  destruct ty; cbn [TcType.__getParameter]; unfold TcType.base__getParameter;
    repeat match goal with
           | |- context [String.eqb ?a ?b] => destruct (String.eqb a b) eqn:?
           | |- context [if TcType.is64 ?a then _ else _] => destruct (TcType.is64 a)
           | |- context [match TcType.c_default ?c with _ => _ end] =>
               destruct (TcType.c_default c)
           end;
    cbn; rewrite ?orb_true_r, ?orb_false_r; repeat split; try congruence;
    exfalso;
    repeat match goal with
           | Heq : String.eqb _ _ = true |- _ => apply String.eqb_eq in Heq
           end; congruence.
Qed.

Lemma mutate_attributes attrs : forall ty,
  let ty' := fold_left (fun ty a => TcType.__getParameter ty (attr_name a) (attr_value a))
               attrs ty in
  TcType.name ty' = TcType.name ty /\
  TcType.adst ty' = TcType.adst ty /\
  TcType.size ty' = TcType.size ty /\
  TcType.offset ty' = TcType.offset ty /\
  TcType.defaultBuffer ty' = TcType.defaultBuffer ty /\
  TcType.readOnly ty' = TcType.readOnly ty || existsb (attribute_named "readonly") attrs /\
  TcType.ignored ty' = TcType.ignored ty || existsb (attribute_named "ignored") attrs /\
  class_of ty' = class_of ty.
Proof.
  induction attrs as [| a rest IH]; intros ty; cbn zeta.
  - cbn. rewrite !orb_false_r. repeat split.
  - cbn [fold_left existsb].
    destruct (IH (TcType.__getParameter ty (attr_name a) (attr_value a)))
      as (Hn & Ha & Hs & Ho & Hb & Hr & Hi & Hc).
    destruct (getParameter_step ty (attr_name a) (attr_value a))
      as (Hn1 & Ha1 & Hs1 & Ho1 & Hb1 & Hr1 & Hi1 & Hc1).
    rewrite Hn, Ha, Hs, Ho, Hb, Hr, Hi, Hc, Hn1, Ha1, Hs1, Ho1, Hb1, Hr1, Hi1, Hc1.
    unfold attribute_named. rewrite !orb_assoc. repeat split.
Qed.

Lemma with_common_getters ty c :
  TcType.common (TcType.with_common ty c) = c /\
  class_of (TcType.with_common ty c) = class_of ty.
Proof. destruct ty; split; reflexivity. Qed.

Lemma mutate_getters ty mutator :
  let ty' := TcType.mutate ty mutator in
  TcType.name ty' = TcType.name ty /\
  TcType.adst ty' = TcType.adst ty /\
  TcType.size ty' = TcType.size ty /\
  TcType.offset ty' = TcType.offset_or (tb_offset mutator) (TcType.offset ty) /\
  TcType.defaultBuffer ty' = TcType.defaultBuffer ty /\
  TcType.readOnly ty' = TcType.readOnly ty || has_attribute "readonly" mutator /\
  TcType.ignored ty' = TcType.ignored ty || has_attribute "ignored" mutator /\
  class_of ty' = class_of ty.
Proof.
  cbn zeta. unfold TcType.mutate, has_attribute.
  set (ty1 := match tb_attributes mutator with
              | Some attrs => fold_left _ attrs ty
              | None => ty
              end).
  assert (H1 : TcType.name ty1 = TcType.name ty /\
               TcType.adst ty1 = TcType.adst ty /\
               TcType.size ty1 = TcType.size ty /\
               TcType.offset ty1 = TcType.offset ty /\
               TcType.defaultBuffer ty1 = TcType.defaultBuffer ty /\
               TcType.readOnly ty1
               = TcType.readOnly ty
                 || match tb_attributes mutator with
                    | Some attrs => existsb (attribute_named "readonly") attrs
                    | None => false
                    end /\
               TcType.ignored ty1
               = TcType.ignored ty
                 || match tb_attributes mutator with
                    | Some attrs => existsb (attribute_named "ignored") attrs
                    | None => false
                    end /\
               class_of ty1 = class_of ty).
  { unfold ty1. destruct (tb_attributes mutator) as [attrs |].
    - apply mutate_attributes.
    - rewrite !orb_false_r. repeat split. }
  destruct H1 as (Hn & Ha & Hs & Ho & Hb & Hr & Hi & Hc).
  destruct (with_common_getters ty1
              (TcType.set_offset (TcType.common ty1)
                 (TcType.offset_or (tb_offset mutator) (TcType.offset ty1))))
    as [Hcommon Hclass].
  unfold TcType.name, TcType.adst, TcType.size, TcType.offset, TcType.defaultBuffer,
    TcType.readOnly, TcType.ignored in *.
  rewrite Hcommon, Hclass. cbn. rewrite <- Ho. repeat split; assumption.
Qed.

End TypeAttributes.


Lemma copy_instance this path parentReadOnly pointer :
  TcSymbol.instance (TcType.copy this) path parentReadOnly pointer
  = TcSymbol.instance this path parentReadOnly pointer.
Proof.
  destruct this; cbn [TcType.copy TcSymbol.instance];
    unfold TcBinding.new_TcSimpleBinding, TcBinding.new_TcSymbolBinding,
      TcBinding.new_TcBinding, TcType.onSet, TcType.onGet, TcType.onClear,
      TcType.onChange, TcType.readOnly, TcType.name, TcType.defaultBuffer,
      TcType.adst, TcType.copy_common;
    cbn [TcType.common TcType.c_onSet TcType.c_onGet TcType.c_onClear
           TcType.c_onChange TcType.c_readOnly TcType.c_name TcType.c_defaultBuffer
           TcType.c_adst];
    unfold TcType.onSet, TcType.onGet, TcType.onClear, TcType.onChange,
      TcType.readOnly, TcType.name, TcType.defaultBuffer, TcType.adst;
    cbn [TcType.common];
    rewrite !(or_name_Some (TcType.c_onSet c)), !(or_name_Some (TcType.c_onGet c)),
      !(or_name_Some (TcType.c_onClear c)), !(or_name_Some (TcType.c_onChange c))
      by discriminate;
    reflexivity.
Qed.

(** X19. [clone()] without a mutator makes no call on the [TcCom] and
    returns a type that stands for the original: its getters return what
    those of the original return, and the symbols instantiated from it are
    the symbols instantiated from the original. *)
Theorem clone_without_mutator :
  forall (P : Type) (ads : ADS P) (js : JsRuntime) (this : TcType.t) (com : TcCom.t P),
  exists clone,
    TcType.clone this None com = (Ok (Some clone), com) /\
    class_of clone = class_of this /\
    TcType.name clone = TcType.name this /\
    TcType.adst clone = TcType.adst this /\
    TcType.size clone = TcType.size this /\
    TcType.offset clone = TcType.offset this /\
    TcType.readOnly clone = TcType.readOnly this /\
    TcType.ignored clone = TcType.ignored this /\
    TcType.defaultValue clone = TcType.defaultValue this /\
    TcType.defaultBuffer clone = TcType.defaultBuffer this /\
    forall path parentReadOnly pointer,
      TcSymbol.instance clone path parentReadOnly pointer
      = TcSymbol.instance this path parentReadOnly pointer.
Proof.
  intros P ads js this com. exists (TcType.copy this).
  split; [reflexivity |].
  repeat split; try (destruct this; reflexivity).
  2: intros path parentReadOnly pointer; apply copy_instance.
  destruct this as [c | c kind u l | c n | c f b | c ch r | c ch d];
    unfold TcType.defaultValue; cbn [TcType.copy TcType.common TcType.copy_common
                                       TcType.c_default];
    unfold TcType.defaultValue, TcType.adst; cbn [TcType.common];
    destruct (TcType.c_default c); try reflexivity;
    destruct (TcType.is64 (TcType.c_adst c)); reflexivity.
Qed.

Section Ignored.
Context {P : Type} `{ADS P} `{JsRuntime}.



End Ignored.



Section Constructors.
Context `{JsRuntime}.

Lemma new_TcStringType_length (typeData : TcTypeInfo) :
  exists c,
    TcType.new_TcStringType typeData = TcType.TcStringType c (tb_size typeData - 1) /\
    TcType.c_readOnly c = has_attribute "readonly" typeData /\
    TcType.c_name c = tb_name typeData.
Proof.
  unfold TcType.new_TcStringType.
  destruct (mutate_getters (TcType.TcStringType (TcType.raw_common typeData) 0) typeData)
    as (Hn & _ & _ & _ & _ & Hr & _ & Hc).
  destruct (TcType.mutate _ typeData) as [| | c n | | |]; cbn in Hc; try discriminate.
  exists c. split; [reflexivity |]. split; [exact Hr | exact Hn].
Qed.

Lemma boolean_attributes attrs : forall c,
  (TcType.c_default c = None \/ TcType.c_default c = Some (VBoolean true)) ->
  exists c',
    fold_left (fun ty a => TcType.__getParameter ty (attr_name a) (attr_value a)) attrs
      (TcType.TcBooleanType c) = TcType.TcBooleanType c' /\
    (TcType.c_default c' = None \/ TcType.c_default c' = Some (VBoolean true)) /\
    TcType.defaultValue (TcType.TcBooleanType c')
    = Some (VBoolean (match TcType.c_default c with Some _ => true | None => false end
                      || existsb default_true attrs)).
Proof.
  induction attrs as [| a rest IH]; intros c Hc.
  - exists c. split; [reflexivity |]. split; [exact Hc |].
    unfold TcType.defaultValue. cbn [TcType.common existsb].
    destruct Hc as [-> | ->]; reflexivity.
  - cbn [fold_left TcType.__getParameter].
    assert (Hbase : TcType.c_default
                      (TcType.base__getParameter c (attr_name a) (attr_value a))
                    = TcType.c_default c).
    { unfold TcType.base__getParameter.
      repeat match goal with
             | |- context [if ?b then _ else _] => destruct b
             end; reflexivity. }
    cbn [existsb]. unfold default_true at 1. unfold attribute_named.
    destruct (String.eqb (toLowerCase (trim (attr_name a))) "default"
              && String.eqb (toLowerCase (trim (attr_value a))) "true").
    + destruct (IH (TcType.set_default
                      (TcType.base__getParameter c (attr_name a) (attr_value a))
                      (Some (VBoolean true)))) as (c' & Heq & Hc' & Hd).
      { right. reflexivity. }
      exists c'. split; [exact Heq |]. split; [exact Hc' |].
      rewrite Hd. cbn. rewrite orb_true_r. reflexivity.
    + destruct (IH (TcType.base__getParameter c (attr_name a) (attr_value a)))
        as (c' & Heq & Hc' & Hd).
      { rewrite Hbase. exact Hc. }
      exists c'. split; [exact Heq |]. split; [exact Hc' |].
      rewrite Hd, Hbase. reflexivity.
Qed.

End Constructors.

(** X21. The length of a string type built from a raw descriptor is the
    size of the descriptor less one. A string symbol of such a type that is
    not read-only accepts in [write] exactly the strings of at most
    [size - 1] characters: a longer one fails with
    [TcBindingOutOfRangeException] and leaves the [TcCom] as it was, a
    shorter one reaches the encoder. *)
Theorem string_symbol_capacity :
  forall (P : Type) (ads : ADS P) (js : JsRuntime) (typeData : TcTypeInfo)
    (path : string) (pointer : TcSymbolPointer) (s : string),
    has_attribute "readonly" typeData = false ->
    let symbol := TcSymbol.instance (TcType.new_TcStringType typeData) path false pointer in
    forall com : TcCom.t P,
      if tb_size typeData - 1 <? Z.of_nat (String.length s)
      then TcBinding.write symbol (VString s) com
           = (Throw TcBindingOutOfRangeException, com)
      else TcBinding.toRaw (VString s) symbol com
           = (let* buffer := TcCom.toRaw (tb_name typeData) (VString s) in
              ret [{| pkg_indexGroup := ptr_indexGroup pointer;
                      pkg_indexOffset := ptr_indexOffset pointer;
                      pkg_data := buffer |}]) com.
Proof.
  intros P ads js typeData path pointer s Hro symbol com.
  destruct (new_TcStringType_length typeData) as (c & Heq & Hcro & Hname).
  assert (Hvalid : TcBinding.isValid (TcBinding.fields symbol) = true).
  { unfold symbol. rewrite Heq. cbn [TcSymbol.instance].
    unfold TcBinding.new_TcSimpleBinding. destruct (TcType.defaultBuffer _); reflexivity. }
  assert (Hcheck : TcBinding.checkInput symbol (VString s)
                   = if tb_size typeData - 1 <? Z.of_nat (String.length s)
                     then Throw TcBindingOutOfRangeException else Ok tt).
  { unfold symbol. rewrite Heq. cbn [TcSymbol.instance].
    rewrite string_checkInput.
    - reflexivity.
    - unfold TcBinding.new_TcSimpleBinding. destruct (TcType.defaultBuffer _); reflexivity.
    - unfold TcBinding.new_TcSimpleBinding, TcType.readOnly. cbn [TcType.common].
      rewrite Hcro, Hro. destruct (TcType.defaultBuffer _); reflexivity. }
  assert (HtoRaw : TcBinding.toRaw (VString s) symbol com
                   = (lift (TcBinding.checkInput symbol (VString s)) >>
                      let* buffer := TcCom.toRaw (tb_name typeData) (VString s) in
                      ret [{| pkg_indexGroup := ptr_indexGroup pointer;
                              pkg_indexOffset := ptr_indexOffset pointer;
                              pkg_data := buffer |}]) com).
  { unfold symbol. rewrite Heq. cbn [TcSymbol.instance TcBinding.toRaw TcBinding.class].
    unfold TcBinding.TcSimpleBinding_toRaw, TcType.name. cbn [TcType.common].
    rewrite Hname. unfold TcBinding.new_TcSimpleBinding.
    destruct (TcType.defaultBuffer _); reflexivity. }
  rewrite lift_bind, Hcheck in HtoRaw.
  destruct (tb_size typeData - 1 <? Z.of_nat (String.length s)).
  - apply write_toRaw_throws; assumption.
  - exact HtoRaw.
Qed.

Lemma string_symbol_capacity_witness :
  TcBinding.write
    (TcSymbol.instance
       (TcType.new_TcStringType (Sample.raw "STRING(3)" ADST.STRING 4 None []))
       "MAIN.code" false (Sample.pointer 16448 1100 4)) (VString "abcd") (Sample.com ∅)
  = (Throw TcBindingOutOfRangeException, Sample.com ∅).
Proof.
  apply (string_symbol_capacity Sample.Memory Sample.ads Sample.runtime
           (Sample.raw "STRING(3)" ADST.STRING 4 None []) "MAIN.code"
           (Sample.pointer 16448 1100 4) "abcd" eq_refl (Sample.com ∅)).
Defined.

(** X22. The default of a boolean type built from a raw descriptor is
    [true] exactly when one of its attributes is named [default] and has
    the value [true] (both compared without case and surrounding white
    space); any other value of the attribute, ['1'] or ['false'] for
    instance, leaves the default [false]. *)
Theorem boolean_default_attribute :
  forall (js : JsRuntime) (typeData : TcTypeInfo),
    TcType.defaultValue (TcType.new_TcBooleanType typeData)
    = Some (VBoolean (existsb default_true (attributes typeData))).
Proof.
  intros js typeData. unfold TcType.new_TcBooleanType, TcType.mutate, attributes.
  destruct (tb_attributes typeData) as [attrs |].
  - destruct (boolean_attributes attrs (TcType.raw_common typeData) (or_introl eq_refl))
      as (c' & Heq & _ & Hd).
    rewrite Heq. exact Hd.
  - reflexivity.
Qed.

(** ** Enumerations ([TcEnumType], [TcEnumSymbol]) *)

Lemma append_inj_l (p a b : string) : p +:+ a = p +:+ b -> a = b.
Proof.
  induction p as [| x rest IH]; intros Heq; [exact Heq |].
  apply IH. inversion Heq. reflexivity.
Qed.

Lemma qualified_inj typeName a b :
  qualified typeName a = qualified typeName b -> enum_name a = enum_name b.
Proof.
  unfold qualified. intros Heq. apply append_inj_l in Heq.
  apply (append_inj_l "." _ _ Heq).
Qed.

Lemma enum_buffers_other typeName fields : forall buffers key,
  (forall field, In field fields -> key <> qualified typeName field) ->
  enum_buffers typeName fields buffers !! key = buffers !! key.
Proof.
  unfold enum_buffers.
  induction fields as [| field rest IH]; intros buffers key Hother; [reflexivity |].
  cbn [fold_left]. rewrite IH.
  - apply lookup_insert_ne. intros Heq. apply (Hother field); [left; reflexivity |].
    symmetry. exact Heq.
  - intros field' Hin. apply Hother. right. exact Hin.
Qed.

Lemma enum_buffers_member typeName fields : forall buffers field,
  List.NoDup (map enum_name fields) -> In field fields ->
  enum_buffers typeName fields buffers !! qualified typeName field
  = Some (enum_value field).
Proof.
  induction fields as [| first rest IH]; intros buffers field Hnd Hin; [destruct Hin |].
  cbn [map] in Hnd. inversion Hnd as [| ? ? Hfresh Hnd']; subst.
  change (enum_buffers typeName (first :: rest) buffers)
    with (enum_buffers typeName rest
            (<[qualified typeName first := enum_value first]> buffers)).
  destruct Hin as [-> | Hin].
  - rewrite enum_buffers_other.
    + apply lookup_insert_eq.
    + intros field' Hin' Heq. apply Hfresh. apply qualified_inj in Heq. rewrite Heq.
      apply in_map. exact Hin'.
  - apply IH; assumption.
Qed.

Section EnumType.
Context `{JsRuntime}.

Lemma enum_attributes attrs : forall c f b,
  exists c',
    fold_left (fun ty a => TcType.__getParameter ty (attr_name a) (attr_value a)) attrs
      (TcType.TcEnumType c f b) = TcType.TcEnumType c' f b /\
    (existsb (attribute_named "default") attrs = false ->
     TcType.c_default c' = TcType.c_default c).
Proof.
  induction attrs as [| a rest IH]; intros c f b.
  - exists c. split; [reflexivity | reflexivity].
  - cbn [fold_left TcType.__getParameter existsb]. unfold attribute_named at 1.
    assert (Hbase : TcType.c_default
                      (TcType.base__getParameter c (attr_name a) (attr_value a))
                    = TcType.c_default c).
    { unfold TcType.base__getParameter.
      repeat match goal with
             | |- context [if ?b then _ else _] => destruct b
             end; reflexivity. }
    destruct (String.eqb (toLowerCase (trim (attr_name a))) "default").
    + destruct (IH (TcType.set_default
                      (TcType.base__getParameter c (attr_name a) (attr_value a))
                      (Some (VString (attr_value a)))) f b) as (c' & Heq & _).
      exists c'. split; [exact Heq |]. cbn. discriminate.
    + destruct (IH (TcType.base__getParameter c (attr_name a) (attr_value a)) f b)
        as (c' & Heq & Hd).
      exists c'. split; [exact Heq |]. cbn [orb]. intros Hno.
      rewrite (Hd Hno). exact Hbase.
Qed.

Lemma enum_fields_set typeName fields : forall c f b d,
  TcType.c_default c = Some d -> truthy d = true ->
  fold_left (TcType.enum_addField typeName) fields (TcType.TcEnumType c f b)
  = TcType.TcEnumType c (f ++ map (qualified typeName) fields)
      (enum_buffers typeName fields b).
Proof.
  induction fields as [| field rest IH]; intros c f b d Hd Ht.
  - cbn. rewrite app_nil_r. reflexivity.
  - cbn [fold_left TcType.enum_addField]. unfold TcType.defaultValue.
    cbn [TcType.common]. rewrite Hd, Ht. cbn [negb].
    rewrite (IH c _ _ d Hd Ht). cbn [map]. rewrite <- app_assoc. reflexivity.
Qed.

Lemma new_TcEnumType_fields (typeData : TcTypeInfo) first rest :
  ti_enumInfo typeData = Some (first :: rest) ->
  has_attribute "default" typeData = false ->
  enum_name first <> "" ->
  exists c,
    TcType.new_TcEnumType typeData
    = TcType.TcEnumType c (map (qualified (tb_name typeData)) (first :: rest))
        (enum_buffers (tb_name typeData) (first :: rest) ∅) /\
    TcType.c_default c = Some (VString (enum_name first)) /\
    TcType.c_defaultBuffer c = Some (enum_value first) /\
    TcType.c_readOnly c = has_attribute "readonly" typeData /\
    TcType.c_name c = tb_name typeData.
Proof.
  intros Hinfo Hdefault Hname. unfold TcType.new_TcEnumType. rewrite Hinfo.
  destruct (mutate_getters (TcType.TcEnumType (TcType.raw_common typeData) [] ∅) typeData)
    as (Hn & _ & _ & _ & _ & Hr & _ & _).
  assert (Hshape : exists c0,
             TcType.mutate (TcType.TcEnumType (TcType.raw_common typeData) [] ∅) typeData
             = TcType.TcEnumType c0 [] ∅ /\ TcType.c_default c0 = None).
  { unfold TcType.mutate, has_attribute in *.
    destruct (tb_attributes typeData) as [attrs |].
    - destruct (enum_attributes attrs (TcType.raw_common typeData) [] ∅)
        as (c' & Heq & Hd).
      rewrite Heq. eexists. split; [reflexivity |]. cbn. apply Hd. exact Hdefault.
    - eexists. split; [reflexivity | reflexivity]. }
  destruct Hshape as (c0 & Heq & Hd0). rewrite Heq in *.
  cbn [fold_left TcType.enum_addField]. unfold TcType.defaultValue at 1.
  cbn [TcType.common]. rewrite Hd0.
  rewrite (enum_fields_set (tb_name typeData) rest _ _ _ (VString (enum_name first)));
    [| reflexivity |].
  - eexists. split; [reflexivity |]. repeat split; [exact Hr | exact Hn].
  - cbn. destruct (String.eqb (enum_name first) "") eqn:E; [| reflexivity].
    apply String.eqb_eq in E. contradiction.
Qed.

End EnumType.

(** X23. An enumeration symbol made from a raw descriptor with the members
    [first :: rest] (distinct names, no [Default] and no [ReadOnly]
    attribute). The conversion of ["<typeName>.<name>"] for a declared
    member gives the single package with the raw value of that member at
    the address of the symbol, without a call on the [TcCom]; [write(s)] for
    a string that is neither the qualified name of a declared member nor
    the name of an inherited member fails with
    [TcBindingOutOfRangeException]; for the name of an inherited member the
    conversion gives a package with that member as its data; and what
    [clear()] writes is the raw value of the first member. *)
Theorem enum_symbol_members :
  forall (P : Type) (ads : ADS P) (js : JsRuntime) (typeData : TcTypeInfo)
    (first : TcEnumField) (rest : list TcEnumField) (path : string)
    (pointer : TcSymbolPointer),
    ti_enumInfo typeData = Some (first :: rest) ->
    has_attribute "default" typeData = false ->
    has_attribute "readonly" typeData = false ->
    enum_name first <> "" ->
    List.NoDup (map enum_name (first :: rest)) ->
    let symbol := TcSymbol.instance (TcType.new_TcEnumType typeData) path false pointer in
    let package data :=
      {| pkg_indexGroup := ptr_indexGroup pointer;
         pkg_indexOffset := ptr_indexOffset pointer; pkg_data := data |} in
    (forall field (com : TcCom.t P),
        In field (first :: rest) ->
        TcBinding.toRaw (VString (qualified (tb_name typeData) field)) symbol com
        = (Ok [package (enum_value field)], com)) /\
    (forall s (com : TcCom.t P),
        (forall field, In field (first :: rest) -> s <> qualified (tb_name typeData) field) ->
        if inherited s
        then TcBinding.toRaw (VString s) symbol com = (Ok [package (Member s)], com)
        else TcBinding.write symbol (VString s) com
             = (Throw TcBindingOutOfRangeException, com)) /\
    TcBinding.clearPackages (TcBinding.fields symbol) = [package (enum_value first)].
Proof.
  intros P ads js typeData first rest path pointer Hinfo Hdefault Hro Hname Hnd
    symbol package.
  destruct (new_TcEnumType_fields typeData first rest Hinfo Hdefault Hname)
    as (c & Heq & Hd & Hb & Hcro & Hcname).
  unfold symbol. rewrite Heq. cbn [TcSymbol.instance].
  unfold TcBinding.new_TcSimpleBinding, TcType.readOnly, TcType.defaultBuffer, TcType.name.
  cbn [TcType.common]. rewrite Hb, Hcro, Hro, Hcname. cbn [orb].
  split; [| split].
  - intros field com Hin. rewrite enum_toRaw by reflexivity.
    unfold TcBinding.buffers_get.
    rewrite (enum_buffers_member _ _ _ field Hnd Hin). reflexivity.
  - intros s com Hother.
    assert (Hnone : enum_buffers (tb_name typeData) (first :: rest) ∅ !! s = None).
    { rewrite enum_buffers_other by exact Hother. apply lookup_empty. }
    destruct (inherited s) eqn:Hname'.
    + rewrite enum_toRaw by reflexivity. unfold TcBinding.buffers_get.
      rewrite Hnone, Hname'. reflexivity.
    + apply enum_write_unknown; [reflexivity | reflexivity | exact Hnone | exact Hname'].
  - reflexivity.
Qed.

Lemma enum_symbol_members_witness :
  TcBinding.toRaw (VString "MyEnum.member2") Sample.mode (Sample.com ∅)
  = (Ok [{| pkg_indexGroup := 16448; pkg_indexOffset := 502;
            pkg_data := Bytes [x01; x00] |}], Sample.com ∅) /\
  TcBinding.write Sample.mode (VString "MyEnum.member4") (Sample.com ∅)
  = (Throw TcBindingOutOfRangeException, Sample.com ∅) /\
  TcBinding.toRaw (VString "valueOf") Sample.mode (Sample.com ∅)
  = (Ok [{| pkg_indexGroup := 16448; pkg_indexOffset := 502;
            pkg_data := Member "valueOf" |}], Sample.com ∅) /\
  TcBinding.clearPackages (TcBinding.fields Sample.mode)
  = [{| pkg_indexGroup := 16448; pkg_indexOffset := 502; pkg_data := Bytes [x00; x00] |}].
Proof.
  assert (Hnames : List.NoDup ["member1"; "member2"; "member3"])
    by (repeat constructor; cbn; intuition discriminate).
  destruct (enum_symbol_members Sample.Memory Sample.ads Sample.runtime Sample.MyEnum_raw
              {| enum_name := "member1"; enum_value := [x00; x00] |}
              [ {| enum_name := "member2"; enum_value := [x01; x00] |};
                {| enum_name := "member3"; enum_value := [x02; x00] |} ]
              "MAIN.mode" (Sample.pointer 16448 502 2)
              eq_refl eq_refl eq_refl ltac:(discriminate) Hnames)
    as (HtoRaw & Hwrite & Hclear).
  split; [| split; [| split]].
  - apply (HtoRaw {| enum_name := "member2"; enum_value := [x01; x00] |} (Sample.com ∅)).
    right. left. reflexivity.
  - apply (Hwrite "MyEnum.member4" (Sample.com ∅)).
    intros field [<- | [<- | [<- | []]]]; discriminate.
  - apply (Hwrite "valueOf" (Sample.com ∅)).
    intros field [<- | [<- | [<- | []]]]; discriminate.
  - exact Hclear.
Defined.

(** ** Namespaces ([TcNamespaceSymbol.addChild], [TcNamespaceBinding.__addChild]) *)

Lemma namespace_addChild_first key child f cls ch :
  TcBinding.indexGroup f = 0 -> TcBinding.indexOffset f = 0 ->
  TcBinding.namespace_addChild key child (TcBinding.Node f cls ch)
  = (Ok tt,
     TcBinding.Node
       (TcBinding.with_pointer
          (TcBinding.with_packages f
             (TcBinding.readPackages f ++ TcBinding.readPackages (TcBinding.fields child))
             (TcBinding.clearPackages f ++ TcBinding.clearPackages (TcBinding.fields child)))
          (TcBinding.indexGroup (TcBinding.fields child))
          (TcBinding.indexOffset (TcBinding.fields child))
          (TcBinding.size (TcBinding.fields child)))
       cls (ch ++ [(key, child)])).
Proof.
  intros Hg Ho. unfold TcBinding.namespace_addChild. cbn [TcBinding.addChild].
  cbn -[Z.eqb Z.ltb]. rewrite Hg, Ho. reflexivity.
Qed.

Lemma namespace_addChild_next key child f cls ch :
  TcBinding.indexGroup f <> 0 -> 0 < TcBinding.indexOffset f -> 0 <= TcBinding.size f ->
  TcBinding.indexGroup (TcBinding.fields child) = TcBinding.indexGroup f ->
  0 <= TcBinding.size (TcBinding.fields child) ->
  exists size,
    0 <= size /\
    TcBinding.namespace_addChild key child (TcBinding.Node f cls ch)
    = (Ok tt,
       TcBinding.Node
         (TcBinding.with_pointer
            (TcBinding.with_packages f
               (TcBinding.readPackages f ++ TcBinding.readPackages (TcBinding.fields child))
               (TcBinding.clearPackages f
                  ++ TcBinding.clearPackages (TcBinding.fields child)))
            (TcBinding.indexGroup f)
            (Z.min (TcBinding.indexOffset f)
               (TcBinding.indexOffset (TcBinding.fields child)))
            size)
         cls (ch ++ [(key, child)])).
Proof.
  intros Hg Ho Hs Hcg Hcs. unfold TcBinding.namespace_addChild. cbn [TcBinding.addChild].
  cbn -[Z.eqb Z.ltb].
  destruct (Z.eqb_spec (TcBinding.indexGroup f) 0) as [| _]; [contradiction |].
  rewrite Hcg, Z.eqb_refl. cbn [negb].
  destruct (Z.eqb_spec (TcBinding.indexOffset f) 0) as [E | _]; [lia |].
  destruct (Z.ltb_spec (TcBinding.indexOffset f + TcBinding.size f)
              (TcBinding.indexOffset (TcBinding.fields child))) as [Hgap | Hnear].
  - rewrite Z.min_l by lia. eexists. split; [| reflexivity]. lia.
  - destruct (Z.ltb_spec (TcBinding.indexOffset (TcBinding.fields child))
                (TcBinding.indexOffset f)) as [Hlt | Hge].
    + rewrite Z.min_r by lia. eexists. split; [| reflexivity]. lia.
    + rewrite Z.min_l by lia. eexists. split; [| reflexivity]. exact Hs.
Qed.

Lemma minimum_snoc (x : Z) (l : list Z) (y : Z) :
  minimum ((x :: l) ++ [y]) = Z.min (minimum (x :: l)) y.
Proof.
  unfold minimum. cbn [app]. rewrite fold_left_app. reflexivity.
Qed.

Lemma existsb_fresh {A} (ch : list (Key * A)) key :
  ~ In key (map fst ch) -> existsb (fun kc => Key_eqb (fst kc) key) ch = false.
Proof.
  induction ch as [| [k c] rest IH]; intros Hfresh; [reflexivity |].
  cbn in *. destruct (Key_eqb k key) eqn:E.
  - apply Key_eqb_eq in E. exfalso. apply Hfresh. left. exact E.
  - apply IH. intros Hin. apply Hfresh. right. exact Hin.
Qed.

Lemma existsb_present {A} (ch : list (Key * A)) key :
  In key (map fst ch) -> existsb (fun kc => Key_eqb (fst kc) key) ch = true.
Proof.
  intros Hin. apply existsb_exists. apply in_map_iff in Hin as (kc & Heq & Hin).
  exists kc. split; [exact Hin | apply Key_eqb_eq; exact Heq].
Qed.

Lemma js_keep_present {A} (obj : list (Key * A)) key v :
  In key (map fst obj) -> TcBinding.js_keep obj key v = obj.
Proof.
  induction obj as [| [k x] rest IH]; intros Hin; [destruct Hin |].
  cbn in *. destruct (Key_eqb k key) eqn:E; [reflexivity |].
  destruct Hin as [Heq | Hin].
  - subst k. assert (Hrefl : Key_eqb key key = true) by (apply Key_eqb_eq; reflexivity).
    congruence.
  - rewrite IH by exact Hin. reflexivity.
Qed.

Lemma js_keep_keys {A} (obj : list (Key * A)) key v k :
  In k (map fst obj) \/ k = key -> In k (map fst (TcBinding.js_keep obj key v)).
Proof.
  induction obj as [| [k0 x] rest IH]; cbn.
  - intros [[] | ->]. left. reflexivity.
  - destruct (Key_eqb k0 key) eqn:E; cbn.
    + apply Key_eqb_eq in E. subst k0. intros [[Heq | Hin] | Heq]; auto.
    + intros [[Heq | Hin] | Heq]; auto.
Qed.

Lemma namespaceBindings_keys {A} (ch : list (Key * A)) k :
  In k (map fst ch) -> In k (map fst (TcBinding.namespaceBindings ch)).
Proof.
  unfold TcBinding.namespaceBindings.
  assert (Hgen : forall acc,
             In k (map fst acc) \/ In k (map fst ch) ->
             In k (map fst (fold_left (fun obj kv => TcBinding.js_keep obj (fst kv) (snd kv))
                              ch acc))).
  { induction ch as [| [k0 x] rest IH]; intros acc Hin; cbn in *.
    - destruct Hin as [Hin | []]. exact Hin.
    - apply IH. destruct Hin as [Hin | [Heq | Hin]]; auto;
        left; apply js_keep_keys; auto. }
  intros Hin. apply Hgen. auto.
Qed.

(** A child under a repeated key does not reach the binding of the
    namespace. *)
Lemma namespaceBindings_repeated {A} (ch : list (Key * A)) key v :
  In key (map fst ch) ->
  TcBinding.namespaceBindings (ch ++ [(key, v)]) = TcBinding.namespaceBindings ch.
Proof.
  intros Hin. unfold TcBinding.namespaceBindings. rewrite fold_left_app. cbn.
  apply js_keep_present. apply namespaceBindings_keys. exact Hin.
Qed.

Lemma NoDup_KString (keys : list string) :
  List.NoDup keys -> List.NoDup (map KString keys).
Proof.
  induction 1 as [| k rest Hfresh _ IH]; cbn; constructor; [| exact IH].
  intros Hin. apply Hfresh. apply in_map_iff in Hin as (k' & Heq & Hin).
  inversion Heq; subst. exact Hin.
Qed.

Lemma add_all_next rest : forall (namespace : TcSymbol.t) first offsets,
  List.NoDup (map fst (TcBinding.children namespace)
                ++ map (fun kc => KString (fst kc)) rest) ->
  TcBinding.indexGroup (TcBinding.fields namespace) <> 0 ->
  0 < TcBinding.indexOffset (TcBinding.fields namespace) ->
  0 <= TcBinding.size (TcBinding.fields namespace) ->
  child_offsets namespace = first :: offsets ->
  TcBinding.indexOffset (TcBinding.fields namespace) = minimum (first :: offsets) ->
  Forall (fun kc =>
            TcBinding.indexGroup (TcBinding.fields (snd kc))
            = TcBinding.indexGroup (TcBinding.fields namespace) /\
            0 < TcBinding.indexOffset (TcBinding.fields (snd kc)) /\
            0 <= TcBinding.size (TcBinding.fields (snd kc))) rest ->
  exists namespace',
    add_all rest namespace = (Ok tt, namespace') /\
    TcBinding.children namespace'
    = TcBinding.children namespace ++ map (fun kc => (KString (fst kc), snd kc)) rest /\
    TcBinding.readPackages (TcBinding.fields namespace')
    = TcBinding.readPackages (TcBinding.fields namespace)
      ++ flat_map (fun kc => TcBinding.readPackages (TcBinding.fields (snd kc))) rest /\
    TcBinding.clearPackages (TcBinding.fields namespace')
    = TcBinding.clearPackages (TcBinding.fields namespace)
      ++ flat_map (fun kc => TcBinding.clearPackages (TcBinding.fields (snd kc))) rest /\
    TcBinding.indexGroup (TcBinding.fields namespace')
    = TcBinding.indexGroup (TcBinding.fields namespace) /\
    TcBinding.indexOffset (TcBinding.fields namespace')
    = minimum (child_offsets namespace').
Proof.
  induction rest as [| [key child] rest IH];
    intros namespace first offsets Hnd Hg Ho Hs Hoffsets Hmin Hall.
  - exists namespace. cbn. rewrite !app_nil_r. repeat split.
    rewrite Hoffsets. exact Hmin.
  - inversion Hall as [| ? ? (Hcg & Hco & Hcs) Hrest]; subst.
    destruct namespace as [f cls ch]. cbn [TcBinding.fields TcBinding.children snd] in *.
    destruct (namespace_addChild_next (KString key) child f cls ch Hg Ho Hs Hcg Hcs)
      as (size & Hsize & Hstep).
    cbn [map fst] in Hnd.
    cbn [add_all]. unfold bind at 1. unfold TcSymbol.TcNamespaceSymbol_addChild.
    cbn [TcBinding.children].
    rewrite existsb_fresh
      by (intros Hin; apply (NoDup_remove_2 _ _ _ Hnd); apply in_or_app; left; exact Hin).
    rewrite Hstep.
    match goal with
    | |- context [add_all rest ?ns] =>
        destruct (IH ns first
                    (offsets ++ [TcBinding.indexOffset (TcBinding.fields child)]))
          as (namespace' & Hadd & Hch & Hrp & Hcp & Hig & Hio)
    end.
    + cbn [TcBinding.children]. rewrite map_app, <- app_assoc. exact Hnd.
    + exact Hg.
    + cbn. lia.
    + exact Hsize.
    + unfold child_offsets in *. cbn [TcBinding.children] in *.
      rewrite map_app, Hoffsets. reflexivity.
    + cbn [TcBinding.fields TcBinding.with_pointer TcBinding.indexOffset].
      rewrite Hmin. symmetry. apply (minimum_snoc first offsets).
    + cbn [TcBinding.fields TcBinding.with_pointer TcBinding.indexGroup]. exact Hrest.
    + exists namespace'. split; [exact Hadd |].
      cbn [TcBinding.children TcBinding.fields TcBinding.with_pointer
             TcBinding.with_packages TcBinding.readPackages TcBinding.clearPackages
             TcBinding.indexGroup] in *.
      rewrite Hch, Hrp, Hcp, Hig. cbn [map flat_map fst snd].
      rewrite <- !app_assoc. repeat split; try reflexivity. exact Hio.
Qed.

(** X24. A namespace to which symbols of one index group (not 0), at
    offsets above 0 and under distinct keys, are added one after the other.
    Every addition succeeds; the children of the namespace are the added
    symbols in the order of addition; its read pointers and its clear
    packages are those of the children, concatenated in that order; its
    index group is the one of the children and its index offset is the
    smallest offset of a child. An addition under a key that the namespace
    has already fails with a [TypeError]: the binding of the namespace is
    as before, with the first child under that key. *)
Theorem namespace_collects_children :
  forall (path : string) (first : string * TcSymbol.t)
    (rest : list (string * TcSymbol.t)) (group : Z),
    group <> 0 ->
    List.NoDup (map fst (first :: rest)) ->
    Forall (fun kc =>
              TcBinding.indexGroup (TcBinding.fields (snd kc)) = group /\
              0 < TcBinding.indexOffset (TcBinding.fields (snd kc)) /\
              0 <= TcBinding.size (TcBinding.fields (snd kc))) (first :: rest) ->
    exists namespace,
      add_all (first :: rest) (TcSymbol.new_TcNamespaceSymbol path) = (Ok tt, namespace) /\
      TcBinding.children namespace
      = map (fun kc => (KString (fst kc), snd kc)) (first :: rest) /\
      TcBinding.readPackages (TcBinding.fields namespace)
      = flat_map (fun kc => TcBinding.readPackages (TcBinding.fields (snd kc)))
          (first :: rest) /\
      TcBinding.clearPackages (TcBinding.fields namespace)
      = flat_map (fun kc => TcBinding.clearPackages (TcBinding.fields (snd kc)))
          (first :: rest) /\
      TcBinding.indexGroup (TcBinding.fields namespace) = group /\
      TcBinding.indexOffset (TcBinding.fields namespace)
      = minimum (child_offsets namespace) /\
      forall key symbol,
        In key (map fst (first :: rest)) ->
        exists namespace',
          TcSymbol.TcNamespaceSymbol_addChild key symbol namespace
          = (Throw JsTypeError, namespace') /\
          TcBinding.fields namespace' = TcBinding.fields namespace /\
          forall k, TcBinding.lookup_child namespace' k = TcBinding.lookup_child namespace k.
Proof.
  intros path [key child] rest group Hgroup Hnd Hall.
  inversion Hall as [| ? ? (Hcg & Hco & Hcs) Hrest]; subst. cbn [snd] in *.
  cbn [add_all]. unfold bind at 1.
  unfold TcSymbol.TcNamespaceSymbol_addChild at 1, TcSymbol.new_TcNamespaceSymbol.
  cbn [TcBinding.children existsb].
  rewrite namespace_addChild_first by reflexivity.
  apply NoDup_KString in Hnd. rewrite map_map in Hnd. cbn [map fst] in Hnd.
  match goal with
  | |- context [add_all rest ?ns] =>
      destruct (add_all_next rest ns (TcBinding.indexOffset (TcBinding.fields child)) [])
        as (namespace & Hadd & Hch & Hrp & Hcp & Hig & Hio)
  end; try (cbn; assumption); try reflexivity.
  exists namespace. split; [exact Hadd |].
  cbn [TcBinding.children TcBinding.fields TcBinding.with_pointer
         TcBinding.with_packages TcBinding.readPackages TcBinding.clearPackages
         TcBinding.indexGroup TcBinding.new_TcBinding app] in *.
  rewrite Hrp, Hcp, Hig. split; [exact Hch |]. repeat split; [exact Hio |].
  intros key' symbol Hin.
  assert (Hpresent : In (KString key') (map fst (TcBinding.children namespace))).
  { rewrite Hch. apply in_map_iff in Hin as (kc & Heq & Hin). apply in_map_iff.
    exists (KString (fst kc), snd kc). split; [cbn; rewrite Heq; reflexivity |].
    change (In (KString (fst kc), snd kc)
              (map (fun kc : string * TcSymbol.t => (KString (fst kc), snd kc))
                 ((key, child) :: rest))).
    apply in_map_iff. exists kc. split; [reflexivity | exact Hin]. }
  assert (Hcls : TcBinding.class namespace = TcBinding.TcNamespaceBinding).
  { clear -Hadd. revert Hadd.
    match goal with
    | |- add_all rest ?ns = _ -> _ =>
        assert (Hstart : TcBinding.class ns = TcBinding.TcNamespaceBinding) by reflexivity;
        generalize dependent ns
    end.
    induction rest as [| [k c] rest IH]; intros ns Hstart Hadd.
    - cbn in Hadd. inversion Hadd; subst. exact Hstart.
    - cbn [add_all] in Hadd. unfold bind at 1 in Hadd.
      destruct (TcSymbol.TcNamespaceSymbol_addChild k c ns) as [[[] | e] ns'] eqn:Hstep;
        [| discriminate].
      apply (IH ns'); [| exact Hadd].
      unfold TcSymbol.TcNamespaceSymbol_addChild in Hstep.
      destruct (existsb _ _); [discriminate |].
      unfold TcBinding.namespace_addChild in Hstep. destruct ns as [f cls ch].
      cbn [TcBinding.addChild] in Hstep. cbn [TcBinding.class] in Hstart. subst cls.
      repeat match type of Hstep with
             | context [if ?b then _ else _] => destruct b
             end; inversion Hstep; reflexivity. }
  eexists. unfold TcSymbol.TcNamespaceSymbol_addChild.
  rewrite (existsb_present _ _ Hpresent).
  split; [reflexivity |]. split; [reflexivity |].
  intros k. unfold TcBinding.lookup_child. cbn [TcBinding.class TcBinding.children].
  rewrite Hcls. cbn [TcBinding.registered].
  rewrite (namespaceBindings_repeated _ _ _ Hpresent). reflexivity.
Qed.

Lemma namespace_collects_children_witness :
  exists namespace,
    add_all [("b", Sample.b); ("a", Sample.a)] (TcSymbol.new_TcNamespaceSymbol "GVL")
    = (Ok tt, namespace) /\
    TcBinding.children namespace = [(KString "b", Sample.b); (KString "a", Sample.a)] /\
    TcBinding.readPackages (TcBinding.fields namespace)
    = [Sample.pointer 16448 102 2; Sample.pointer 16448 100 2] /\
    TcBinding.clearPackages (TcBinding.fields namespace)
    = [{| pkg_indexGroup := 16448; pkg_indexOffset := 102; pkg_data := Bytes [x00; x00] |};
       {| pkg_indexGroup := 16448; pkg_indexOffset := 100; pkg_data := Bytes [x00; x00] |}] /\
    TcBinding.indexGroup (TcBinding.fields namespace) = 16448 /\
    TcBinding.indexOffset (TcBinding.fields namespace) = minimum (child_offsets namespace).
Proof.
  destruct (namespace_collects_children "GVL" ("b", Sample.b) [("a", Sample.a)] 16448)
    as (namespace & Hadd & Hch & Hrp & Hcp & Hig & Hio & _).
  - discriminate.
  - repeat constructor; cbn; intuition discriminate.
  - repeat constructor; cbn; lia.
  - exists namespace. repeat split; assumption.
Defined.

(** ** Teardown ([TcSymbol.invalidate], [TcSymbolRegistry.destroy], [TcContext.kill]) *)

Lemma invalidate_children_throws ch :
  Forall (fun kc => forall e s', TcSymbol.invalidate (snd kc) = (Throw e, s') ->
            exists s, In s (TcSymbol.descendants (snd kc)) /\
                      TcBinding.invalidateCallback (TcBinding.fields s)
                      = Some (CallbackThrows e)) ch ->
  forall e ch', invalidate_children ch = (Throw e, ch') ->
    exists s, In s (flat_map (fun kc => TcSymbol.descendants (snd kc)) ch) /\
              TcBinding.invalidateCallback (TcBinding.fields s) = Some (CallbackThrows e).
Proof.
  induction 1 as [| [key child] rest Hchild _ IH]; intros e ch' Heq.
  - cbn in Heq. discriminate.
  - cbn [invalidate_children] in Heq. cbn [snd] in Hchild.
    destruct (TcSymbol.invalidate child) as [[[] | e1] child'] eqn:Hinv.
    + destruct (invalidate_children rest) as [r rest'] eqn:Hrest.
      inversion Heq; subst.
      destruct (IH e rest' eq_refl) as (s & Hin & Hcb).
      exists s. split; [| exact Hcb]. cbn [flat_map snd]. apply in_or_app. right. exact Hin.
    + inversion Heq; subst.
      destruct (Hchild e child' eq_refl) as (s & Hin & Hcb).
      exists s. split; [| exact Hcb]. cbn [flat_map snd]. apply in_or_app. left. exact Hin.
Qed.

Lemma invalidate_throws symbol : forall e symbol',
  TcSymbol.invalidate symbol = (Throw e, symbol') ->
  exists s, In s (TcSymbol.descendants symbol) /\
            TcBinding.invalidateCallback (TcBinding.fields s) = Some (CallbackThrows e).
Proof.
  induction symbol as [f cls ch IH] using TcSymbol_ind'. intros e symbol' Heq.
  rewrite invalidate_Node in Heq. rewrite descendants_Node.
  destruct (invalidate_children ch) as [[[] | e1] ch'] eqn:Hch.
  - destruct (TcBinding.invalidateCallback f) as [[| e2] |] eqn:Hcb;
      inversion Heq; subst.
    exists (TcBinding.Node f cls ch). split; [left; reflexivity | exact Hcb].
  - inversion Heq; subst.
    destruct (invalidate_children_throws ch IH e ch' Hch) as (s & Hin & Hcb).
    exists s. split; [right; exact Hin | exact Hcb].
Qed.

Lemma invalidate_all_throws map : forall e map',
  TcContext.invalidate_all map = (Throw e, map') ->
  List.map fst map' = List.map fst map /\
  exists key namespace s,
    In (key, namespace) map /\ In s (TcSymbol.descendants namespace) /\
    TcBinding.invalidateCallback (TcBinding.fields s) = Some (CallbackThrows e).
Proof.
  induction map as [| [key namespace] rest IH]; intros e map' Heq.
  - cbn in Heq. discriminate.
  - cbn [TcContext.invalidate_all] in Heq.
    destruct (TcSymbol.invalidate namespace) as [[[] | e1] namespace'] eqn:Hinv.
    + destruct (TcContext.invalidate_all rest) as [r rest'] eqn:Hrest.
      inversion Heq; subst.
      destruct (IH e rest' eq_refl) as (Hkeys & key' & ns & s & Hin & Hs & Hcb).
      split; [cbn; rewrite Hkeys; reflexivity |].
      exists key', ns, s. split; [right; exact Hin | split; assumption].
    + inversion Heq; subst. split; [reflexivity |].
      destruct (invalidate_throws namespace e namespace' Hinv) as (s & Hs & Hcb).
      exists key, namespace, s. split; [left; reflexivity | split; assumption].
Qed.

(** X25. [TcSymbolRegistry.destroy()] fails only with what a callback
    registered through [$onInvalidated] on a symbol of the map has thrown.
    In that case the destruction is left unfinished: the map keeps all its
    namespaces, no ['destroyed'] event is emitted, and the type registry
    and the [TcCom] are as they were. *)
Theorem destroy_stopped_by_callback :
  forall (P : Type) (ads : ADS P) (ctx ctx' : TcContext.t P) (e : TcException),
    TcContext.TcSymbolRegistry_destroy ctx = (Throw e, ctx') ->
    (exists key namespace s,
        In (key, namespace) (TcContext.namespaces ctx) /\
        In s (TcSymbol.descendants namespace) /\
        TcBinding.invalidateCallback (TcBinding.fields s) = Some (CallbackThrows e)) /\
    map fst (TcContext.namespaces ctx') = map fst (TcContext.namespaces ctx) /\
    TcContext.released ctx' = TcContext.released ctx /\
    TcContext.types ctx' = TcContext.types ctx /\
    TcContext.COM ctx' = TcContext.COM ctx.
Proof.
  intros P ads ctx ctx' e Hd. unfold TcContext.TcSymbolRegistry_destroy in Hd.
  destruct (TcContext.invalidate_all (TcContext.namespaces ctx)) as [[[] | e1] map'] eqn:Hall.
  - unfold TcContext.set_namespaces, TcContext.onCOM, TcCom.emit, TcCom.observe, bind in Hd.
    cbn in Hd. discriminate.
  - unfold TcContext.set_namespaces, bind, throw in Hd. cbn in Hd.
    inversion Hd; subst. cbn.
    destruct (invalidate_all_throws _ _ _ Hall) as (Hkeys & Hwho).
    repeat split; auto.
Qed.

Lemma destroy_stopped_by_callback_witness :
  (exists key namespace s,
      In (key, namespace) (TcContext.namespaces guarded_context) /\
      In s (TcSymbol.descendants namespace) /\
      TcBinding.invalidateCallback (TcBinding.fields s)
      = Some (CallbackThrows (JsError "stop"))) /\
  map fst (TcContext.namespaces (snd (TcContext.TcSymbolRegistry_destroy guarded_context)))
  = ["GVL"; "MAIN"] /\
  TcContext.released (snd (TcContext.TcSymbolRegistry_destroy guarded_context)) = [] /\
  TcContext.types (snd (TcContext.TcSymbolRegistry_destroy guarded_context))
  = TcContext.types guarded_context /\
  TcContext.COM (snd (TcContext.TcSymbolRegistry_destroy guarded_context)) = Sample.com ∅.
Proof.
  apply (destroy_stopped_by_callback Sample.Memory Sample.ads guarded_context
           (snd (TcContext.TcSymbolRegistry_destroy guarded_context)) (JsError "stop")).
  vm_compute. reflexivity.
Defined.

(** X26. After a [kill()] that succeeded the context holds no type and no
    namespace, its [TcCom] has no client, and the last event emitted is
    ['killed']. A second [kill()] succeeds as well: it makes no call on the
    client and emits the four teardown events again. *)
Theorem kill_leaves_nothing :
  forall (P : Type) (ads : ADS P) (ctx ctx' : TcContext.t P),
    TcContext.kill ctx = (Ok tt, ctx') ->
    TcContext.types ctx' = ∅ /\
    TcContext.namespaces ctx' = [] /\
    TcCom.connected (TcContext.COM ctx') = false /\
    (exists before,
        TcCom.trace (TcContext.COM ctx')
        = before ++ [Emitted "killed" TcContextKilledEvent]) /\
    TcContext.kill ctx'
    = (Ok tt,
       {| TcContext.COM :=
            {| TcCom.connected := false;
               TcCom.plc := TcCom.plc (TcContext.COM ctx');
               TcCom.trace :=
                 TcCom.trace (TcContext.COM ctx')
                 ++ [Emitted "destroyed" TcTypeRegistryDestroyedEvent;
                     Emitted "destroyed" TcSymbolRegistryDestroyedEvent;
                     Emitted "disconnected" TcComDisconnectedEvent;
                     Emitted "killed" TcContextKilledEvent] |};
          TcContext.types := ∅;
          TcContext.namespaces := [];
          TcContext.released := TcContext.released ctx' |}).
Proof.
  intros P ads [com types namespaces released] ctx' Hkill.
  assert (Hpost : TcContext.types ctx' = ∅ /\
                  TcContext.namespaces ctx' = [] /\
                  TcCom.connected (TcContext.COM ctx') = false /\
                  exists before,
                    TcCom.trace (TcContext.COM ctx')
                    = before ++ [Emitted "killed" TcContextKilledEvent]).
  { revert Hkill.
    unfold TcContext.kill, TcContext.TcTypeRegistry_destroy,
      TcContext.TcSymbolRegistry_destroy, TcContext.onCOM, TcContext.set_types,
      TcContext.set_namespaces, TcCom.disconnect.
    unfold_monad. cbn.
    destruct (TcContext.invalidate_all namespaces) as [[[] | e] map'] eqn:Hall; cbn;
      [| discriminate].
    destruct (TcCom.connected com) eqn:Hconn; cbn.
    - destruct (unsubscribeAll (TcCom.plc com)) as [p1 |]; cbn;
        match goal with
        | |- context [disconnect true ?p] => destruct (disconnect true p) as [p2 |]
        end; cbn; intros Hkill; inversion Hkill; subst; cbn;
        repeat split; eexists; reflexivity.
    - intros Hkill. inversion Hkill; subst. cbn.
      split; [reflexivity |]. split; [reflexivity |]. split; [reflexivity |].
      eexists. reflexivity. }
  destruct Hpost as (Ht & Hn & Hc & Hlast).
  repeat split; try assumption.
  destruct ctx' as [com' types' namespaces' released']. cbn in *. subst.
  unfold TcContext.kill, TcContext.TcTypeRegistry_destroy,
    TcContext.TcSymbolRegistry_destroy, TcContext.onCOM, TcContext.set_types,
    TcContext.set_namespaces, TcCom.disconnect.
  unfold_monad. cbn. rewrite Hc. cbn. rewrite app_nil_r, <- !app_assoc. reflexivity.
Qed.

Lemma kill_leaves_nothing_witness :
  TcContext.types (snd (TcContext.kill sample_context)) = ∅ /\
  TcContext.namespaces (snd (TcContext.kill sample_context)) = [] /\
  TcCom.connected (TcContext.COM (snd (TcContext.kill sample_context))) = false /\
  (exists before,
      TcCom.trace (TcContext.COM (snd (TcContext.kill sample_context)))
      = before ++ [Emitted "killed" TcContextKilledEvent]) /\
  fst (TcContext.kill (snd (TcContext.kill sample_context))) = Ok tt.
Proof.
  assert (Hkill : TcContext.kill sample_context
                  = (Ok tt, snd (TcContext.kill sample_context)))
    by (vm_compute; reflexivity).
  pose proof (kill_leaves_nothing Sample.Memory Sample.ads sample_context
                (snd (TcContext.kill sample_context)) Hkill)
    as (Ht & Hn & Hc & Hlast & Hagain).
  split; [exact Ht |]. split; [exact Hn |]. split; [exact Hc |]. split; [exact Hlast |].
  rewrite Hagain. reflexivity.
Defined.

(** ** Numeric types: the borders and the default *)

(** X27. The default of a numeric type, and what [clear()] writes. With
    a raw descriptor that has no [Default] attribute and whose border
    attributes are numerals, the borders of the type that the constructor
    builds are the values of the last [UpperBorder] and of the last
    [LowerBorder] attribute (the ends of the range of the kind where there
    is none), and its default value is the value of the first [LowerBorder]
    attribute when there is one, and 0 otherwise. When [create] returns
    the type, its default buffer is the encoding of that default value, and
    a symbol of the type has that buffer, addressed to the symbol, as its
    one clear package: [clear()] on a symbol that is not read-only writes
    the lower border, not 0. A clone keeps the default value of the
    original when the mutator has no [Default] attribute, whatever
    [LowerBorder] the mutator has. *)
Theorem numeric_default_is_first_lower_border :
  forall (P : Type) (ads : ADS P) (js : JsRuntime),
    (forall (kind : TcType.NumericKind) (typeData : TcTypeInfo),
        has_attribute "default" typeData = false ->
        numerals (tb_adsDataType typeData) typeData = true ->
        let adst := tb_adsDataType typeData in
        let default :=
          match find (attribute_named "lowerborder") (attributes typeData) with
          | Some a => Value_of_Numeric (parse_border adst (attr_value a))
          | None => Value_of_Numeric (zero adst)
          end in
        (exists c u l,
            TcType.new_TcNumericType kind typeData = TcType.TcNumericType c kind u l /\
            TcType.upperBorder kind u
            = TcType.upperBorder kind
                (last_border "upperborder" adst (attributes typeData) None) /\
            TcType.lowerBorder kind l
            = TcType.lowerBorder kind
                (last_border "lowerborder" adst (attributes typeData) None) /\
            TcType.defaultValue (TcType.new_TcNumericType kind typeData)
            = Some default) /\
        (forall (com : TcCom.t P) ty com',
            TcType.TcNumericType_create kind typeData com = (Ok (Some ty), com') ->
            exists buffer,
              TcCom.toRaw (tb_name typeData) default com = (Ok buffer, com') /\
              TcType.defaultBuffer ty = Some buffer /\
              TcType.defaultValue ty = Some default /\
              forall path parentReadOnly pointer,
                let symbol := TcSymbol.instance ty path parentReadOnly pointer in
                let package :=
                  {| pkg_indexGroup := ptr_indexGroup pointer;
                     pkg_indexOffset := ptr_indexOffset pointer;
                     pkg_data := Bytes buffer |} in
                TcBinding.clearPackages (TcBinding.fields symbol) = [package] /\
                (TcBinding.readOnly (TcBinding.fields symbol) = false ->
                 forall com2, TcBinding.clear symbol com2 = TcCom.write [package] com2))) /\
    (forall c kind u l (mutator : TcTypeBase) (com : TcCom.t P) ty com',
        let this := TcType.TcNumericType c kind u l in
        has_attribute "default" mutator = false ->
        numerals (TcType.adst this) mutator = true ->
        TcType.clone this (Some mutator) com = (Ok (Some ty), com') ->
        TcType.defaultValue ty = TcType.defaultValue this).
Proof.
  intros P ads js. split.
  - intros kind typeData Hno _ adst default.
    assert (Hdefault : existsb (attribute_named "default") (attributes typeData) = false).
    { unfold has_attribute, attributes in *.
      destruct (tb_attributes typeData); [exact Hno | reflexivity]. }
    destruct (new_numeric kind typeData) as (c' & Heq & Hadst & Hname & Hd).
    assert (Hvalue : TcType.defaultValue (TcType.new_TcNumericType kind typeData)
                     = Some default).
    { rewrite Heq, defaultValue_numeric, Hd, Hadst. unfold given_default.
      rewrite (last_border_absent _ _ _ _ Hdefault). subst default adst.
      destruct (find _ _); reflexivity. }
    split.
    + rewrite Hvalue, Heq. eexists _, _, _. repeat split; reflexivity.
    + intros com ty com' Hcreate.
      destruct (create_leaf_Some _ _ _ _ Hcreate) as (buffer & Hraw & ->).
      rewrite Hvalue in Hraw. rewrite defaultValue_buffer, Hvalue.
      exists buffer. split.
      { rewrite <- Hname, <- Hraw, Heq. reflexivity. }
      rewrite Heq. split; [reflexivity |]. split; [reflexivity |].
      intros path parentReadOnly pointer symbol package.
      split; [reflexivity |].
      intros HreadOnly com2. unfold TcBinding.clear. rewrite HreadOnly. reflexivity.
  - intros c kind u l mutator com ty com' this. subst this.
    intros Hno _ Hclone.
    assert (Hdefault : existsb (attribute_named "default") (attributes mutator) = false).
    { unfold has_attribute, attributes in *.
      destruct (tb_attributes mutator); [exact Hno | reflexivity]. }
    destruct (clone_Some _ _ _ _ _ Hclone) as (buffer & ->).
    destruct (copy_numeric c kind u l mutator) as (c' & Heq & Hadst & Hd).
    rewrite defaultValue_buffer, Heq.
    rewrite (last_border_absent _ _ _ _ Hdefault) in Hd.
    rewrite defaultValue_numeric, Hd, !defaultValue_numeric. reflexivity.
Qed.

Lemma numeric_default_is_first_lower_border_witness :
  (exists buffer,
      TcType.defaultBuffer
        (Sample.created
           (TcType.TcNumericType_create TcType.INT16
              (Sample.raw "INT" ADST.INT16 2 None
                 [("LowerBorder", "10"); ("UpperBorder", "20")]))
           Sample.INT)
      = Some buffer /\
      TcType.defaultValue
        (Sample.created
           (TcType.TcNumericType_create TcType.INT16
              (Sample.raw "INT" ADST.INT16 2 None
                 [("LowerBorder", "10"); ("UpperBorder", "20")]))
           Sample.INT)
      = Some (VNumber (Sample.decimal "10")) /\
      TcBinding.clearPackages
        (TcBinding.fields
           (TcSymbol.instance
              (Sample.created
                 (TcType.TcNumericType_create TcType.INT16
                    (Sample.raw "INT" ADST.INT16 2 None
                       [("LowerBorder", "10"); ("UpperBorder", "20")]))
                 Sample.INT)
              "MAIN.counter" false (Sample.pointer 16448 100 2)))
      = [{| pkg_indexGroup := 16448; pkg_indexOffset := 100;
            pkg_data := Bytes buffer |}]) /\
  TcType.defaultValue
    (Sample.created
       (TcType.clone Sample.INT
          (Some (ti_base (Sample.raw "INT" ADST.INT16 2 (Some 4)
                            [("LowerBorder", "10")]))))
       Sample.INT)
  = Some (VNumber 0).
Proof.
  pose proof (numeric_default_is_first_lower_border Sample.Memory Sample.ads
                Sample.runtime) as [Hraw Hclone].
  split.
  - assert (Hcreate :
              TcType.TcNumericType_create TcType.INT16
                (Sample.raw "INT" ADST.INT16 2 None
                   [("LowerBorder", "10"); ("UpperBorder", "20")])
                (Sample.com ∅)
              = (Ok (Some
                       (Sample.created
                          (TcType.TcNumericType_create TcType.INT16
                             (Sample.raw "INT" ADST.INT16 2 None
                                [("LowerBorder", "10"); ("UpperBorder", "20")]))
                          Sample.INT)),
                 snd (TcType.TcNumericType_create TcType.INT16
                        (Sample.raw "INT" ADST.INT16 2 None
                           [("LowerBorder", "10"); ("UpperBorder", "20")])
                        (Sample.com ∅))))
      by (vm_compute; reflexivity).
    destruct (proj2 (Hraw TcType.INT16
                       (Sample.raw "INT" ADST.INT16 2 None
                          [("LowerBorder", "10"); ("UpperBorder", "20")])
                       eq_refl eq_refl) _ _ _ Hcreate)
      as (buffer & _ & Hbuffer & Hvalue & Hclear).
    exists buffer. split; [exact Hbuffer |]. split; [exact Hvalue |].
    exact (proj1 (Hclear "MAIN.counter" false (Sample.pointer 16448 100 2))).
  - assert (Hcloned :
              TcType.clone
                (TcType.TcNumericType (TcType.common Sample.INT) TcType.INT16 None None)
                (Some (ti_base (Sample.raw "INT" ADST.INT16 2 (Some 4)
                                  [("LowerBorder", "10")])))
                (Sample.com ∅)
              = (Ok (Some
                       (Sample.created
                          (TcType.clone Sample.INT
                             (Some (ti_base (Sample.raw "INT" ADST.INT16 2 (Some 4)
                                               [("LowerBorder", "10")]))))
                          Sample.INT)),
                 snd (TcType.clone Sample.INT
                        (Some (ti_base (Sample.raw "INT" ADST.INT16 2 (Some 4)
                                          [("LowerBorder", "10")])))
                        (Sample.com ∅))))
      by (vm_compute; reflexivity).
    exact (Hclone (TcType.common Sample.INT) TcType.INT16 None None
             (ti_base (Sample.raw "INT" ADST.INT16 2 (Some 4) [("LowerBorder", "10")]))
             (Sample.com ∅) _ _ eq_refl eq_refl Hcloned).
Defined.

(** ** The type registry: sub items ([__adsTypeProcessChildren]) *)

Section RegistryLoop.
Context {St A T : Type}.
Variable resolve : A -> M St (option T).
Variable name : A -> string.

Lemma processChildren_loop_unfold i subItems result s :
  TcTypeRegistry.processChildren_loop resolve name i subItems result s
  = match nth_error subItems i with
    | None => (Ok (subItems, result), s)
    | Some child =>
        match resolve child s with
        | (Ok (Some extended), s') =>
            TcTypeRegistry.processChildren_loop resolve name (S i) subItems
              (result ++ [(name child, extended)]) s'
        | (Ok None, s') =>
            TcTypeRegistry.processChildren_loop resolve name (S i)
              (TcTypeRegistry.splice i subItems) result s'
        | (Throw e, s') => (Throw e, s')
        end
    end.
Proof.
  funelim (TcTypeRegistry.processChildren_loop resolve name i subItems result s);
    match goal with Heq : nth_error _ _ = _ |- _ => rewrite Heq end;
    try match goal with Heq : resolve _ _ = _ |- _ => rewrite Heq end;
    reflexivity.
Qed.

(** The loop entered at the index [length done] on [done ++ rest] does to
    [rest] what the loop entered at 0 does to it. *)
Lemma processChildren_loop_shift (n : nat) : forall rest done result s,
  (List.length rest <= n)%nat ->
  TcTypeRegistry.processChildren_loop resolve name (List.length done) (done ++ rest)
    result s
  = match TcTypeRegistry.processChildren_loop resolve name 0 rest [] s with
    | (Ok (kept, added), s') => (Ok (done ++ kept, result ++ added), s')
    | (Throw e, s') => (Throw e, s')
    end.
Proof.
  induction n as [| n IH]; intros rest done result s Hlen.
  - destruct rest; [| cbn in Hlen; lia].
    rewrite !processChildren_loop_unfold. rewrite app_nil_r.
    replace (nth_error done (List.length done)) with (@None A)
      by (symmetry; apply nth_error_None; lia).
    cbn. rewrite !app_nil_r. reflexivity.
  - destruct rest as [| child rest].
    + rewrite !processChildren_loop_unfold. rewrite app_nil_r.
      replace (nth_error done (List.length done)) with (@None A)
        by (symmetry; apply nth_error_None; lia).
      cbn. rewrite !app_nil_r. reflexivity.
    + cbn in Hlen.
      rewrite (processChildren_loop_unfold (List.length done)).
      rewrite (processChildren_loop_unfold 0 (child :: rest)).
      rewrite nth_error_app2 by lia. rewrite Nat.sub_diag. cbn [nth_error].
      destruct (resolve child s) as [[[extended |] | e] s']; [| | reflexivity].
      * replace (done ++ child :: rest) with ((done ++ [child]) ++ rest)
          by (rewrite <- app_assoc; reflexivity).
        replace (S (List.length done)) with (List.length (done ++ [child]))
          by (rewrite length_app; cbn; lia).
        rewrite (IH rest (done ++ [child])) by lia.
        change (TcTypeRegistry.processChildren_loop resolve name 1 (child :: rest))
          with (TcTypeRegistry.processChildren_loop resolve name
                  (List.length [child]) ([child] ++ rest)).
        rewrite (IH rest [child]) by lia.
        destruct (TcTypeRegistry.processChildren_loop resolve name 0 rest [] s')
          as [[[kept added] | e] s'']; [| reflexivity].
        rewrite <- !app_assoc. reflexivity.
      * assert (Hsplice : TcTypeRegistry.splice (List.length done) (done ++ child :: rest)
                          = done ++ rest).
        { unfold TcTypeRegistry.splice. rewrite firstn_app, Nat.sub_diag, firstn_all.
          cbn [firstn]. rewrite app_nil_r.
          rewrite skipn_app. rewrite skipn_all2 by lia.
          replace (S (List.length done) - List.length done)%nat with 1%nat by lia.
          reflexivity. }
        rewrite Hsplice. change (TcTypeRegistry.splice 0 (child :: rest)) with rest.
        destruct rest as [| skipped rest].
        -- rewrite !processChildren_loop_unfold. rewrite app_nil_r.
           replace (nth_error done (S (List.length done))) with (@None A)
             by (symmetry; apply nth_error_None; lia).
           cbn. rewrite !app_nil_r. reflexivity.
        -- cbn in Hlen.
           replace (done ++ skipped :: rest) with ((done ++ [skipped]) ++ rest)
             by (rewrite <- app_assoc; reflexivity).
           replace (S (List.length done)) with (List.length (done ++ [skipped]))
             by (rewrite length_app; cbn; lia).
           rewrite (IH rest (done ++ [skipped])) by lia.
           change (TcTypeRegistry.processChildren_loop resolve name 1 (skipped :: rest))
             with (TcTypeRegistry.processChildren_loop resolve name
                     (List.length [skipped]) ([skipped] ++ rest)).
           rewrite (IH rest [skipped]) by lia.
           destruct (TcTypeRegistry.processChildren_loop resolve name 0 rest [] s')
             as [[[kept added] | e] s'']; [| reflexivity].
           rewrite <- !app_assoc. reflexivity.
Qed.

Lemma processChildren_cases child rest s :
  TcTypeRegistry.__adsTypeProcessChildren resolve name (child :: rest) s
  = match resolve child s with
    | (Ok (Some extended), s') =>
        match TcTypeRegistry.__adsTypeProcessChildren resolve name rest s' with
        | (Ok (kept, added), s'') =>
            (Ok (child :: kept, (name child, extended) :: added), s'')
        | (Throw e, s'') => (Throw e, s'')
        end
    | (Ok None, s') =>
        match rest with
        | [] => (Ok ([], []), s')
        | next :: rest' =>
            match TcTypeRegistry.__adsTypeProcessChildren resolve name rest' s' with
            | (Ok (kept, added), s'') => (Ok (next :: kept, added), s'')
            | (Throw e, s'') => (Throw e, s'')
            end
        end
    | (Throw e, s') => (Throw e, s')
    end.
Proof.
  unfold TcTypeRegistry.__adsTypeProcessChildren.
  rewrite (processChildren_loop_unfold 0 (child :: rest)). cbn [nth_error].
  destruct (resolve child s) as [[[extended |] | e] s']; [| | reflexivity].
  - change (TcTypeRegistry.processChildren_loop resolve name 1 (child :: rest))
      with (TcTypeRegistry.processChildren_loop resolve name
              (List.length [child]) ([child] ++ rest)).
    rewrite (processChildren_loop_shift (List.length rest) rest [child]) by lia.
    reflexivity.
  - change (TcTypeRegistry.splice 0 (child :: rest)) with rest.
    destruct rest as [| next rest'].
    + rewrite processChildren_loop_unfold. reflexivity.
    + change (TcTypeRegistry.processChildren_loop resolve name 1 (next :: rest'))
        with (TcTypeRegistry.processChildren_loop resolve name
                (List.length [next]) ([next] ++ rest')).
      rewrite (processChildren_loop_shift (List.length rest') rest' [next]) by lia.
      reflexivity.
Qed.

End RegistryLoop.

(** X28. The loop over the sub items of a structure descriptor (one that
    does not contain itself), by its effect on the first sub item. A sub
    item that resolves to a type stays in the descriptor and is added to
    the result under its name. A sub item that does not resolve is removed
    from the descriptor, and the sub item that follows it is passed over: it
    stays in the descriptor, but it is neither resolved nor added to the
    result (the index moves on after the removal). An error of the
    resolution ends the loop. *)
Theorem processChildren_passes_over_the_next :
  forall (St A T : Type) (resolve : A -> M St (option T)) (name : A -> string)
    (s : St),
    TcTypeRegistry.__adsTypeProcessChildren resolve name [] s = (Ok ([], []), s) /\
    forall child rest,
      TcTypeRegistry.__adsTypeProcessChildren resolve name (child :: rest) s
      = match resolve child s with
        | (Ok (Some extended), s') =>
            match TcTypeRegistry.__adsTypeProcessChildren resolve name rest s' with
            | (Ok (kept, added), s'') =>
                (Ok (child :: kept, (name child, extended) :: added), s'')
            | (Throw e, s'') => (Throw e, s'')
            end
        | (Ok None, s') =>
            match rest with
            | [] => (Ok ([], []), s')
            | next :: rest' =>
                match TcTypeRegistry.__adsTypeProcessChildren resolve name rest' s' with
                | (Ok (kept, added), s'') => (Ok (next :: kept, added), s'')
                | (Throw e, s'') => (Throw e, s'')
                end
            end
        | (Throw e, s') => (Throw e, s')
        end.
Proof.
  intros St A T resolve name s. split.
  - unfold TcTypeRegistry.__adsTypeProcessChildren.
    rewrite processChildren_loop_unfold. reflexivity.
  - intros child rest. apply processChildren_cases.
Qed.


(** ** Partial writes on arrays ([TcArrayBinding.toRaw]) *)

Section ArrayWrite.
Context {P : Type} `{ADS P} `{JsRuntime}.
Implicit Types com : TcCom.t P.

Lemma array_loop_owned this startIndex items : forall (n : nat) promises com promises' com',
  array_loop this startIndex items (Z.of_nat n) promises com = (Ok promises', com') ->
  exists new,
    promises' = promises ++ new /\
    Forall (fun r => forall part, r = Ok part ->
              Forall (owned_by_element this startIndex n (List.length items)) part) new.
Proof.
  induction items as [| x rest IH]; intros n promises com promises' com' Hloop.
  - cbn in Hloop. inversion Hloop; subst. exists []. rewrite app_nil_r.
    split; [reflexivity | constructor].
  - cbn [array_loop] in Hloop.
    destruct (TcBinding.lookup_child this (KIndex (Z.of_nat n + startIndex)))
      as [child |] eqn:Hchild; [| discriminate].
    unfold bind, settle in Hloop.
    destruct (TcBinding.toRaw x child com) as [r com1] eqn:HtoRaw.
    replace (Z.of_nat n + 1) with (Z.of_nat (S n)) in Hloop by lia.
    destruct (IH _ _ _ _ _ Hloop) as (new & Hnew & Howned).
    exists (r :: new). split; [rewrite Hnew, <- app_assoc; reflexivity |].
    constructor.
    + intros part ->. pose proof (toRaw_addresses x child com part com1 HtoRaw) as Hx.
      eapply Forall_impl; [exact Hx |].
      intros p Hp. exists n, child. cbn [List.length]. split; [lia |]. split; assumption.
    + eapply Forall_impl; [exact Howned |].
      intros r' Hr' part Hpart. eapply Forall_impl; [exact (Hr' part Hpart) |].
      intros p (j & child' & Hj & Hl & Ha). exists j, child'. cbn [List.length].
      split; [lia |]. split; assumption.
Qed.

Lemma array_toRaw_owned this startIndex length items com dataPackages com' :
  TcBinding.class this = TcBinding.TcArrayBinding startIndex length ->
  TcBinding.toRaw (VArray items) this com = (Ok dataPackages, com') ->
  Forall (owned_by_element this startIndex 0 (List.length items)) dataPackages.
Proof.
  intros Hcls HtoRaw.
  rewrite (toRaw_array_unfold items this startIndex length Hcls) in HtoRaw.
  rewrite lift_bind in HtoRaw.
  destruct (TcBinding.checkInput this (VArray items)); [| discriminate].
  unfold bind at 1 in HtoRaw.
  destruct (array_loop this startIndex items 0 [] com) as [[promises | e] com1] eqn:Hloop;
    [| discriminate].
  rewrite lift_bind in HtoRaw.
  destruct (Promise_all promises) as [parts | e] eqn:Hall; [| discriminate].
  unfold ret in HtoRaw. inversion HtoRaw; subst.
  destruct (array_loop_owned this startIndex items 0 _ _ _ _ Hloop)
    as (new & Hnew & Howned).
  cbn in Hnew. subst new. eapply concat_parts; [| exact Howned].
  apply Promise_all_Ok. exact Hall.
Qed.

End ArrayWrite.

Lemma elements_nth startIndex items : forall index j item,
  nth_error items j = Some item ->
  nth_error (elements startIndex index items) j
  = Some (KIndex (index + Z.of_nat j + startIndex), item).
Proof.
  induction items as [| x rest IH]; intros index j item Hnth.
  - destruct j; discriminate.
  - destruct j as [| j]; cbn [nth_error elements] in *.
    + inversion Hnth; subst. do 3 f_equal. lia.
    + rewrite (IH (index + 1) j item Hnth). do 3 f_equal. lia.
Qed.

(** X29. A [write(items)] on an array binding that succeeds has handed
    the item at every position [j] to the element with the index
    [startIndex + j], in the order of the items, and what reaches the
    transport is the concatenation of the packages of these conversions:
    every package belongs to one of the elements with the indices
    [startIndex .. startIndex + n - 1], where [n] is the number of items,
    and nothing is written for the elements after them. *)
Theorem array_partial_write :
  forall (P : Type) (ads : ADS P) (js : JsRuntime) (this : TcBinding.t)
    (startIndex length : Z) (items : list Value) (com com' : TcCom.t P) (result : Value),
    TcBinding.class this = TcBinding.TcArrayBinding startIndex length ->
    TcBinding.write this (VArray items) com = (Ok result, com') ->
    (forall j item,
        nth_error items j = Some item ->
        nth_error (elements startIndex 0 items) j
        = Some (KIndex (Z.of_nat j + startIndex), item)) /\
    exists packages com1,
      handled this (elements startIndex 0 items) com packages com1 /\
      written (TcCom.trace com') = written (TcCom.trace com) ++ concat packages /\
      Forall (owned_by_element this startIndex 0 (List.length items)) (concat packages).
Proof.
  intros P ads js this startIndex length items com com' result Hcls Hw.
  split; [intros j item Hnth; apply (elements_nth startIndex items 0 j item Hnth) |].
  destruct (write_ok_written this _ com result com' Hw)
    as (dataPackages & com1 & HtoRaw & Hwritten).
  destruct (array_toRaw_handled this startIndex length items com dataPackages com1
              Hcls HtoRaw) as (packages & Hhandled & Hconcat).
  exists packages, com1. subst dataPackages.
  split; [exact Hhandled |]. split; [exact Hwritten |].
  eapply array_toRaw_owned; eassumption.
Qed.

Lemma array_partial_write_witness :
  exists packages com1,
    handled flags (elements 0 0 [VBoolean true]) (Sample.com ∅) packages com1 /\
    written (TcCom.trace (snd (TcBinding.write flags (VArray [VBoolean true])
                                 (Sample.com ∅))))
    = written (TcCom.trace (Sample.com ∅)) ++ concat packages /\
    Forall (owned_by_element flags 0 0 1) (concat packages).
Proof.
  apply (array_partial_write Sample.Memory Sample.ads Sample.runtime flags 0 2
           [VBoolean true] (Sample.com ∅)
           (snd (TcBinding.write flags (VArray [VBoolean true]) (Sample.com ∅)))
           (VArray [VBoolean true])).
  - reflexivity.
  - vm_compute. reflexivity.
Defined.
